(** * Receding-horizon diffusion control of the Panda arm, and the AMPC training loop

    A shallow embedding of [scripts/Panda/panda_inference/inference_diffusion_panda.py]
    and [scripts/train_diffusion/NN_cart_pole_train.py].

    Numbers are exact rationals ([Qc], rationals in lowest terms, so that equality is
    Leibniz equality and every definition evaluates).  Python exceptions (IndexError,
    ValueError on shape mismatch, RuntimeError of [view]) are [None] in the option monad.
    MuJoCo, the diffusion sampler, the optimiser, the data loaders and the wall clock are
    external: each is a class of operations, and what the scripts rely on about their
    shapes is a class of laws. *)

From Stdlib Require Import QArith Qcanon Lia Lqa ZifyNat String.
From stdpp Require Import base numbers option list strings pretty.

(** Linear arithmetic with division and remainder by constants. *)
Ltac nat_divmod := zify; Z.div_mod_to_equations; lia.

(** ** Python loops in the option monad *)

(** [for x in l: s = body(s, x)], stopping at the first exception. *)
Fixpoint for_each {A St : Type} (body : St → A → option St) (s : St) (l : list A) : option St :=
  match l with
  | [] => Some s
  | x :: l' => s' ← body s x; for_each body s' l'
  end.

(** [range(0, n)] *)
Definition range (n : nat) : list nat := seq 0 n.

(** ** numpy arrays *)
Module Numpy.

(** A vector: a rank-one array, or a column [(n,1)] or a row [(1,n)], all of which are
    the same data under [reshape]. *)
Abbreviation vector := (list Qc).

(** A rank-two array as the list of its rows. *)
Abbreviation matrix := (list (list Qc)).

(** A rank-three array or tensor: its shape and its element at each index (this is
    what a strided view is, so that [transpose] is a change of index). *)
Record ndarray3 := Nd3 {
  dim0 : nat;
  dim1 : nat;
  dim2 : nat;
  at3 : nat → nat → nat → Qc
}.

(** [np.zeros((a, b, c))] *)
Definition zeros3 (a b c : nat) : ndarray3 := Nd3 a b c (λ _ _ _, 0%Qc).

(** [np.zeros((n, m))] *)
Definition zeros2 (n m : nat) : matrix := replicate n (replicate m 0%Qc).

(** [a.transpose(2, 1, 0)] *)
Definition transpose210 (a : ndarray3) : ndarray3 :=
  Nd3 (dim2 a) (dim1 a) (dim0 a) (λ i j k, at3 a k j i).

(** [a[:, k, 0]] *)
Definition column (a : ndarray3) (k : nat) : option vector :=
  if (k <? dim1 a) && (0 <? dim2 a)
  then Some (map (λ i, at3 a i k 0%nat) (seq 0 (dim0 a)))
  else None.

(** [a[:, -1, 0]]: the last index of the middle axis. *)
Definition last_column (a : ndarray3) : option vector := column a (dim1 a - 1).

(** [a[0, k, :]] *)
Definition row0 (a : ndarray3) (k : nat) : option vector :=
  if (0 <? dim0 a) && (k <? dim1 a)
  then Some (map (λ j, at3 a 0%nat k j) (seq 0 (dim2 a)))
  else None.

(** [a[:, k, 0] = v], with numpy's broadcasting of a one-element [v]. *)
Definition set_column (a : ndarray3) (k : nat) (v : vector) : option ndarray3 :=
  if (k <? dim1 a) && (0 <? dim2 a) && ((length v =? dim0 a) || (length v =? 1))
  then Some (Nd3 (dim0 a) (dim1 a) (dim2 a)
               (λ i j l, if (j =? k) && (l =? 0)
                         then nth (if length v =? dim0 a then i else 0%nat) v 0%Qc
                         else at3 a i j l))
  else None.

(** [v.reshape(n)] *)
Definition reshape (n : nat) (v : vector) : option vector :=
  if length v =? n then Some v else None.

(** [np.diag(d)] *)
Definition diag (d : vector) : matrix :=
  imap (λ i x, <[i:=x]> (replicate (length d) 0%Qc)) d.

(** [m[i, j]] *)
Definition item2 (m : matrix) (i j : nat) : option Qc := m !! i ≫= (.!! j).

(** [m[i, :] = v], with broadcasting of a one-element [v]. *)
Definition set_row (m : matrix) (i : nat) (v : vector) : option matrix :=
  row ← m !! i;
  if length v =? length row then Some (<[i:=v]> m)
  else if length v =? 1 then Some (<[i:=replicate (length row) (nth 0 v 0%Qc)]> m)
  else None.

(** [m[i, 0] = x] *)
Definition set_item0 (m : matrix) (i : nat) (x : Qc) : option matrix :=
  row ← m !! i;
  if 0 <? length row then Some (<[i:=<[0%nat:=x]> row]> m) else None.

(** [dst[lo:hi] = src] on a column, with broadcasting of a one-element [src]. *)
Definition set_slice (dst : vector) (lo hi : nat) (src : vector) : option vector :=
  let n := (min hi (length dst) - lo)%nat in
  if length src =? n then Some (take lo dst ++ src ++ drop (lo + n) dst)
  else if length src =? 1 then Some (take lo dst ++ replicate n (nth 0 src 0%Qc) ++ drop (lo + n) dst)
  else None.

(** [a - b] on vectors of one shape. *)
Definition vsub (a b : vector) : vector := zip_with Qcminus a b.

(** [casadi.mtimes(m, v)] of a matrix and a column; the inner dimensions must agree. *)
Definition dot (a b : vector) : Qc := foldr Qcplus 0%Qc (zip_with Qcmult a b).
Definition mtimes (m : matrix) (v : vector) : option vector :=
  mapM (λ row, if length row =? length v then Some (dot row v) else None) m.

(** [casadi.sumsqr(v)] *)
Definition sumsqr (v : vector) : Qc := foldr (λ x acc, (x * x + acc)%Qc) 0%Qc v.

(** [np.sum(m)] *)
Definition np_sum (m : matrix) : Qc := foldr (λ row acc, (foldr Qcplus 0 row + acc)%Qc) 0%Qc m.

End Numpy.
Import Numpy.

(** ** The inference script *)
Module Panda.

Definition HORIZON : nat := 128.
Definition TARGET_POS : vector := [Q2Qc (3 # 10); Q2Qc (3 # 10); Q2Qc (1 # 2)].
Definition SAMPLING_STEPS : nat := 200.
Definition CONTROL_RATE : nat := 10.

(** The weights [Q], [R] and [P] of the script ([Q] is the type of rationals here). *)
Definition Qw : matrix := diag [Qc_of_Z 10; Qc_of_Z 10; Qc_of_Z 10].
Definition Rw : Qc := Q2Qc (1 # 2).
Definition Pw : matrix := diag [Qc_of_Z 10; Qc_of_Z 10; Qc_of_Z 10].

(** [W[0,0]*(x[0]-TARGET_POS[0])**2 + W[1,1]*(x[1]-TARGET_POS[1])**2
     + W[2,2]*(x[2]-TARGET_POS[2])**2], the expression [mpc_cost] writes three times. *)
Definition weighted_dev (W : matrix) (x : vector) : option Qc :=
  w0 ← item2 W 0 0; x0 ← x !! 0%nat; t0 ← TARGET_POS !! 0%nat;
  w1 ← item2 W 1 1; x1 ← x !! 1%nat; t1 ← TARGET_POS !! 1%nat;
  w2 ← item2 W 2 2; x2 ← x !! 2%nat; t2 ← TARGET_POS !! 2%nat;
  Some (w0 * (x0 - t0) ^ 2 + w1 * (x1 - t1) ^ 2 + w2 * (x2 - t2) ^ 2)%Qc.

Definition mpc_cost (predicted_states predicted_controls : ndarray3)
    (Qm : matrix) (R : Qc) (P : matrix) : option Qc :=
  let predicted_controls := transpose210 predicted_controls in
  (* initial cost *)
  x_0 ← column predicted_states 0;
  cost ← weighted_dev Qm x_0;
  (* stage cost *)
  cost ← for_each (λ cost i,
            x_i ← column predicted_states (i + 1);
            u_i_1 ← column predicted_controls i;
            u_i ← column predicted_controls (i + 1);
            let delta_u := vsub u_i u_i_1 in
            stage ← weighted_dev Qm x_i;
            Some (cost + (stage + R * sumsqr delta_u))%Qc)
          cost (range (dim1 predicted_controls - 1));
  (* terminal cost *)
  x_end ← last_column predicted_states;
  terminal ← weighted_dev P x_end;
  Some (cost + terminal)%Qc.

(** *** MuJoCo *)

(** The fields of [mujoco.MjData] that the script reads and writes. *)
Record MjData := mkMjData {
  qpos : vector;   (* joint positions *)
  qvel : vector;   (* joint velocities *)
  xpos : matrix;   (* Cartesian position of every body, rows of three *)
  ctrl : vector;   (* actuator controls *)
  rest : vector    (* everything else the engine keeps: time, accelerations, ... *)
}.

(** [data.qpos[:7] = q] and [data.ctrl[:7] = u] *)
Definition set_qpos (d : MjData) (q : vector) : option MjData :=
  q' ← set_slice (qpos d) 0 7 q; Some (mkMjData q' (qvel d) (xpos d) (ctrl d) (rest d)).
Definition set_ctrl (d : MjData) (u : vector) : option MjData :=
  u' ← set_slice (ctrl d) 0 7 u; Some (mkMjData (qpos d) (qvel d) (xpos d) u' (rest d)).

(** The physics engine, for the model of [xml/mjx_scene.xml]. *)
Class MuJoCo := {
  (** [mujoco.MjData(mujoco.MjModel.from_xml_path(...))] *)
  MjData_new : MjData;
  (** [mujoco.mj_step(model, data)] *)
  mj_step : MjData → MjData;
  (** [mujoco.mj_jac(model, data, jacp, jacr, point, body)]: the filled [jacp] and [jacr],
      each of shape (3, nv) *)
  mj_jac : MjData → vector → nat → matrix * matrix
}.

(** The trained diffusion model and its dataset. The sampler draws noise, so it is
    indexed by the number of the call. *)
Class Diffusion := {
  (** [diffusion_sampling(x_current, dataset, model, n_support_points)]: the chain of
      normalised iterates of [model.run_CFG(..., return_chain=True)], each (1, horizon, 7) *)
  diffusion_sampling : nat → vector → list ndarray3;
  (** [dataset.unnormalize_states] *)
  unnormalize_states : list ndarray3 → list ndarray3
}.

(** Floating-point and wall-clock values that have no rational model. *)
Class Measured := {
  (** [np.linalg.norm] *)
  np_linalg_norm : vector → Qc;
  (** [single_end - single_start] at each sampling step *)
  single_t : nat → Qc;
  (** [end_time - start_time] *)
  delta_t_problem_solving : Qc
}.

Section Inference.
Context `{MuJoCo, Diffusion, Measured}.

Definition compute_jacobian (data : MjData) (tpoint : vector) : matrix * matrix :=
  let body_id := 9%nat in
  mj_jac data tpoint body_id.

(** current context loading *)
Definition state_loading (data : MjData) : option (vector * vector * vector) :=
  let q_current := qpos data in
  let q_dot_current := qvel data in
  x_current ← xpos data !! 9%nat;
  (* compute 'hand' x_dot *)
  let '(jacp, _) := compute_jacobian data TARGET_POS in
  let jacp := map (take 7) jacp in
  x_dot_current ← mtimes jacp (take 7 q_dot_current);
  (* full state 20*1 *)
  let context_current := replicate 20 0%Qc in
  context_current ← set_slice context_current 0 7 (take 7 q_current);
  context_current ← set_slice context_current 7 14 (take 7 q_dot_current);
  context_current ← set_slice context_current 14 17 x_current;
  context_current ← set_slice context_current 17 20 x_dot_current;
  let q_current_pos := take 7 q_current in
  let x_current_pos := x_current in
  Some (q_current_pos, x_current_pos, context_current).

(** The body of [for k in range(0, HORIZON)] in [diffusion_horizon_states]. *)
Definition horizon_step (inputs_final : ndarray3) (s : MjData * ndarray3) (k : nat)
    : option (MjData * ndarray3) :=
  let '(data_cost, diffusion_horizon_states) := s in
  u ← row0 inputs_final k;
  data_cost ← set_ctrl data_cost u;
  let data_cost := mj_step data_cost in
  x_current ← xpos data_cost !! 9%nat;
  x3 ← reshape 3 x_current;
  diffusion_horizon_states ← set_column diffusion_horizon_states (k + 1) x3;
  Some (data_cost, diffusion_horizon_states).

Definition diffusion_horizon_states (x_current_pos : vector) (inputs_final : ndarray3)
    (q_current_pos : vector) : option ndarray3 :=
  let data_cost := MjData_new in
  q7 ← reshape 7 q_current_pos;
  data_cost ← set_qpos data_cost q7;
  let data_cost := mj_step data_cost in
  let diffusion_horizon_states := zeros3 3 (HORIZON + 1) 1 in
  x_current ← xpos data_cost !! 9%nat;
  x3 ← reshape 3 x_current;
  diffusion_horizon_states ← set_column diffusion_horizon_states 0 x3;
  r ← for_each (horizon_step inputs_final) (data_cost, diffusion_horizon_states)
         (range HORIZON);
  Some r.2.

(** The variables of [main] that live across iterations of the control loop. *)
Record LoopState := mkLoopState {
  data : MjData;
  x_pos_memory : matrix;
  q_pos_memory : matrix;
  ctl_memory : matrix;
  abs_dis_memory : matrix;
  cost_memory : matrix;
  single_time_set : matrix;
  sampling_step : nat
}.

(** The body of [if panda_step % CONTROL_RATE == 0]. *)
Definition sampling_branch (s : LoopState) : option LoopState :=
  (* current panda data loading *)
  '(q_current_pos, x_current_pos, context_current) ← state_loading (data s);
  let x_current := context_current in
  (* data saving *)
  q7 ← reshape 7 q_current_pos;
  q_pos_memory ← set_row (q_pos_memory s) (sampling_step s) q7;
  x3 ← reshape 3 x_current_pos;
  x_pos_memory ← set_row (x_pos_memory s) (sampling_step s) x3;
  abs_dis_memory ← set_row (abs_dis_memory s) (sampling_step s)
                     [np_linalg_norm (vsub x_current_pos TARGET_POS)];
  (* sampling *)
  let inputs_normalized_iters := diffusion_sampling (sampling_step s) x_current in
  single_time_set ← set_item0 (single_time_set s) (sampling_step s) (single_t (sampling_step s));
  (* last diffusion result unnormalize *)
  let inputs_iters := unnormalize_states inputs_normalized_iters in
  inputs_final ← last inputs_iters;
  diffusion_predicted_states ← diffusion_horizon_states x_current_pos inputs_final q_current_pos;
  cost ← mpc_cost diffusion_predicted_states inputs_final Qw Rw Pw;
  cost_memory ← set_item0 (cost_memory s) (sampling_step s) cost;
  applied_input_array ← row0 inputs_final 0;
  ctl_memory ← set_row (ctl_memory s) (sampling_step s) applied_input_array;
  (* Panda states updating *)
  data ← set_ctrl (data s) applied_input_array;
  Some (mkLoopState data x_pos_memory q_pos_memory ctl_memory
          abs_dis_memory cost_memory single_time_set (sampling_step s + 1)).

(** The body of [for panda_step in range(0, SAMPLING_STEPS*CONTROL_RATE)]. *)
Definition loop_body (s : LoopState) (panda_step : nat) : option LoopState :=
  s ← (if panda_step mod CONTROL_RATE =? 0 then sampling_branch s else Some s);
  let s := mkLoopState (mj_step (data s)) (x_pos_memory s) (q_pos_memory s) (ctl_memory s)
             (abs_dis_memory s) (cost_memory s) (single_time_set s) (sampling_step s) in
  if panda_step =? SAMPLING_STEPS * CONTROL_RATE - 1
  then _ ← state_loading (data s); Some s
  else Some s.

(** The state on entry to the control loop: preallocated memories, the simulation
    started from the zero joint configuration and stepped once. *)
Definition initial_state : option LoopState :=
  let x_pos_memory := zeros2 SAMPLING_STEPS 3 in
  let q_pos_memory := zeros2 SAMPLING_STEPS 7 in
  let ctl_memory := zeros2 SAMPLING_STEPS 7 in
  let abs_dis_memory := zeros2 SAMPLING_STEPS 1 in
  let cost_memory := zeros2 SAMPLING_STEPS 1 in
  let ini_joint_states := replicate 7 0%Qc in
  let data := MjData_new in
  (* panda initialization *)
  data ← set_qpos data ini_joint_states;
  let data := mj_step data in
  let single_time_set := zeros2 SAMPLING_STEPS 1 in
  let sampling_step := 0%nat in
  Some (mkLoopState data x_pos_memory q_pos_memory ctl_memory abs_dis_memory cost_memory
          single_time_set sampling_step).

(** The diffusion sampling loop of [main]. *)
Definition control_loop (s : LoopState) : option LoopState :=
  for_each loop_body s (range (SAMPLING_STEPS * CONTROL_RATE)).

(** What [np.save] writes: an array, or a zero-dimensional array holding one number. *)
Inductive npy :=
  | NpyArray (m : matrix)
  | NpyScalar (x : Qc).

Definition RESULTS_SAVED_PATH : string :=
  "/root/cartpoleDiff/cart_pole_diffusion_based_on_MPD/model_performance_saving/Panda_test6_performance".
Definition MODEL_PATH : string :=
  "/root/cartpoleDiff/cart_pole_diffusion_based_on_MPD/trained_models/panda_test6_117600/final".

(** [os.path.join(a, b)] for a relative [b] and an [a] without trailing separator. *)
Definition os_path_join (a b : string) : string := (a ++ "/" ++ b)%string.

(** [main]: the final loop state and the [.npy] files written, in order. The figures
    go through [plt.savefig] and are not part of the model. *)
Definition main : option (LoopState * list (string * npy)) :=
  let model_dir := MODEL_PATH in
  let results_dir := os_path_join model_dir "results_inference" in
  s ← initial_state;
  s ← control_loop s;
  (* final position difference *)
  last_row ← last (abs_dis_memory s);
  _ ← last_row !! 0%nat;
  let joint_name := ("cost" ++ "_collecting_sample_16")%string in
  let figure_saving_path := os_path_join RESULTS_SAVED_PATH joint_name in
  (* save states trajectory *)
  let x_trag_path := os_path_join figure_saving_path ("x_trag" ++ ".npy")%string in
  (* save solving time *)
  let solving_time_path :=
    os_path_join figure_saving_path ("solving_time_diffusion_" ++ ".npy")%string in
  (* save single time set *)
  let single_time_path :=
    os_path_join figure_saving_path ("single_time_diffusion_" ++ ".npy")%string in
  (* save cost *)
  let cost_sum := np_sum (cost_memory s) in
  let cost_path := os_path_join figure_saving_path ("cost_" ++ ".npy")%string in
  Some (s, [ (x_trag_path, NpyArray (x_pos_memory s));
             (solving_time_path, NpyScalar delta_t_problem_solving);
             (single_time_path, NpyArray (single_time_set s));
             (cost_path, NpyScalar cost_sum) ]).

End Inference.

End Panda.

(** ** The training script *)
Module Train.

(** A torch tensor: its shape and its elements in row-major order. *)
Record tensor := Tensor {
  shape : list nat;
  flat : vector
}.

Definition product (l : list nat) : nat := foldr Nat.mul 1%nat l.
Definition numel (t : tensor) : nat := product (shape t).

(** A module is the list of its parameters in the order of [parameters()]. *)
Abbreviation module := (list tensor).

(** *** EMA *)

Record EMA := mkEMA { beta : Qc }.

(** [old * self.beta + (1 - self.beta) * new], on two tensors of one shape. *)
Definition update_average (self : EMA) (old : option tensor) (new : tensor) : tensor :=
  match old with
  | None => new
  | Some old =>
      Tensor (shape old)
        (zip_with Qcplus (map (λ o, o * beta self)%Qc (flat old))
                         (map (λ n, (1 - beta self) * n)%Qc (flat new)))
  end.

(** The loop over [zip(ema_model.parameters(), current_model.parameters())] that
    assigns to [ema_params.data]; parameters past the shorter list keep their data. *)
Definition update_model_average (self : EMA) (ema_model current_model : module) : module :=
  zip_with (λ ema_params current_params,
              let old_weight := ema_params in
              let up_weight := current_params in
              update_average self (Some old_weight) up_weight)
           ema_model current_model
  ++ drop (length current_model) ema_model.

(** *** AMPCNet *)

(** Activation, loss and optimiser of torch. *)
Class Torch := {
  (** [torch.tanh] on one element *)
  tanh : Qc → Qc;
  (** [torch.nn.MSELoss()(outputs, targets)] *)
  criterion : tensor → tensor → option Qc;
  (** [zero_grad], [backward] of the batch loss and [step] of Adam: the optimiser's
      state and the model's parameters after them *)
  optimizer_step : vector → module → tensor → tensor → vector * module
}.

(** Row [i] of a row-major array with rows of [n] elements. *)
Definition row (n i : nat) (v : vector) : vector := take n (drop (i * n) v).

(** [nn.Linear.forward]: [x @ weight.T + bias] over the last axis of [x]. *)
Definition linear (weight bias x : tensor) : option tensor :=
  match shape weight, shape bias, reverse (shape x) with
  | [out_features; in_features], [nb], k :: lead =>
      if (k =? in_features) && (nb =? out_features)
      then Some (Tensor (reverse lead ++ [out_features])
                   (flat_map (λ i, map (λ j, (dot (row k i (flat x)) (row in_features j (flat weight))
                                              + nth j (flat bias) 0)%Qc)
                                     (seq 0 out_features))
                             (seq 0 (product lead))))
      else None
  | _, _, _ => None
  end.

(** [x.view(d0, d1, d2)] for the shape [new_shape] *)
Definition view (new_shape : list nat) (x : tensor) : option tensor :=
  if product new_shape =? numel x then Some (Tensor new_shape (flat x)) else None.

Section Network.
Context `{Torch}.

Definition torch_tanh (x : tensor) : tensor := Tensor (shape x) (map tanh (flat x)).

(** [AMPCNet.forward]; the parameters are [hidden1.weight], [hidden1.bias], ...,
    [output.weight], [output.bias]. *)
Definition forward (self : module) (x : tensor) : option tensor :=
  match self with
  | [hidden1_w; hidden1_b; hidden2_w; hidden2_b; hidden3_w; hidden3_b; output_w; output_b] =>
      x ← torch_tanh <$> linear hidden1_w hidden1_b x;
      x ← torch_tanh <$> linear hidden2_w hidden2_b x;
      x ← torch_tanh <$> linear hidden3_w hidden3_b x;
      x ← linear output_w output_b x;
      (* reshape the output *)
      view [512; 8; 1]%nat x
  | _ => None
  end.

End Network.

(** The shapes [AMPCNet.__init__(input_size, output_size)] gives the parameters. *)
Definition well_shaped (t : tensor) (sh : list nat) : Prop :=
  shape t = sh ∧ length (flat t) = product sh.
Definition AMPCNet_shapes (input_size output_size : nat) : list (list nat) :=
  [[2; input_size]; [2]; [50; 2]; [50]; [50; 50]; [50]; [output_size; 50]; [output_size]]%nat.
Definition is_AMPCNet (input_size output_size : nat) (self : module) : Prop :=
  Forall2 well_shaped self (AMPCNet_shapes input_size output_size).

Definition input_size : nat := 4.
Definition output_size : nat := 8.

(** *** The training loop *)

Definition ema_decay : Qc := Q2Qc (995 # 1000).
Definition step_start_ema : nat := 1000.
Definition update_ema_every : nat := 10.
Definition steps_til_summary : nat := 2000.
Definition steps_per_validation : nat := 10.
Definition epochs : nat := 300.
Definition use_ema : bool := true.
Definition stop_training : bool := false.

(** One item of a data loader. *)
Record batch := mkBatch {
  condition_normalized : tensor;
  inputs_normalized : tensor
}.

(** The data loaders returned by [get_dataset]. *)
Class Loaders := {
  (** the batches of the [epoch]-th pass over [train_dataloader] *)
  train_dataloader : nat → list batch;
  (** [len(train_dataloader)] *)
  len_train_dataloader : nat;
  val_dataloader : option (list batch)
}.

Record TrainState := mkTrainState {
  model : module;
  ema_model : option module;
  optimizers : vector;
  train_steps_current : nat;
  train_losses_l : list nat;
  validation_losses_l : list (nat * list Qc)
}.

Section Training.
Context `{Torch, Loaders}.
Variable max_steps : option nat.

Definition ema : EMA := mkEMA ema_decay.

(** The block under the comment [update ema]: reset during warm-up, then average. *)
Definition update_ema (ema_model model : module) (train_steps_current : nat) : module :=
  let ema_model :=
    if train_steps_current <? step_start_ema
    then model  (* ema_model.load_state_dict(model.state_dict()) *)
    else ema_model in
  update_model_average ema ema_model model.

(** The validation loop: the losses of the batches up to index [steps_per_validation]. *)
Definition validation (model : module) (val : list batch) : option (list Qc) :=
  mapM (λ batch_dict_val,
          let inputs_val := condition_normalized batch_dict_val in
          let targets_val := inputs_normalized batch_dict_val in
          outputs_val ← forward model inputs_val;
          criterion outputs_val targets_val)
       (take (steps_per_validation + 1) val).

(** [a == b] for [a : Optional[int]] and an integer [b]. *)
Definition is_step (a : option nat) (b : nat) : bool :=
  match a with Some a => a =? b | None => false end.

(** The body of the loop over the batches, after the [break] test. Checkpoints,
    the progress bar and printing leave these variables alone and are left out. *)
Definition train_step (s : TrainState) (train_batch_dict : batch) : option TrainState :=
  (* TRAINING LOSS *)
  let inputs := condition_normalized train_batch_dict in
  let targets := inputs_normalized train_batch_dict in
  outputs ← forward (model s) inputs;
  loss ← criterion outputs targets;
  (* SUMMARY, VALIDATION LOSS and SUMMARY *)
  '(train_losses_l, validation_losses_l) ←
    (if train_steps_current s mod steps_til_summary =? 0
     then
       let train_losses_l := train_losses_l s ++ [train_steps_current s] in
       match val_dataloader with
       | Some val =>
           val_losses ← validation (model s) val;
           Some (train_losses_l, validation_losses_l s ++ [(train_steps_current s, val_losses)])
       | None => Some (train_losses_l, validation_losses_l s)
       end
     else Some (train_losses_l s, validation_losses_l s));
  (* OPTIMIZE TRAIN LOSS BATCH *)
  let '(optimizers, model) := optimizer_step (optimizers s) (model s) inputs targets in
  let ema_model :=
    match ema_model s with
    | Some ema_model =>
        if train_steps_current s mod update_ema_every =? 0
        then Some (update_ema ema_model model (train_steps_current s))
        else Some ema_model
    | None => None
    end in
  (* SAVING *)
  let train_steps_current := (train_steps_current s + 1)%nat in
  Some (mkTrainState model ema_model optimizers train_steps_current train_losses_l
          validation_losses_l).

(** [for step, train_batch_dict in enumerate(train_dataloader)] from item [step] on,
    with its two [break]s. *)
Fixpoint batches_loop (step : nat) (items : list batch) (s : TrainState)
    : option TrainState :=
  match items with
  | [] => Some s
  | train_batch_dict :: items =>
      (* drop the last batch (incomplete size) *)
      if (Z.of_nat step =? Z.of_nat len_train_dataloader - 1)%Z then Some s
      else
        s ← train_step s train_batch_dict;
        if stop_training || is_step max_steps (train_steps_current s) then Some s
        else batches_loop (step + 1) items s
  end.

(** [for epoch in range(epochs)] from [epoch] on. *)
Fixpoint epochs_loop (todo : list nat) (s : TrainState) : option TrainState :=
  match todo with
  | [] => Some s
  | epoch :: todo =>
      s ← batches_loop 0 (train_dataloader epoch) s;
      if is_step max_steps (train_steps_current s) then Some s
      else epochs_loop todo s
  end.

(** The script from [TRAINING STARTED] to [TRAINING FINISHED], on the freshly built
    [model] and optimiser. *)
Definition training (model0 : module) (optimizers0 : vector) : option TrainState :=
  let ema_model0 := if use_ema then Some model0 (* copy.deepcopy(model) *) else None in
  let s := mkTrainState model0 ema_model0 optimizers0 0 [] [] in
  s ← epochs_loop (range epochs) s;
  (* Update ema model at the end of training *)
  let ema_model' :=
    match ema_model s with
    | Some ema_model => Some (update_ema ema_model (model s) (train_steps_current s))
    | None => None
    end in
  Some (mkTrainState (model s) ema_model' (optimizers s) (train_steps_current s)
          (train_losses_l s) (validation_losses_l s)).

End Training.

End Train.

(** ** The specification's formulas, written from its words *)
Module Spec.
Import Panda.

(** Sum of [f 0], ..., [f (n-1)]. *)
Definition sum_upto (n : nat) (f : nat → Qc) : Qc := foldr Qcplus 0%Qc (map f (seq 0 n)).

(** State [x_i] of a predicted-state array and control [u_i] of a control array. *)
Definition state (X : ndarray3) (i : nat) : vector :=
  [at3 X 0 i 0; at3 X 1 i 0; at3 X 2 i 0]%nat.
Definition control (U : ndarray3) (i : nat) : vector :=
  map (λ j, at3 U 0%nat i j) (seq 0 7).

(** Squared deviation from [TARGET_POS], weighted by the diagonal [w]. *)
Definition weighted_sq_dev (w x : vector) : Qc :=
  sum_upto 3 (λ j, nth j w 0 * (nth j x 0 - nth j TARGET_POS 0) ^ 2)%Qc.

(** Squared Euclidean norm. *)
Definition sq_norm (v : vector) : Qc := sum_upto (length v) (λ j, nth j v 0 ^ 2)%Qc.

(** The quadratic cost over a horizon [h]: stage terms on [x_0 .. x_(h-1)], terminal
    term on [x_h], control terms on the differences [u_(i+1) - u_i], [i = 0 .. h-2]. *)
Definition quadratic_cost (h : nat) (q : vector) (r : Qc) (p : vector) (X U : ndarray3) : Qc :=
  (sum_upto h (λ i, weighted_sq_dev q (state X i))
   + weighted_sq_dev p (state X h)
   + sum_upto (h - 1) (λ i, r * sq_norm (vsub (control U (i + 1)) (control U i))))%Qc.

(** The Cartesian velocity: the position Jacobian, restricted to its first seven
    columns, times the first seven joint velocities. *)
Definition jacobian_velocity (jacp : matrix) (qvel : vector) : vector :=
  map (λ row, sum_upto 7 (λ j, nth j row 0 * nth j qvel 0)%Qc) jacp.

(** What the script relies on about the model of [mjx_scene.xml]: at least seven
    joints and seven actuators, and a body 9 with a position in space. *)
Definition panda_shaped (d : MjData) : Prop :=
  (7 ≤ length (qpos d))%nat ∧ (7 ≤ length (qvel d))%nat ∧ (7 ≤ length (ctrl d))%nat
  ∧ ∃ x y z, xpos d !! 9%nat = Some [x; y; z].

Class MuJoCoShapes `{MuJoCo} : Prop := {
  new_shaped : panda_shaped MjData_new;
  step_shaped d : panda_shaped d → panda_shaped (mj_step d);
  jac_shaped d point body :
    length (mj_jac d point body).1 = 3%nat
    ∧ Forall (λ row, length row = length (qvel d)) (mj_jac d point body).1
}.

(** The sampler returns a non-empty chain whose last iterate has shape
    (1, HORIZON, 7). *)
Class DiffusionShapes `{Diffusion} : Prop := {
  chain_shaped call context :
    ∃ chain final,
      unnormalize_states (diffusion_sampling call context) = chain ++ [final]
      ∧ dim0 final = 1%nat ∧ dim1 final = HORIZON ∧ dim2 final = 7%nat
}.

Section ClosedLoop.
Context `{MuJoCo, Diffusion}.

(** The hand: body 9. *)
Definition hand (d : MjData) : option vector := xpos d !! 9%nat.

(** A freshly constructed simulation whose first seven joint positions are set to
    [q] and which is stepped once; then, [k] times, the next control input of [U] is
    written to [ctrl] and the simulation advanced by one step. *)
Fixpoint rollout (q : vector) (U : ndarray3) (k : nat) : option MjData :=
  match k with
  | O => d ← set_qpos MjData_new q; Some (mj_step d)
  | S k => d ← rollout q U k; u ← row0 U k; d ← set_ctrl d u; Some (mj_step d)
  end.

(** The final denoised trajectory sampled at the [call]-th sampling tick from the
    state of [d], and the first of its control inputs. *)
Definition final_trajectory (call : nat) (d : MjData) : option ndarray3 :=
  '(_, _, context) ← state_loading d;
  last (unnormalize_states (diffusion_sampling call context)).
Definition first_input (call : nat) (d : MjData) : option vector :=
  U ← final_trajectory call d; row0 U 0.

(** The cost logged at the [call]-th sampling tick. *)
Definition tick_cost (call : nat) (d : MjData) : option Qc :=
  '(q, x, _) ← state_loading d;
  U ← final_trajectory call d;
  X ← diffusion_horizon_states x U q;
  mpc_cost X U Qw Rw Pw.

(** Receding-horizon control under a [policy] that gives, at each sampling tick, the one
    control input to apply: the simulation after [n] iterations. Every iteration
    advances the physics by one step; the iterations divisible by [CONTROL_RATE] first
    write the policy's input to [ctrl]. *)
Fixpoint closed_loop (policy : nat → MjData → option vector) (n : nat) : option MjData :=
  match n with
  | O => d ← set_qpos MjData_new (replicate 7 0%Qc); Some (mj_step d)
  | S n =>
      d ← closed_loop policy n;
      d ← (if n mod CONTROL_RATE =? 0
           then u ← policy (n / CONTROL_RATE)%nat d; set_ctrl d u
           else Some d);
      Some (mj_step d)
  end.

End ClosedLoop.

(** A preallocated memory: [SAMPLING_STEPS] rows of [w] entries. *)
Definition mem_shaped (w : nat) (m : matrix) : Prop :=
  length m = SAMPLING_STEPS ∧ Forall (λ row, length row = w) m.

Section Invariant.
Context `{MuJoCo, Diffusion, Measured}.

(** What one sampling tick logs and does. *)
Record tick_facts (call : nat) (d : MjData) (x : vector) (cost : Qc) (u : vector) : Prop := {
  tick_shaped : panda_shaped d;
  tick_hand : hand d = Some x;
  tick_hand_length : length x = 3%nat;
  tick_cost_eq : tick_cost call d = Some cost;
  tick_input : first_input call d = Some u;
  tick_input_length : length u = 7%nat
}.

(** The invariant of the control loop before iteration [n]. *)
Record loop_inv (n : nat) (s : LoopState) : Prop := {
  inv_shaped : panda_shaped (data s);
  inv_x : mem_shaped 3 (x_pos_memory s);
  inv_q : mem_shaped 7 (q_pos_memory s);
  inv_ctl : mem_shaped 7 (ctl_memory s);
  inv_abs : mem_shaped 1 (abs_dis_memory s);
  inv_cost : mem_shaped 1 (cost_memory s);
  inv_time : mem_shaped 1 (single_time_set s);
  inv_step : sampling_step s = ((n + (CONTROL_RATE - 1)) / CONTROL_RATE)%nat;
  inv_closed : closed_loop first_input n = Some (data s);
  inv_log : ∀ j, (j < sampling_step s)%nat →
    ∃ d x cost u,
      closed_loop first_input (j * CONTROL_RATE) = Some d
      ∧ tick_facts j d x cost u
      ∧ x_pos_memory s !! j = Some x
      ∧ cost_memory s !! j = Some [cost]
      ∧ ctl_memory s !! j = Some u
      ∧ single_time_set s !! j = Some [single_t j]
}.

End Invariant.

End Spec.

(** ** A small concrete world, to run the definitions on *)
Module Toy.
Import Panda.

(** A point mass with nine joints, eleven bodies and eight actuators: the controls are
    added to the first velocities, the velocities to the positions, and every body sits
    at the first three joint coordinates. *)
Definition toy_new : MjData :=
  mkMjData (replicate 9 0%Qc) (replicate 9 0%Qc) (replicate 11 (replicate 3 0%Qc))
    (replicate 8 0%Qc) [0%Qc].

Definition toy_step (d : MjData) : MjData :=
  let v := imap (λ i x, (x + nth i (ctrl d) 0)%Qc) (qvel d) in
  let q := imap (λ i x, (x + nth i v 0)%Qc) (qpos d) in
  mkMjData q v (map (λ _, [nth 0 q 0%Qc; nth 1 q 0%Qc; nth 2 q 0%Qc]) (xpos d))
    (ctrl d) (map (λ t, (t + 1)%Qc) (rest d)).

Definition toy_jac (d : MjData) (point : vector) (body : nat) : matrix * matrix :=
  (replicate 3 (replicate (length (qvel d)) 1%Qc),
   replicate 3 (replicate (length (qvel d)) 0%Qc)).

#[export] Instance toy_mujoco : MuJoCo := Build_MuJoCo toy_new toy_step toy_jac.

(** A sampler whose every iterate asks for the control [k + call] at horizon step [k]
    on the first joint and [1/4] of the context's first entry on the others. *)
Definition toy_trajectory (call : nat) (context : vector) : ndarray3 :=
  Nd3 1 HORIZON 7
    (λ _ k j, if (j =? 0)%nat then Qc_of_Z (Z.of_nat (k + call))
              else (nth 0 context 0 * Q2Qc (1 # 4))%Qc).

#[export] Instance toy_diffusion : Diffusion :=
  Build_Diffusion (λ call context, [zeros3 1 HORIZON 7; toy_trajectory call context]) (λ chain, chain).

#[export] Instance toy_measured : Measured :=
  Build_Measured (λ v, sumsqr v) (λ _, 0%Qc) 1%Qc.

(** Predicted states [x_k = (k, k+1, k+2)] over the horizon, and over two steps with
    the controls [u_0 = 0], [u_1 = (0, 1, ..., 6)]. *)
Definition toy_states : ndarray3 :=
  Nd3 3 (HORIZON + 1) 1 (λ i k _, Qc_of_Z (Z.of_nat (i + k))).
Definition small_states : ndarray3 := Nd3 3 3 1 (λ i k _, Qc_of_Z (Z.of_nat (i + k))).
Definition small_controls : ndarray3 := Nd3 1 2 7 (λ _ k j, Qc_of_Z (Z.of_nat (k * j))).

(** A network of the shapes of [AMPCNet(4, 8)] with every parameter equal to [w], an
    activation that is a rational function, a loss that is the sum of squared errors on
    equal shapes, an optimiser that halves every parameter, and a loader of three
    batches of 512 rows. *)
Definition toy_net (w : Qc) : list Train.tensor :=
  map (λ sh, Train.Tensor sh (replicate (Train.product sh) w))
      (Train.AMPCNet_shapes Train.input_size Train.output_size).

Definition toy_criterion (outputs targets : Train.tensor) : option Qc :=
  if decide (Train.shape outputs = Train.shape targets)
  then Some (sumsqr (vsub (Train.flat outputs) (Train.flat targets)))
  else None.

#[export] Instance toy_torch : Train.Torch :=
  Train.Build_Torch (λ x, x / (1 + x * x))%Qc toy_criterion
    (λ o m _ _, (map (λ t, t + 1)%Qc o,
                 map (λ p, Train.Tensor (Train.shape p)
                             (map (λ w, w * Q2Qc (1 # 2))%Qc (Train.flat p))) m)).

Definition toy_batch (k : Qc) : Train.batch :=
  Train.mkBatch (Train.Tensor [512; 4]%nat (replicate 2048 k))
                (Train.Tensor [512; 8; 1]%nat (replicate 4096 0%Qc)).

#[export] Instance toy_loaders : Train.Loaders :=
  Train.Build_Loaders (λ epoch, [toy_batch 0; toy_batch 1; toy_batch (Qc_of_Z 2)]) 3 None.

Definition toy_train_state : Train.TrainState :=
  Train.mkTrainState (toy_net 0) (Some (toy_net 1)) [0%Qc] 0 [] [].

End Toy.

(** ** Further definitions: invariants and the functions beside the two loops *)
Module SpecMore.
Import Panda Spec.

Section Logs.
Context `{MuJoCo, Diffusion, Measured}.

(** What the rows of the memories hold before iteration [n]: the rows of the ticks
    taken hold the joint positions and the distance to the target of the state the
    tick saw, the rows of the ticks to come are as [np.zeros] made them. *)
Definition rows_logged (s : LoopState) : Prop :=
  (∀ j, (j < sampling_step s)%nat →
     ∃ d x, closed_loop first_input (j * CONTROL_RATE) = Some d
       ∧ hand d = Some x
       ∧ q_pos_memory s !! j = Some (take 7 (qpos d))
       ∧ abs_dis_memory s !! j = Some [np_linalg_norm (vsub x TARGET_POS)])
  ∧ (∀ j, (sampling_step s ≤ j)%nat → (j < SAMPLING_STEPS)%nat →
       x_pos_memory s !! j = Some (replicate 3 0%Qc)
       ∧ q_pos_memory s !! j = Some (replicate 7 0%Qc)
       ∧ ctl_memory s !! j = Some (replicate 7 0%Qc)
       ∧ abs_dis_memory s !! j = Some [0%Qc]
       ∧ cost_memory s !! j = Some [0%Qc]
       ∧ single_time_set s !! j = Some [0%Qc]).

End Logs.

End SpecMore.

(** ** The inference script: functions beside [main]'s loop *)
Module PandaMore.
Import Panda.

Section Helpers.
Context `{MuJoCo}.

(** generating initial state (20*1): the simulation after the call, and the results *)
Definition generating_ini_state (data : MjData) (ini_joint_states : vector)
    : option (MjData * (vector * vector * vector)) :=
  data ← set_qpos data ini_joint_states;
  let data := mj_step data in
  let q_ini := qpos data in
  let q_dot_ini := qvel data in
  x_ini ← xpos data !! 9%nat;
  (* compute 'hand' x_dot *)
  let '(jacp, _) := compute_jacobian data TARGET_POS in
  let jacp := map (take 7) jacp in
  x_dot_ini ← mtimes jacp (take 7 q_dot_ini);
  (* full initial state 20*1 *)
  let x0 := replicate 20 0%Qc in
  x0 ← set_slice x0 0 7 (take 7 q_ini);
  x0 ← set_slice x0 7 14 (take 7 q_dot_ini);
  x0 ← set_slice x0 14 17 x_ini;
  x0 ← set_slice x0 17 20 x_dot_ini;
  let q0_pos := take 7 q_ini in
  let x0_pos := x_ini in
  Some (data, (q0_pos, x0_pos, x0)).

(** state updating *)
Definition state_updating (data : MjData) : option (vector * vector * vector) :=
  let q_current := qpos data in
  let q_dot_current := qvel data in
  x_current ← xpos data !! 9%nat;
  (* compute 'hand' x_dot *)
  let '(jacp, _) := compute_jacobian data TARGET_POS in
  let jacp := map (take 7) jacp in
  x_dot_current ← mtimes jacp (take 7 q_dot_current);
  (* full initial state 20*1 *)
  let x_next := replicate 20 0%Qc in
  x_next ← set_slice x_next 0 7 (take 7 q_current);
  x_next ← set_slice x_next 7 14 (take 7 q_dot_current);
  x_next ← set_slice x_next 14 17 x_current;
  x_next ← set_slice x_next 17 20 x_dot_current;
  let q_current_pos := take 7 q_current in
  let x_current_pos := x_current in
  Some (q_current_pos, x_current_pos, x_next).

End Helpers.

(** The file [loading_model] passes to [torch.load]. *)
Definition loading_model_file (use_ema : bool) (model_dir : string) : string :=
  os_path_join (os_path_join model_dir "checkpoints")
    (if use_ema then "ema_model_current_state_dict.pth" else "model_current_state_dict.pth").

End PandaMore.

(** ** The training script: validation loop, checkpoints, and what it needs of torch *)
Module TrainMore.
Import Train.

Section Validation.
Context `{Torch}.

(** [for step_val, batch_dict_val in enumerate(val_dataloader)] from item [step_val]
    on, with its [break]; [val_losses] is the list under the one key ['NN Loss']. *)
Fixpoint validation_loop (model : module) (step_val : nat) (items : list batch)
    (val_losses : list Qc) : option (list Qc) :=
  match items with
  | [] => Some val_losses
  | batch_dict_val :: items =>
      let inputs_val := condition_normalized batch_dict_val in
      let targets_val := inputs_normalized batch_dict_val in
      outputs_val ← forward model inputs_val;
      loss_val ← criterion outputs_val targets_val;
      let val_losses := val_losses ++ [loss_val] in
      if step_val =? steps_per_validation then Some val_losses
      else validation_loop model (step_val + 1) items val_losses
  end.

End Validation.

(** *** Checkpoints *)

(** What [torch.save] is given: a state dict, or the module itself. *)
Inductive saved :=
  | StateDict (parameters : module)
  | Pickled (model : module).

(** [f'{n:0{width}d}'] for a natural number [n] *)
Definition format_0d (width n : nat) : string :=
  let s := pretty n in
  String.concat "" (replicate (width - String.length s) "0") +:+ s.

(** The files written, in order; [is_frozen] is the attribute of that name, if the
    model has one. *)
Definition save_model_to_disk (model : module) (is_frozen : option bool)
    (epoch total_steps : nat) (checkpoints_dir prefix : string) : list (string * saved) :=
  (* If the model is frozen we do not save it again, since the parameters did not change *)
  if default false is_frozen then []
  else
    [ (Panda.os_path_join checkpoints_dir (prefix +:+ "current_state_dict.pth"),
       StateDict model);
      (Panda.os_path_join checkpoints_dir
         (prefix +:+ "epoch_" +:+ format_0d 4 epoch +:+ "_iter_" +:+ format_0d 6 total_steps
          +:+ "_state_dict.pth"),
       StateDict model);
      (Panda.os_path_join checkpoints_dir (prefix +:+ "current.pth"), Pickled model);
      (Panda.os_path_join checkpoints_dir
         (prefix +:+ "epoch_" +:+ format_0d 4 epoch +:+ "_iter_" +:+ format_0d 6 total_steps
          +:+ ".pth"),
       Pickled model) ].

Definition save_nn_models_to_disk
    (models_prefix_l : list (option (module * option bool) * string))
    (epoch total_steps : nat) (checkpoints_dir : string) : list (string * saved) :=
  flat_map (λ '(model, prefix),
              match model with
              | Some (model, is_frozen) =>
                  save_model_to_disk model is_frozen epoch total_steps checkpoints_dir
                    (prefix +:+ "_")
              | None => []
              end)
           models_prefix_l.

(** The call of the script: [save_nn_models_to_disk([(model, 'model'),
    (ema_model, 'ema_model')], epoch, train_steps_current, checkpoints_dir)] on two
    networks, which have no attribute [is_frozen]. *)
Definition save_both (model : module) (ema_model : option module)
    (epoch train_steps_current : nat) (checkpoints_dir : string) : list (string * saved) :=
  save_nn_models_to_disk
    [(Some (model, None), "model"); ((λ e, (e, None)) <$> ema_model, "ema_model")]
    epoch train_steps_current checkpoints_dir.

(** *** What the loop needs of torch and of the loaders *)

(** A batch of 512 rows: conditions (512, 4) and targets (512, 8, 1). *)
Definition full_batch (b : batch) : Prop :=
  shape (condition_normalized b) = [512; input_size]%nat
  ∧ shape (inputs_normalized b) = [512; 8; 1]%nat.

(** The loss is defined on tensors of one shape, and an optimiser step keeps the
    shapes of the parameters. *)
Class TorchShapes `{Torch} : Prop := {
  criterion_defined outputs targets :
    shape outputs = shape targets → is_Some (criterion outputs targets);
  optimizer_shaped o m x y :
    is_AMPCNet input_size output_size m →
    is_AMPCNet input_size output_size (optimizer_step o m x y).2
}.

(** Every pass over the training loader has [len(train_dataloader)] batches, all of
    them full except possibly the last; the validation batches that are read are
    full. *)
Class LoadersShapes `{Loaders} : Prop := {
  train_length epoch : length (train_dataloader epoch) = len_train_dataloader;
  train_full epoch :
    Forall full_batch (take (len_train_dataloader - 1) (train_dataloader epoch));
  val_full val :
    val_dataloader = Some val → Forall full_batch (take (steps_per_validation + 1) val)
}.

(** [train_steps_current] after a pass that starts at [k] and has [n] batches to train
    on, under [max_steps]. *)
Definition pass_steps (max_steps : option nat) (k n : nat) : nat :=
  match max_steps with
  | Some m => if (k <? m) && (m <=? k + n) then m else (k + n)%nat
  | None => (k + n)%nat
  end.

End TrainMore.

(** * Proofs *)

(** ** Loops *)
Section loops.
Context {A St : Type}.
Implicit Types (body : St → A → option St) (s : St) (l : list A).

Lemma for_each_app body s l1 l2 :
  for_each body s (l1 ++ l2) = for_each body s l1 ≫= λ s', for_each body s' l2.
Proof.
  revert s. induction l1 as [|x l1 IH]; intros s; simpl; [done|].
  destruct (body s x) as [s'|]; simpl; [apply IH|done].
Qed.

Lemma for_each_snoc body s l x :
  for_each body s (l ++ [x]) = for_each body s l ≫= λ s', body s' x.
Proof.
  rewrite for_each_app. destruct (for_each body s l) as [s'|]; simpl; [|done].
  by destruct (body s' x).
Qed.

(** A property kept by every iteration that returns holds when the loop returns. *)
Lemma for_each_preserves (P : St → Prop) body s l s' :
  (∀ s x s', body s x = Some s' → P s → P s') →
  P s → for_each body s l = Some s' → P s'.
Proof.
  intros Hbody. revert s. induction l as [|x l IH]; intros s Hs; simpl.
  - by intros [= <-].
  - destruct (body s x) as [s1|] eqn:E; simpl; [|done]. eauto.
Qed.

End loops.

Lemma range_S n : range (S n) = range n ++ [n].
Proof. unfold range. by rewrite seq_S. Qed.

(** The loop rule for [for i in range(n)]: an invariant [I i] that every iteration
    [i < n] carries to [I (i+1)] without raising gives a loop that returns, in a state
    satisfying [I n]. *)
Lemma for_range_invariant {St : Type} (I : nat → St → Prop) (body : St → nat → option St) s n :
  I 0%nat s →
  (∀ i s, (i < n)%nat → I i s → ∃ s', body s i = Some s' ∧ I (i + 1)%nat s') →
  ∃ s', for_each body s (range n) = Some s' ∧ I n s'.
Proof.
  intros H0 Hstep. induction n as [|n IH].
  - exists s. by split.
  - destruct IH as (s1 & E1 & I1); [intros i s0 Hi; apply Hstep; lia|].
    destruct (Hstep n s1) as (s2 & E2 & I2); [lia|done|].
    exists s2. rewrite range_S, for_each_snoc, E1. simpl.
    split; [done|]. by replace (S n) with (n + 1)%nat by lia.
Qed.

(** ** The cost *)
Module CostProofs.
Import Panda Spec.
Local Open Scope Qc_scope.

Lemma sum_upto_S n f : sum_upto (S n) f = sum_upto n f + f n.
Proof.
  unfold sum_upto. rewrite seq_S, map_app, foldr_app. simpl.
  generalize (seq 0 n). intros l. induction l as [|x l IH]; simpl.
  - ring.
  - rewrite IH. ring.
Qed.

Lemma sum_upto_add1 n f : sum_upto (n + 1) f = sum_upto n f + f n.
Proof. rewrite Nat.add_1_r. apply sum_upto_S. Qed.

Lemma sum_upto_0 f : sum_upto 0 f = 0.
Proof. done. Qed.

Lemma sum_upto_shift n f : sum_upto (S n) f = f 0%nat + sum_upto n (λ i, f (S i)).
Proof.
  induction n as [|n IH].
  - rewrite sum_upto_S, !sum_upto_0. ring.
  - rewrite sum_upto_S, IH, sum_upto_S. ring.
Qed.

Lemma Qc_sq (x : Qc) : x ^ 2 = x * x.
Proof. simpl. ring. Qed.

Lemma sumsqr_sq_norm v : sumsqr v = sq_norm v.
Proof.
  unfold sq_norm. induction v as [|x v IH]; [done|].
  simpl length. rewrite sum_upto_shift. cbn [nth sumsqr foldr]. fold (sumsqr v).
  rewrite IH, Qc_sq. done.
Qed.

Lemma column_state X k :
  dim0 X = 3%nat → dim2 X = 1%nat → (k < dim1 X)%nat → column X k = Some (state X k).
Proof.
  intros H0 H2 Hk. unfold column. rewrite H0, H2.
  apply Nat.ltb_lt in Hk. rewrite Hk. done.
Qed.

Lemma column_control U i :
  dim0 U = 1%nat → dim2 U = 7%nat → (i < dim1 U)%nat →
  column (transpose210 U) i = Some (control U i).
Proof.
  intros H0 H2 Hi. unfold column, transpose210. simpl. rewrite H0, H2.
  apply Nat.ltb_lt in Hi. rewrite Hi. done.
Qed.

Lemma weighted_dev_diag q0 q1 q2 x0 x1 x2 :
  weighted_dev (diag [q0; q1; q2]) [x0; x1; x2]
  = Some (weighted_sq_dev [q0; q1; q2] [x0; x1; x2]).
Proof.
  unfold weighted_dev, weighted_sq_dev, sum_upto. simpl. f_equal. ring.
Qed.

Lemma weighted_dev_state q0 q1 q2 X k :
  weighted_dev (diag [q0; q1; q2]) (state X k)
  = Some (weighted_sq_dev [q0; q1; q2] (state X k)).
Proof. apply weighted_dev_diag. Qed.

Lemma mpc_cost_diag h q0 q1 q2 p0 p1 p2 r X U :
  (1 ≤ h)%nat →
  dim0 X = 3%nat → dim1 X = (h + 1)%nat → dim2 X = 1%nat →
  dim0 U = 1%nat → dim1 U = h → dim2 U = 7%nat →
  mpc_cost X U (diag [q0; q1; q2]) r (diag [p0; p1; p2])
  = Some (quadratic_cost h [q0; q1; q2] r [p0; p1; p2] X U).
Proof.
  intros Hh X0 X1 X2 U0 U1 U2. unfold mpc_cost.
  rewrite (column_state X) by lia. cbn [mbind option_bind].
  rewrite weighted_dev_state. cbn [mbind option_bind].
  set (body := λ (cost : Qc) (i : nat), _).
  destruct (for_range_invariant
    (λ i c, c = sum_upto (i + 1) (λ k, weighted_sq_dev [q0; q1; q2] (state X k))
              + sum_upto i (λ k, r * sq_norm (vsub (control U (k + 1)) (control U k))))
    body (weighted_sq_dev [q0; q1; q2] (state X 0)) (dim1 (transpose210 U) - 1)) as (c & Ec & Ic).
  - rewrite sum_upto_add1, !sum_upto_0. ring.
  - intros i c Hi ->. cbn [transpose210 dim1] in Hi. unfold body.
    eexists; split.
    { rewrite (column_state X) by lia. cbn [mbind option_bind].
      rewrite !column_control by lia. cbn [mbind option_bind].
      rewrite weighted_dev_state. done. }
    rewrite !sum_upto_add1, sumsqr_sq_norm. ring.
  - rewrite Ec. cbn [mbind option_bind].
    unfold last_column. rewrite (column_state X) by lia. cbn [mbind option_bind].
    rewrite weighted_dev_state. cbn [mbind option_bind].
    f_equal. rewrite Ic. unfold quadratic_cost. cbn [transpose210 dim1]. rewrite U1, X1.
    replace (h - 1 + 1)%nat with h by lia. replace (h + 1 - 1)%nat with h by lia.
    ring.
Qed.

(** Order facts on [Qc], through [Q]. *)
Lemma Qc_mul_nonneg (x y : Qc) : 0 ≤ x → 0 ≤ y → 0 ≤ x * y.
Proof.
  unfold Qcle. cbn [this Qcmult Q2Qc]. change (Qred 0) with 0%Q.
  intros Hx Hy. rewrite Qred_correct. by apply Qmult_le_0_compat.
Qed.

Lemma Qc_square_nonneg (x : Qc) : 0 ≤ x ^ 2.
Proof.
  rewrite Qc_sq. unfold Qcle. cbn [this Qcmult Q2Qc]. change (Qred 0) with 0%Q.
  rewrite Qred_correct. generalize (this x). intros q. nra.
Qed.

Lemma sumsqr_nonneg v : 0 ≤ sumsqr v.
Proof.
  induction v as [|x v IH]; simpl; [done|].
  apply Qcplus_nonneg_nonneg; [|done]. rewrite <-Qc_sq. apply Qc_square_nonneg.
Qed.

Lemma ten_nonneg : 0 ≤ Qc_of_Z 10.
Proof. done. Qed.

Lemma Rw_nonneg : 0 ≤ Rw.
Proof. done. Qed.

Lemma weighted_dev_nonneg x c : weighted_dev Qw x = Some c → 0 ≤ c.
Proof.
  unfold weighted_dev.
  change (item2 Qw 0 0) with (Some (Qc_of_Z 10)).
  change (item2 Qw 1 1) with (Some (Qc_of_Z 10)).
  change (item2 Qw 2 2) with (Some (Qc_of_Z 10)).
  destruct (x !! 0%nat) as [x0|]; [|done].
  destruct (x !! 1%nat) as [x1|]; [|done].
  destruct (x !! 2%nat) as [x2|]; [|done].
  cbn [mbind option_bind TARGET_POS lookup list_lookup]. intros [= <-].
  repeat apply Qcplus_nonneg_nonneg;
    apply Qc_mul_nonneg; first [apply ten_nonneg | exact (Qc_square_nonneg _)].
Qed.

Lemma mpc_cost_nonneg_general X U c : mpc_cost X U Qw Rw Pw = Some c → 0 ≤ c.
Proof.
  unfold mpc_cost. intros Hc.
  destruct (column X 0) as [x_0|]; [|done]. cbn [mbind option_bind] in Hc.
  destruct (weighted_dev Qw x_0) as [c0|] eqn:E0; [|done]. cbn [mbind option_bind] in Hc.
  match type of Hc with context [for_each ?b ?s ?l] =>
    destruct (for_each b s l) as [c1|] eqn:E1; [|done] end.
  cbn [mbind option_bind] in Hc.
  destruct (last_column X) as [x_end|]; [|done]. cbn [mbind option_bind] in Hc.
  destruct (weighted_dev Pw x_end) as [c2|] eqn:E2; [|done]. cbn [mbind option_bind] in Hc.
  injection Hc as <-.
  apply Qcplus_nonneg_nonneg; [|by apply (weighted_dev_nonneg x_end)].
  eapply (for_each_preserves (λ c, 0 ≤ c)); [|by apply (weighted_dev_nonneg x_0)|exact E1].
  intros cost i cost' Hb Hcost. cbn beta in Hb.
  destruct (column X (i + 1)) as [x_i|]; [|done]. cbn [mbind option_bind] in Hb.
  destruct (column (transpose210 U) i) as [u_i_1|]; [|done]. cbn [mbind option_bind] in Hb.
  destruct (column (transpose210 U) (i + 1)) as [u_i|]; [|done]. cbn [mbind option_bind] in Hb.
  destruct (weighted_dev Qw x_i) as [st|] eqn:Est; [|done]. cbn [mbind option_bind] in Hb.
  injection Hb as <-.
  apply Qcplus_nonneg_nonneg; [done|].
  apply Qcplus_nonneg_nonneg; [by apply (weighted_dev_nonneg x_i)|].
  apply Qc_mul_nonneg; [apply Rw_nonneg|apply sumsqr_nonneg].
Qed.

(** C1. On a predicted-state array of shape (3, HORIZON+1, 1) and a control array of
    shape (1, HORIZON, 7), [mpc_cost] returns the quadratic cost: the [Q]-weighted
    squared deviations of [x_0 .. x_(HORIZON-1)] from [TARGET_POS], the [P]-weighted
    squared deviation of [x_HORIZON], and [R] times the squared norm of every difference
    [u_(i+1) - u_i], [i = 0 .. HORIZON-2]. *)
Theorem mpc_cost_quadratic (X U : ndarray3) (q0 q1 q2 r p0 p1 p2 : Qc) :
  dim0 X = 3%nat → dim1 X = (HORIZON + 1)%nat → dim2 X = 1%nat →
  dim0 U = 1%nat → dim1 U = HORIZON → dim2 U = 7%nat →
  mpc_cost X U (diag [q0; q1; q2]) r (diag [p0; p1; p2])
  = Some (quadratic_cost HORIZON [q0; q1; q2] r [p0; p1; p2] X U).
Proof. apply mpc_cost_diag. unfold HORIZON. lia. Qed.

Lemma mpc_cost_quadratic_witness :
  mpc_cost Toy.toy_states (Toy.toy_trajectory 0 []) Qw Rw Pw
  = Some (quadratic_cost HORIZON [Qc_of_Z 10; Qc_of_Z 10; Qc_of_Z 10] Rw
            [Qc_of_Z 10; Qc_of_Z 10; Qc_of_Z 10] Toy.toy_states (Toy.toy_trajectory 0 [])).
Proof.
  apply (mpc_cost_quadratic Toy.toy_states (Toy.toy_trajectory 0 [])); reflexivity.
Defined.

(** C10. With the configured weights [Q = diag(10,10,10)], [R = 1/2] and
    [P = diag(10,10,10)], the value [mpc_cost] returns is nonnegative, whatever the
    two arrays are. *)
Theorem mpc_cost_nonneg (X U : ndarray3) (c : Qc) :
  mpc_cost X U Qw Rw Pw = Some c → 0 ≤ c.
Proof. apply mpc_cost_nonneg_general. Qed.

Lemma mpc_cost_nonneg_witness :
  mpc_cost Toy.small_states Toy.small_controls Qw Rw Pw = Some (Q2Qc (1972 # 5))
  ∧ 0 ≤ Q2Qc (1972 # 5).
Proof.
  assert (mpc_cost Toy.small_states Toy.small_controls Qw Rw Pw = Some (Q2Qc (1972 # 5))) as E.
  { vm_compute. f_equal. apply Qc_is_canon. reflexivity. }
  split; [exact E|].
  exact (mpc_cost_nonneg Toy.small_states Toy.small_controls (Q2Qc (1972 # 5)) E).
Defined.

End CostProofs.

(** ** Slices and products *)
Module ArrayFacts.
Import Spec.

Lemma set_slice_middle (a b c src : vector) :
  length src = length b →
  set_slice (a ++ b ++ c) (length a) (length a + length b) src = Some (a ++ src ++ c).
Proof.
  intros Hsrc. unfold set_slice. cbv zeta.
  replace ((length a + length b) `min` length (a ++ b ++ c) - length a)%nat with (length b)
    by (rewrite !length_app; lia).
  apply Nat.eqb_eq in Hsrc. rewrite Hsrc.
  rewrite take_app_length, drop_app_add, drop_app_length. done.
Qed.

Lemma set_slice_at (a b c src : vector) lo hi :
  lo = length a → hi = (lo + length b)%nat → length src = length b →
  set_slice (a ++ b ++ c) lo hi src = Some (a ++ src ++ c).
Proof. intros -> ->. apply set_slice_middle. Qed.

Lemma set_slice_prefix (b c src : vector) :
  length src = length b →
  set_slice (b ++ c) 0 (length b) src = Some (src ++ c).
Proof. intros. by apply (set_slice_middle [] b c src). Qed.

Lemma mtimes_rows (m : matrix) (v : vector) :
  Forall (λ row, length row = length v) m →
  mtimes m v = Some (map (λ row, dot row v) m).
Proof.
  intros Hm. unfold mtimes. apply mapM_Some. induction Hm as [|row m Hrow Hm IH]; simpl.
  - constructor.
  - constructor; [|done]. apply Nat.eqb_eq in Hrow. by rewrite Hrow.
Qed.

Lemma dot_sum7 (a b : vector) :
  (7 ≤ length a)%nat → (7 ≤ length b)%nat →
  dot (take 7 a) (take 7 b) = sum_upto 7 (λ j, nth j a 0 * nth j b 0)%Qc.
Proof.
  intros Ha Hb.
  do 7 (destruct a as [|? a]; [simpl in Ha; lia|]).
  do 7 (destruct b as [|? b]; [simpl in Hb; lia|]).
  reflexivity.
Qed.

End ArrayFacts.

(** ** The conditioning context *)
Module ContextProofs.
Import Panda Spec ArrayFacts.

Section state.
Context `{MuJoCo}.

Lemma state_loading_shaped d x y z jacp jacr :
  (7 ≤ length (qpos d))%nat → (7 ≤ length (qvel d))%nat →
  xpos d !! 9%nat = Some [x; y; z] →
  mj_jac d TARGET_POS 9 = (jacp, jacr) →
  Forall (λ row, length row = length (qvel d)) jacp →
  length jacp = 3%nat →
  state_loading d
  = Some (take 7 (qpos d), [x; y; z],
          take 7 (qpos d) ++ take 7 (qvel d) ++ [x; y; z]
          ++ map (λ row, dot (take 7 row) (take 7 (qvel d))) jacp).
Proof.
  intros Hq Hv Hx Hjac Hrows Hlen. unfold state_loading, compute_jacobian.
  rewrite Hx, Hjac. cbn [mbind option_bind].
  rewrite mtimes_rows.
  2:{ apply Forall_map. eapply Forall_impl; [exact Hrows|]. intros row Hrow. simpl.
      rewrite !length_take, Hrow. done. }
  cbn [mbind option_bind]. rewrite map_map.
  set (xdot := map _ jacp).
  assert (length xdot = 3%nat) as Hxdot by (unfold xdot; by rewrite length_map).
  change (replicate 20 0%Qc) with (replicate 7 0%Qc ++ replicate 13 0%Qc).
  rewrite (set_slice_prefix (replicate 7 0%Qc)) by (rewrite length_take, length_replicate; lia).
  cbn [mbind option_bind].
  change (replicate 13 0%Qc) with (replicate 7 0%Qc ++ replicate 6 0%Qc).
  assert (length (take 7 (qpos d)) = 7%nat) as Hq7 by (rewrite length_take; lia).
  assert (length (take 7 (qvel d)) = 7%nat) as Hv7 by (rewrite length_take; lia).
  rewrite (set_slice_at (take 7 (qpos d)) (replicate 7 0%Qc)) by (rewrite ?length_replicate; lia).
  cbn [mbind option_bind].
  change (replicate 6 0%Qc) with (replicate 3 0%Qc ++ replicate 3 0%Qc ++ []).
  rewrite (app_assoc (take 7 (qpos d))).
  rewrite (set_slice_at (take 7 (qpos d) ++ take 7 (qvel d)) (replicate 3 0%Qc))
    by (rewrite ?length_app, ?length_replicate; simpl; lia).
  cbn [mbind option_bind].
  rewrite (app_assoc _ [x; y; z]).
  rewrite (set_slice_at ((take 7 (qpos d) ++ take 7 (qvel d)) ++ [x; y; z]) (replicate 3 0%Qc))
    by (rewrite ?length_app, ?length_replicate; simpl; lia).
  cbn [mbind option_bind]. rewrite app_nil_r, <-!app_assoc. done.
Qed.


(** C4. The context built by [state_loading] is the row of twenty entries made, in
    order, of the first seven joint positions, the first seven joint velocities, the
    position of body 9 and the Cartesian velocity (position Jacobian restricted to its
    first seven columns, times the first seven joint velocities); the seven joint
    positions and the body position are returned beside it. *)
Theorem state_loading_context (d : MjData) (x y z : Qc) (jacp jacr : matrix) :
  (7 ≤ length (qpos d))%nat → (7 ≤ length (qvel d))%nat →
  xpos d !! 9%nat = Some [x; y; z] →
  mj_jac d TARGET_POS 9 = (jacp, jacr) →
  length jacp = 3%nat →
  Forall (λ row, length row = length (qvel d)) jacp →
  let context := take 7 (qpos d) ++ take 7 (qvel d) ++ [x; y; z]
                 ++ jacobian_velocity jacp (qvel d) in
  state_loading d = Some (take 7 (qpos d), [x; y; z], context)
  ∧ length context = 20%nat
  ∧ length (take 7 (qpos d)) = 7%nat
  ∧ length (jacobian_velocity jacp (qvel d)) = 3%nat.
Proof.
  intros Hq Hv Hx Hjac Hlen Hrows context.
  assert (jacobian_velocity jacp (qvel d)
          = map (λ row, dot (take 7 row) (take 7 (qvel d))) jacp) as Hvel.
  { unfold jacobian_velocity. apply map_ext_Forall.
    eapply Forall_impl; [exact Hrows|]. intros row Hrow. cbv beta in *.
    symmetry. apply dot_sum7; lia. }
  split; [|split; [|split]].
  - unfold context. rewrite Hvel. by apply (state_loading_shaped d x y z jacp jacr).
  - unfold context, jacobian_velocity.
    rewrite !length_app, !length_take, length_map, Hlen. cbn [length]. lia.
  - rewrite length_take. lia.
  - unfold jacobian_velocity. by rewrite length_map.
Qed.

End state.

Lemma state_loading_context_witness :
  let d := Toy.toy_new in
  let context := take 7 (qpos d) ++ take 7 (qvel d) ++ [0; 0; 0]%Qc
                 ++ jacobian_velocity (Toy.toy_jac d TARGET_POS 9).1 (qvel d) in
  state_loading (H := Toy.toy_mujoco) d = Some (take 7 (qpos d), [0; 0; 0]%Qc, context)
  ∧ length context = 20%nat
  ∧ length (take 7 (qpos d)) = 7%nat
  ∧ length (jacobian_velocity (Toy.toy_jac d TARGET_POS 9).1 (qvel d)) = 3%nat.
Proof.
  apply (state_loading_context (H := Toy.toy_mujoco) Toy.toy_new 0%Qc 0%Qc 0%Qc
           (Toy.toy_jac Toy.toy_new TARGET_POS 9).1 (Toy.toy_jac Toy.toy_new TARGET_POS 9).2).
  - simpl. lia.
  - simpl. lia.
  - reflexivity.
  - reflexivity.
  - reflexivity.
  - repeat constructor.
Defined.

End ContextProofs.

(** ** The forward-simulated rollout *)
Module RolloutProofs.
Import Panda Spec ArrayFacts.

Lemma set_slice_head (dst src : vector) :
  (7 ≤ length dst)%nat → length src = 7%nat →
  set_slice dst 0 7 src = Some (src ++ drop 7 dst).
Proof.
  intros Hdst Hsrc. unfold set_slice. cbv zeta.
  replace (7 `min` length dst - 0)%nat with 7%nat by lia.
  rewrite Hsrc. done.
Qed.

Lemma reshape_same n (v : vector) : length v = n → reshape n v = Some v.
Proof. intros <-. unfold reshape. by rewrite Nat.eqb_refl. Qed.

Lemma set_column_3 A k (a b c : Qc) :
  dim0 A = 3%nat → (k < dim1 A)%nat → dim2 A = 1%nat →
  ∃ A', set_column A k [a; b; c] = Some A'
    ∧ dim0 A' = 3%nat ∧ dim1 A' = dim1 A ∧ dim2 A' = 1%nat
    ∧ column A' k = Some [a; b; c]
    ∧ ∀ j, j ≠ k → column A' j = column A j.
Proof.
  intros H0 Hk H2. unfold set_column. rewrite H0, H2. cbn [length].
  apply Nat.ltb_lt in Hk as Hk'. rewrite Hk'. cbn [andb orb Nat.ltb Nat.leb Nat.eqb].
  eexists. split; [done|]. cbn [dim0 dim1 dim2].
  repeat split; [done..| |].
  - unfold column. cbn [dim0 dim1 dim2 at3]. rewrite Hk'.
    cbn [andb Nat.ltb Nat.leb seq map]. by rewrite !Nat.eqb_refl.
  - intros j Hj. unfold column. cbn [dim0 dim1 dim2 at3]. rewrite H0, H2.
    destruct (j <? dim1 A); cbn [andb Nat.ltb Nat.leb seq map]; [|done].
    apply Nat.eqb_neq in Hj. by rewrite Hj.
Qed.

Lemma row0_control U k :
  dim0 U = 1%nat → dim2 U = 7%nat → (k < dim1 U)%nat →
  row0 U k = Some (control U k) ∧ length (control U k) = 7%nat.
Proof.
  intros H0 H2 Hk. unfold row0, control. rewrite H0, H2.
  apply Nat.ltb_lt in Hk. rewrite Hk. done.
Qed.

Lemma set_qpos_shaped d q :
  panda_shaped d → length q = 7%nat →
  ∃ d', set_qpos d q = Some d' ∧ panda_shaped d'
        ∧ d' = mkMjData (q ++ drop 7 (qpos d)) (qvel d) (xpos d) (ctrl d) (rest d).
Proof.
  intros (Hq & Hv & Hu & Hx) Hlen. unfold set_qpos.
  rewrite set_slice_head by done. cbn [mbind option_bind].
  eexists. split; [done|]. split; [|done].
  repeat split; cbn [qpos qvel ctrl xpos]; [|done..].
  rewrite length_app. lia.
Qed.

Lemma set_ctrl_shaped d u :
  panda_shaped d → length u = 7%nat →
  ∃ d', set_ctrl d u = Some d' ∧ panda_shaped d'
        ∧ d' = mkMjData (qpos d) (qvel d) (xpos d) (u ++ drop 7 (ctrl d)) (rest d).
Proof.
  intros (Hq & Hv & Hu & Hx) Hlen. unfold set_ctrl.
  rewrite set_slice_head by done. cbn [mbind option_bind].
  eexists. split; [done|]. split; [|done].
  repeat split; cbn [qpos qvel ctrl xpos]; [done..| |done].
  rewrite length_app. lia.
Qed.

(** The toy world has the shapes of the Panda model. *)
Lemma toy_shapes : MuJoCoShapes (H := Toy.toy_mujoco).
Proof.
  split.
  - repeat split; cbn; [lia..|]. by exists 0%Qc, 0%Qc, 0%Qc.
  - intros d (Hq & Hv & Hu & (x & y & z & Hx)). cbn [mj_step Toy.toy_mujoco].
    unfold Toy.toy_step. repeat split; cbn [qpos qvel ctrl xpos].
    + by rewrite length_imap.
    + by rewrite length_imap.
    + done.
    + do 3 eexists. rewrite list_lookup_fmap, Hx. done.
  - intros d point body. cbn. split; [done|]. repeat constructor; by rewrite length_replicate.
Qed.

Lemma toy_diffusion_shapes : DiffusionShapes (H := Toy.toy_diffusion).
Proof.
  split. intros call context.
  exists [zeros3 1 HORIZON 7], (Toy.toy_trajectory call context). done.
Qed.

Section rollout.
Context `{MuJoCoShapes}.

Lemma rollout_horizon x q U :
  length q = 7%nat → dim0 U = 1%nat → dim1 U = HORIZON → dim2 U = 7%nat →
  ∃ A, diffusion_horizon_states x U q = Some A
    ∧ dim0 A = 3%nat ∧ dim1 A = (HORIZON + 1)%nat ∧ dim2 A = 1%nat
    ∧ ∀ k, (k ≤ HORIZON)%nat → ∃ d, rollout q U k = Some d ∧ column A k = hand d.
Proof.
  intros Hq U0 U1 U2.
  destruct (set_qpos_shaped MjData_new q new_shaped Hq) as (d0 & E0 & S0 & _).
  pose proof (step_shaped d0 S0) as S1.
  pose proof S1 as (Sq & Sv & Su & (a & b & c & Ex)).
  destruct (set_column_3 (zeros3 3 (HORIZON + 1) 1) 0 a b c) as (A0 & EA0 & A00 & A01 & A02 & Ac & An);
    [done|cbn; lia|done|].
  destruct (for_range_invariant
    (λ k (r : MjData * ndarray3),
       rollout q U k = Some r.1 ∧ panda_shaped r.1
       ∧ dim0 r.2 = 3%nat ∧ dim1 r.2 = (HORIZON + 1)%nat ∧ dim2 r.2 = 1%nat
       ∧ ∀ j, (j ≤ k)%nat → ∃ d, rollout q U j = Some d ∧ column r.2 j = hand d)
    (horizon_step U) (mj_step d0, A0) HORIZON) as ([d A] & Er & Ir).
  - cbn [fst snd rollout]. rewrite E0. cbn [mbind option_bind].
    split; [done|]. split; [done|]. cbn in A01.
    repeat split; [done..|].
    intros j Hj. replace j with 0%nat by lia. exists (mj_step d0).
    split; [cbn [rollout]; by rewrite E0|].
    rewrite Ac. unfold hand. by rewrite Ex.
  - intros k [d A] Hk (Er & Sd & D0 & D1 & D2 & Hcols). cbn [fst snd] in *.
    destruct (row0_control U k) as [Eu Lu]; [done|done|lia|].
    destruct (set_ctrl_shaped d (control U k) Sd Lu) as (d' & Ed' & Sd' & _).
    pose proof (step_shaped d' Sd') as Sn.
    pose proof Sn as (_ & _ & _ & (a' & b' & c' & Ex')).
    destruct (set_column_3 A (k + 1) a' b' c') as (A' & EA' & A0' & A1' & A2' & Ac' & An');
      [done|lia|done|].
    exists (mj_step d', A'). split.
    { unfold horizon_step. rewrite Eu. cbn [mbind option_bind].
      rewrite Ed'. cbn [mbind option_bind]. rewrite Ex'. cbn [mbind option_bind].
      rewrite reshape_same by done. cbn [mbind option_bind]. by rewrite EA'. }
    cbn [fst snd].
    assert (rollout q U (k + 1) = Some (mj_step d')) as Er'.
    { rewrite Nat.add_1_r. cbn [rollout]. rewrite Er. cbn [mbind option_bind].
      rewrite Eu. cbn [mbind option_bind]. rewrite Ed'. done. }
    split; [done|]. split; [done|].
    split; [done|]. split; [congruence|]. split; [done|].
    intros j Hj. destruct (decide (j = k + 1)%nat) as [->|Hne].
    + exists (mj_step d'). split; [done|]. rewrite Ac'. unfold hand. by rewrite Ex'.
    + destruct (Hcols j) as (dj & Edj & Ecj); [lia|].
      exists dj. split; [done|]. by rewrite An'.
  - destruct Ir as (_ & _ & D0 & D1 & D2 & Hcols). cbn [fst snd] in *.
    exists A. split; [|done].
    unfold diffusion_horizon_states. cbv zeta.
    rewrite reshape_same by done. cbn [mbind option_bind].
    rewrite E0. cbn [mbind option_bind]. rewrite Ex. cbn [mbind option_bind].
    rewrite reshape_same by done. cbn [mbind option_bind].
    rewrite EA0. cbn [mbind option_bind]. rewrite Er. done.
Qed.



(** C5. [diffusion_horizon_states] returns an array of shape (3, HORIZON+1, 1) whose
    entry [k] is the hand position in the [k]-th state of the rollout: a fresh
    simulation with its first seven joint positions set to the current ones and stepped
    once, then, for each [k], the [k]-th sampled control written to [ctrl] and one more
    step. *)
Theorem diffusion_horizon_states_rollout
    (x_current_pos q_current_pos : vector) (inputs_final : ndarray3) :
  length q_current_pos = 7%nat →
  dim0 inputs_final = 1%nat → dim1 inputs_final = HORIZON → dim2 inputs_final = 7%nat →
  ∃ A, diffusion_horizon_states x_current_pos inputs_final q_current_pos = Some A
    ∧ dim0 A = 3%nat ∧ dim1 A = (HORIZON + 1)%nat ∧ dim2 A = 1%nat
    ∧ ∀ k, (k ≤ HORIZON)%nat →
        ∃ d, rollout q_current_pos inputs_final k = Some d ∧ column A k = hand d.
Proof. apply rollout_horizon. Qed.

End rollout.

Lemma diffusion_horizon_states_rollout_witness :
  ∃ A, diffusion_horizon_states (H := Toy.toy_mujoco) [] (Toy.toy_trajectory 0 [])
         (replicate 7 0%Qc) = Some A
    ∧ dim0 A = 3%nat ∧ dim1 A = (HORIZON + 1)%nat ∧ dim2 A = 1%nat
    ∧ ∀ k, (k ≤ HORIZON)%nat →
        ∃ d, rollout (H := Toy.toy_mujoco) (replicate 7 0%Qc) (Toy.toy_trajectory 0 []) k = Some d
             ∧ column A k = hand d.
Proof.
  apply (diffusion_horizon_states_rollout (H := Toy.toy_mujoco) (H0 := toy_shapes)
           [] (replicate 7 0%Qc) (Toy.toy_trajectory 0 [])); reflexivity.
Defined.

End RolloutProofs.

(** ** The control loop *)
Module LoopProofs.
Import Panda Spec ArrayFacts CostProofs ContextProofs RolloutProofs.

Lemma zeros2_shaped w : mem_shaped w (zeros2 SAMPLING_STEPS w).
Proof.
  split; unfold zeros2; [by rewrite length_replicate|].
  apply Forall_replicate. by rewrite length_replicate.
Qed.

Lemma mem_shaped_lookup w m i :
  mem_shaped w m → (i < SAMPLING_STEPS)%nat → ∃ row, m !! i = Some row ∧ length row = w.
Proof.
  intros [Hlen Hrows] Hi. destruct (lookup_lt_is_Some_2 m i) as [row Hrow]; [lia|].
  exists row. split; [done|].
  exact (Forall_lookup_1 (λ row : list Qc, length row = w) m i row Hrows Hrow).
Qed.

Lemma mem_shaped_insert w m i v :
  mem_shaped w m → length v = w → mem_shaped w (<[i:=v]> m).
Proof.
  intros [Hlen Hrows] Hv. split; [by rewrite length_insert|]. by apply Forall_insert.
Qed.

Lemma set_row_shaped w m i v :
  mem_shaped w m → (i < SAMPLING_STEPS)%nat → length v = w →
  set_row m i v = Some (<[i:=v]> m).
Proof.
  intros Hm Hi Hv. destruct (mem_shaped_lookup w m i Hm Hi) as (row & Hrow & Hw).
  unfold set_row. rewrite Hrow. cbn [mbind option_bind].
  replace (length v =? length row) with true; [done|]. symmetry. apply Nat.eqb_eq. lia.
Qed.

Lemma set_item0_shaped m i x :
  mem_shaped 1 m → (i < SAMPLING_STEPS)%nat →
  set_item0 m i x = Some (<[i:=[x]]> m).
Proof.
  intros Hm Hi. destruct (mem_shaped_lookup 1 m i Hm Hi) as (row & Hrow & Hw).
  unfold set_item0. rewrite Hrow. cbn [mbind option_bind].
  destruct row as [|y [|??]]; simplify_eq/=. done.
Qed.

Section loop.
Context `{MuJoCoShapes, DiffusionShapes, Measured}.

Lemma state_loading_ok d :
  panda_shaped d →
  ∃ q x y z context,
    state_loading d = Some (q, [x; y; z], context)
    ∧ length q = 7%nat ∧ hand d = Some [x; y; z].
Proof.
  intros (Hq & Hv & Hu & (x & y & z & Hx)).
  destruct (mj_jac d TARGET_POS 9) as [jacp jacr] eqn:Ej.
  destruct (jac_shaped d TARGET_POS 9) as [Hlen Hrows]. rewrite Ej in Hlen, Hrows.
  exists (take 7 (qpos d)), x, y, z. eexists. split; [|split].
  - by apply (state_loading_shaped d x y z jacp jacr).
  - rewrite length_take. lia.
  - done.
Qed.

Lemma final_trajectory_ok call d :
  panda_shaped d →
  ∃ U, final_trajectory call d = Some U
       ∧ dim0 U = 1%nat ∧ dim1 U = HORIZON ∧ dim2 U = 7%nat.
Proof.
  intros Hd. destruct (state_loading_ok d Hd) as (q & x & y & z & ctx & E & _).
  destruct (chain_shaped call ctx) as (chain & U & Ech & U0 & U1 & U2).
  exists U. split; [|done]. unfold final_trajectory. rewrite E. cbn [mbind option_bind].
  rewrite Ech. apply last_snoc.
Qed.

Lemma sampling_branch_shaped s :
  panda_shaped (data s) →
  mem_shaped 3 (x_pos_memory s) → mem_shaped 7 (q_pos_memory s) →
  mem_shaped 7 (ctl_memory s) → mem_shaped 1 (abs_dis_memory s) →
  mem_shaped 1 (cost_memory s) → mem_shaped 1 (single_time_set s) →
  (sampling_step s < SAMPLING_STEPS)%nat →
  ∃ q x cost u d',
    tick_facts (sampling_step s) (data s) x cost u
    ∧ length q = 7%nat
    ∧ set_ctrl (data s) u = Some d' ∧ panda_shaped d'
    ∧ sampling_branch s
      = Some (mkLoopState d'
                (<[sampling_step s:=x]> (x_pos_memory s))
                (<[sampling_step s:=q]> (q_pos_memory s))
                (<[sampling_step s:=u]> (ctl_memory s))
                (<[sampling_step s:=[np_linalg_norm (vsub x TARGET_POS)]]> (abs_dis_memory s))
                (<[sampling_step s:=[cost]]> (cost_memory s))
                (<[sampling_step s:=[single_t (sampling_step s)]]> (single_time_set s))
                (sampling_step s + 1)).
Proof.
  intros Hd Mx Mq Mu Ma Mc Mt Hi.
  destruct (state_loading_ok (data s) Hd) as (q & x & y & z & ctx & E & Hq & Hh).
  destruct (final_trajectory_ok (sampling_step s) (data s) Hd) as (U & EU & U0 & U1 & U2).
  assert (last (unnormalize_states (diffusion_sampling (sampling_step s) ctx)) = Some U) as EU'.
  { unfold final_trajectory in EU. rewrite E in EU. exact EU. }
  destruct (rollout_horizon [x; y; z] q U Hq U0 U1 U2) as (X & EX & X0 & X1 & X2 & _).
  assert (∃ cost, mpc_cost X U Qw Rw Pw = Some cost) as [cost Ecost].
  { eexists. apply (mpc_cost_diag HORIZON); [unfold HORIZON; lia|done..]. }
  destruct (row0_control U 0) as [Eu Lu]; [done|done|rewrite U1; unfold HORIZON; lia|].
  destruct (set_ctrl_shaped (data s) (control U 0) Hd Lu) as (d' & Ed' & Sd' & _).
  exists q, [x; y; z], cost, (control U 0), d'.
  split; [|split; [exact Hq|split; [exact Ed'|split; [exact Sd'|]]]].
  - split; [done|done|done| |by unfold first_input; rewrite EU|done].
    unfold tick_cost. rewrite E. cbn [mbind option_bind]. rewrite EU.
    cbn [mbind option_bind]. rewrite EX. cbn [mbind option_bind]. exact Ecost.
  - unfold sampling_branch. rewrite E. cbn [mbind option_bind].
    rewrite (reshape_same 7 q) by done. cbn [mbind option_bind].
    rewrite (set_row_shaped 7 (q_pos_memory s)) by done. cbn [mbind option_bind].
    rewrite (reshape_same 3) by done. cbn [mbind option_bind].
    rewrite (set_row_shaped 3 (x_pos_memory s)) by done. cbn [mbind option_bind].
    rewrite (set_row_shaped 1 (abs_dis_memory s)) by done. cbn [mbind option_bind].
    rewrite (set_item0_shaped (single_time_set s)) by done. cbn [mbind option_bind].
    rewrite EU'. cbn [mbind option_bind].
    rewrite EX. cbn [mbind option_bind].
    rewrite Ecost. cbn [mbind option_bind].
    rewrite (set_item0_shaped (cost_memory s)) by done. cbn [mbind option_bind].
    rewrite Eu. cbn [mbind option_bind].
    rewrite (set_row_shaped 7 (ctl_memory s)) by done. cbn [mbind option_bind].
    rewrite Ed'. done.
Qed.


Lemma last_check_ok (b : bool) s :
  panda_shaped (data s) →
  (if b then state_loading (data s) ≫= λ _, Some s else Some s) = Some s.
Proof.
  intros Hd. destruct b; [|done].
  destruct (state_loading_ok (data s) Hd) as (q & x & y & z & ctx & E & _).
  by rewrite E.
Qed.

Lemma loop_body_inv n s :
  (n < SAMPLING_STEPS * CONTROL_RATE)%nat → loop_inv n s →
  ∃ s', loop_body s n = Some s' ∧ loop_inv (n + 1) s'.
Proof.
  intros Hn [Hd Mx Mq Mu Ma Mc Mt Hstep Hcl Hlog].
  unfold loop_body.
  destruct (n mod CONTROL_RATE =? 0) eqn:Em.
  - apply Nat.eqb_eq in Em.
    assert (sampling_step s = n / CONTROL_RATE)%nat as Hi
      by (rewrite Hstep; unfold CONTROL_RATE in *; nat_divmod).
    assert (sampling_step s < SAMPLING_STEPS)%nat as Hlt
      by (rewrite Hi; unfold CONTROL_RATE, SAMPLING_STEPS in *; nat_divmod).
    assert (sampling_step s * CONTROL_RATE = n)%nat as Hmul
      by (rewrite Hi; unfold CONTROL_RATE in *; nat_divmod).
    destruct (sampling_branch_shaped s Hd Mx Mq Mu Ma Mc Mt Hlt)
      as (q & x & cost & u & d' & Hfacts & Hq & Ed' & Sd' & Ebranch).
    rewrite Ebranch. cbn [mbind option_bind].
    cbn [data x_pos_memory q_pos_memory ctl_memory abs_dis_memory cost_memory
         single_time_set sampling_step].
    eexists. split.
    { apply (last_check_ok _ (mkLoopState _ _ _ _ _ _ _ _)). cbn [data].
      by apply step_shaped. }
    destruct Hfacts as [_ Hh Hx3 Hc Hu Hu7].
    split; cbn [data x_pos_memory q_pos_memory ctl_memory abs_dis_memory cost_memory
                single_time_set sampling_step].
    + by apply step_shaped.
    + by apply mem_shaped_insert.
    + by apply mem_shaped_insert.
    + by apply mem_shaped_insert.
    + by apply mem_shaped_insert.
    + by apply mem_shaped_insert.
    + by apply mem_shaped_insert.
    + rewrite Hi. unfold CONTROL_RATE in *. nat_divmod.
    + rewrite Nat.add_1_r. cbn [closed_loop]. rewrite Hcl. cbn [mbind option_bind].
      apply Nat.eqb_eq in Em. rewrite Em. rewrite <-Hi, Hu. cbn [mbind option_bind].
      rewrite Ed'. done.
    + intros j Hj. destruct (decide (j = sampling_step s)) as [->|Hne].
      * exists (data s), x, cost, u. rewrite Hmul.
        split; [done|]. split; [by split|].
        destruct Mx as [Lx _], Mc as [Lc _], Mu as [Lu _], Mt as [Lt _].
        rewrite !list_lookup_insert_eq by lia. done.
      * destruct (Hlog j) as (d & x' & c' & u' & ? & ? & ? & ? & ? & ?); [lia|].
        exists d, x', c', u'. rewrite !list_lookup_insert_ne by done. done.
  - apply Nat.eqb_neq in Em. cbn [mbind option_bind].
    eexists. split.
    { apply (last_check_ok _ (mkLoopState _ _ _ _ _ _ _ _)). cbn [data].
      by apply step_shaped. }
    split; cbn [data x_pos_memory q_pos_memory ctl_memory abs_dis_memory cost_memory
                single_time_set sampling_step]; try done.
    + by apply step_shaped.
    + rewrite Hstep. unfold CONTROL_RATE in *. nat_divmod.
    + rewrite Nat.add_1_r. cbn [closed_loop]. rewrite Hcl. cbn [mbind option_bind].
      apply Nat.eqb_neq in Em. rewrite Em. done.
Qed.

Lemma initial_state_inv : ∃ s0, initial_state = Some s0 ∧ loop_inv 0 s0.
Proof.
  destruct (set_qpos_shaped MjData_new (replicate 7 0%Qc) new_shaped) as (d0 & E0 & S0 & _);
    [done|].
  unfold initial_state. cbv zeta. rewrite E0. cbn [mbind option_bind].
  eexists. split; [done|].
  split; cbn [data x_pos_memory q_pos_memory ctl_memory abs_dis_memory cost_memory
              single_time_set sampling_step]; try apply zeros2_shaped.
  - by apply step_shaped.
  - done.
  - cbn [closed_loop]. by rewrite E0.
  - intros j Hj. lia.
Qed.

(** The loop returns after any number [n ≤ SAMPLING_STEPS*CONTROL_RATE] of
    iterations, in a state that satisfies the invariant. *)
Lemma loop_prefix n :
  (n ≤ SAMPLING_STEPS * CONTROL_RATE)%nat →
  ∃ s0 s, initial_state = Some s0
          ∧ for_each loop_body s0 (range n) = Some s ∧ loop_inv n s.
Proof.
  intros Hn. destruct initial_state_inv as (s0 & E0 & I0).
  destruct (for_range_invariant loop_inv loop_body s0 n I0) as (s & Es & Is).
  - intros i s Hi Hinv. apply loop_body_inv; [lia|done].
  - by exists s0, s.
Qed.


Lemma set_ctrl_take d u d' :
  panda_shaped d → length u = 7%nat → set_ctrl d u = Some d' → take 7 (ctrl d') = u.
Proof.
  intros Hd Hu E. destruct (set_ctrl_shaped d u Hd Hu) as (d1 & E1 & _ & ->).
  rewrite E in E1. injection E1 as ->. cbn [ctrl]. by rewrite take_app_length'.
Qed.

Lemma closed_loop_tick j d u d' :
  closed_loop first_input (j * CONTROL_RATE) = Some d →
  first_input j d = Some u → set_ctrl d u = Some d' →
  closed_loop first_input (j * CONTROL_RATE + 1) = Some (mj_step d').
Proof.
  intros Ed Eu Ed'. rewrite Nat.add_1_r. cbn [closed_loop]. rewrite Ed.
  cbn [mbind option_bind].
  assert (((j * CONTROL_RATE) `mod` CONTROL_RATE =? 0) = true) as ->
    by (apply Nat.eqb_eq; unfold CONTROL_RATE; nat_divmod).
  assert ((j * CONTROL_RATE) / CONTROL_RATE = j)%nat as ->
    by (unfold CONTROL_RATE; nat_divmod).
  rewrite Eu. cbn [mbind option_bind]. by rewrite Ed'.
Qed.

Lemma control_loop_closed n :
  (n ≤ SAMPLING_STEPS * CONTROL_RATE)%nat →
  ∃ s0 s, initial_state = Some s0
    ∧ for_each loop_body s0 (range n) = Some s
    ∧ closed_loop first_input n = Some (data s)
    ∧ ∀ j, (j < sampling_step s)%nat →
        ∃ d u d', closed_loop first_input (j * CONTROL_RATE) = Some d
          ∧ first_input j d = Some u
          ∧ ctl_memory s !! j = Some u
          ∧ set_ctrl d u = Some d'
          ∧ take 7 (ctrl d') = u
          ∧ closed_loop first_input (j * CONTROL_RATE + 1) = Some (mj_step d').
Proof.
  intros Hn. destruct (loop_prefix n Hn) as (s0 & s & E0 & Es & Inv).
  exists s0, s. split; [done|]. split; [done|]. split; [apply Inv|].
  intros j Hj. destruct (inv_log n s Inv j Hj) as (d & x & c & u & Ed & Hf & _ & _ & Eu & _).
  destruct Hf as [Sd _ _ _ Hu Hu7].
  destruct (set_ctrl_shaped d u Sd Hu7) as (d' & Ed' & _ & _).
  exists d, u, d'. split; [done|]. split; [done|]. split; [done|]. split; [done|].
  split; [by eapply set_ctrl_take|]. by eapply closed_loop_tick.
Qed.

Lemma control_loop_counts :
  ∃ s0 s, initial_state = Some s0 ∧ control_loop s0 = Some s
    ∧ length (range (SAMPLING_STEPS * CONTROL_RATE)) = 2000%nat
    ∧ length (filter (λ n, n mod CONTROL_RATE = 0)%nat (range (SAMPLING_STEPS * CONTROL_RATE)))
      = SAMPLING_STEPS
    ∧ sampling_step s = SAMPLING_STEPS
    ∧ ∀ n, (n < SAMPLING_STEPS * CONTROL_RATE)%nat →
        ∃ sn, for_each loop_body s0 (range n) = Some sn
          ∧ length (x_pos_memory sn) = SAMPLING_STEPS
          ∧ length (q_pos_memory sn) = SAMPLING_STEPS
          ∧ length (ctl_memory sn) = SAMPLING_STEPS
          ∧ length (abs_dis_memory sn) = SAMPLING_STEPS
          ∧ length (cost_memory sn) = SAMPLING_STEPS
          ∧ length (single_time_set sn) = SAMPLING_STEPS
          ∧ ((n mod CONTROL_RATE = 0)%nat →
             sampling_step sn = (n / CONTROL_RATE)%nat
             ∧ (sampling_step sn < SAMPLING_STEPS)%nat).
Proof.
  destruct (loop_prefix (SAMPLING_STEPS * CONTROL_RATE)) as (s0 & s & E0 & Es & Inv); [done|].
  exists s0, s. split; [done|]. split; [done|].
  split; [unfold range; by rewrite length_seq|].
  split; [by vm_compute|].
  split; [by rewrite (inv_step _ _ Inv)|].
  intros n Hn. destruct (loop_prefix n) as (s0' & sn & E0' & Esn & Invn); [lia|].
  rewrite E0 in E0'. injection E0' as <-.
  exists sn. split; [done|].
  destruct Invn as [_ [? _] [? _] [? _] [? _] [? _] [? _] Hstep _ _].
  repeat (split; [done|]).
  intros Hm. rewrite Hstep. unfold CONTROL_RATE, SAMPLING_STEPS in *. nat_divmod.
Qed.

Lemma main_saved :
  ∃ s, main
       = Some (s, [ ((RESULTS_SAVED_PATH ++ "/cost_collecting_sample_16/x_trag.npy")%string,
                     NpyArray (x_pos_memory s));
                    ((RESULTS_SAVED_PATH ++ "/cost_collecting_sample_16/solving_time_diffusion_.npy")%string,
                     NpyScalar delta_t_problem_solving);
                    ((RESULTS_SAVED_PATH ++ "/cost_collecting_sample_16/single_time_diffusion_.npy")%string,
                     NpyArray (single_time_set s));
                    ((RESULTS_SAVED_PATH ++ "/cost_collecting_sample_16/cost_.npy")%string,
                     NpyScalar (np_sum (cost_memory s))) ])
    ∧ length (x_pos_memory s) = SAMPLING_STEPS
    ∧ length (cost_memory s) = SAMPLING_STEPS
    ∧ ∀ j, (j < SAMPLING_STEPS)%nat →
        ∃ d x cost, closed_loop first_input (j * CONTROL_RATE) = Some d
          ∧ hand d = Some x ∧ length x = 3%nat
          ∧ x_pos_memory s !! j = Some x
          ∧ tick_cost j d = Some cost
          ∧ cost_memory s !! j = Some [cost]
          ∧ single_time_set s !! j = Some [single_t j].
Proof.
  destruct (loop_prefix (SAMPLING_STEPS * CONTROL_RATE)) as (s0 & s & E0 & Es & Inv); [done|].
  assert (sampling_step s = SAMPLING_STEPS) as Hstep by (by rewrite (inv_step _ _ Inv)).
  exists s. split; [|split; [apply Inv|split; [apply Inv|]]].
  - unfold main. cbv zeta. rewrite E0. cbn [mbind option_bind].
    unfold control_loop. rewrite Es. cbn [mbind option_bind].
    destruct (inv_abs _ _ Inv) as [Hlen Hrows].
    destruct (mem_shaped_lookup 1 (abs_dis_memory s) (pred (length (abs_dis_memory s))))
      as (row & Hrow & Hw); [apply Inv|rewrite Hlen; unfold SAMPLING_STEPS; lia|].
    rewrite last_lookup, Hrow. cbn [mbind option_bind].
    destruct row as [|y [|??]]; [discriminate Hw| |discriminate Hw].
    cbn [lookup list_lookup mbind option_bind]. reflexivity.
  - intros j Hj. destruct (inv_log _ _ Inv j) as (d & x & c & u & Ed & Hf & Ex & Ec & _ & Et);
      [lia|].
    destruct Hf as [_ Hh Hx3 Hc _ _]. by exists d, x, c.
Qed.


(** C2. After every number of iterations the simulation is the one of the receding
    horizon loop under the policy "first control input of the final denoised
    trajectory": at every sampling tick the control written to [ctrl] (and logged) is
    [inputs_final[0,0,:]], the policy sees nothing else of the trajectory, and every
    iteration of the outer loop advances the physics by one step. *)
Theorem control_loop_applies_first_input (n : nat) :
  (n ≤ SAMPLING_STEPS * CONTROL_RATE)%nat →
  ∃ s0 s, initial_state = Some s0
    ∧ for_each loop_body s0 (range n) = Some s
    ∧ closed_loop first_input n = Some (data s)
    ∧ ∀ j, (j < sampling_step s)%nat →
        ∃ d u d', closed_loop first_input (j * CONTROL_RATE) = Some d
          ∧ first_input j d = Some u
          ∧ ctl_memory s !! j = Some u
          ∧ set_ctrl d u = Some d'
          ∧ take 7 (ctrl d') = u
          ∧ closed_loop first_input (j * CONTROL_RATE + 1) = Some (mj_step d').
Proof. apply control_loop_closed. Qed.

(** C6. The control loop returns after its [SAMPLING_STEPS*CONTROL_RATE] = 2000
    iterations, [SAMPLING_STEPS] = 200 of which take the sampling branch; before every
    iteration the memories have [SAMPLING_STEPS] rows, and at a sampling tick the row
    index [sampling_step] is the number of the tick, below [SAMPLING_STEPS]. *)
Theorem control_loop_fixed_iterations :
  ∃ s0 s, initial_state = Some s0 ∧ control_loop s0 = Some s
    ∧ length (range (SAMPLING_STEPS * CONTROL_RATE)) = 2000%nat
    ∧ length (filter (λ n, n mod CONTROL_RATE = 0)%nat (range (SAMPLING_STEPS * CONTROL_RATE)))
      = SAMPLING_STEPS
    ∧ sampling_step s = SAMPLING_STEPS
    ∧ ∀ n, (n < SAMPLING_STEPS * CONTROL_RATE)%nat →
        ∃ sn, for_each loop_body s0 (range n) = Some sn
          ∧ length (x_pos_memory sn) = SAMPLING_STEPS
          ∧ length (q_pos_memory sn) = SAMPLING_STEPS
          ∧ length (ctl_memory sn) = SAMPLING_STEPS
          ∧ length (abs_dis_memory sn) = SAMPLING_STEPS
          ∧ length (cost_memory sn) = SAMPLING_STEPS
          ∧ length (single_time_set sn) = SAMPLING_STEPS
          ∧ ((n mod CONTROL_RATE = 0)%nat →
             sampling_step sn = (n / CONTROL_RATE)%nat
             ∧ (sampling_step sn < SAMPLING_STEPS)%nat).
Proof. apply control_loop_counts. Qed.

(** C3, amended. After the control loop [main] writes four [.npy] files under
    [RESULTS_SAVED_PATH/cost_collecting_sample_16]: the full (SAMPLING_STEPS, 3)
    trajectory of hand positions, one row per sampling tick; the total solving time;
    the per-tick sampling times; and one number, the sum of the per-tick costs. *)
Theorem main_saves_trajectory_and_total_cost :
  ∃ s, main
       = Some (s, [ ((RESULTS_SAVED_PATH ++ "/cost_collecting_sample_16/x_trag.npy")%string,
                     NpyArray (x_pos_memory s));
                    ((RESULTS_SAVED_PATH ++ "/cost_collecting_sample_16/solving_time_diffusion_.npy")%string,
                     NpyScalar delta_t_problem_solving);
                    ((RESULTS_SAVED_PATH ++ "/cost_collecting_sample_16/single_time_diffusion_.npy")%string,
                     NpyArray (single_time_set s));
                    ((RESULTS_SAVED_PATH ++ "/cost_collecting_sample_16/cost_.npy")%string,
                     NpyScalar (np_sum (cost_memory s))) ])
    ∧ length (x_pos_memory s) = SAMPLING_STEPS
    ∧ length (cost_memory s) = SAMPLING_STEPS
    ∧ ∀ j, (j < SAMPLING_STEPS)%nat →
        ∃ d x cost, closed_loop first_input (j * CONTROL_RATE) = Some d
          ∧ hand d = Some x ∧ length x = 3%nat
          ∧ x_pos_memory s !! j = Some x
          ∧ tick_cost j d = Some cost
          ∧ cost_memory s !! j = Some [cost]
          ∧ single_time_set s !! j = Some [single_t j].
Proof. apply main_saved. Qed.

End loop.

End LoopProofs.

(** ** The control loop in the toy world *)
Module ToyRun.
Import Panda Spec Toy RolloutProofs LoopProofs.

Lemma control_loop_applies_first_input_witness :
  (25 ≤ SAMPLING_STEPS * CONTROL_RATE)%nat
  ∧ ∃ s0 s, initial_state = Some s0
    ∧ for_each loop_body s0 (range 25) = Some s
    ∧ closed_loop first_input 25 = Some (data s)
    ∧ ∀ j, (j < sampling_step s)%nat →
        ∃ d u d', closed_loop first_input (j * CONTROL_RATE) = Some d
          ∧ first_input j d = Some u
          ∧ ctl_memory s !! j = Some u
          ∧ set_ctrl d u = Some d'
          ∧ take 7 (ctrl d') = u
          ∧ closed_loop first_input (j * CONTROL_RATE + 1) = Some (mj_step d').
Proof.
  assert (25 ≤ SAMPLING_STEPS * CONTROL_RATE)%nat as Hn
    by (unfold SAMPLING_STEPS, CONTROL_RATE; lia).
  split; [exact Hn|].
  exact (control_loop_applies_first_input (H0 := toy_shapes) (H2 := toy_diffusion_shapes)
           (H3 := toy_measured) 25 Hn).
Defined.

Lemma control_loop_fixed_iterations_witness :
  ∃ s0 s, initial_state = Some s0 ∧ control_loop s0 = Some s
    ∧ length (range (SAMPLING_STEPS * CONTROL_RATE)) = 2000%nat
    ∧ length (filter (λ n, n mod CONTROL_RATE = 0)%nat (range (SAMPLING_STEPS * CONTROL_RATE)))
      = SAMPLING_STEPS
    ∧ sampling_step s = SAMPLING_STEPS
    ∧ ∀ n, (n < SAMPLING_STEPS * CONTROL_RATE)%nat →
        ∃ sn, for_each loop_body s0 (range n) = Some sn
          ∧ length (x_pos_memory sn) = SAMPLING_STEPS
          ∧ length (q_pos_memory sn) = SAMPLING_STEPS
          ∧ length (ctl_memory sn) = SAMPLING_STEPS
          ∧ length (abs_dis_memory sn) = SAMPLING_STEPS
          ∧ length (cost_memory sn) = SAMPLING_STEPS
          ∧ length (single_time_set sn) = SAMPLING_STEPS
          ∧ ((n mod CONTROL_RATE = 0)%nat →
             sampling_step sn = (n / CONTROL_RATE)%nat
             ∧ (sampling_step sn < SAMPLING_STEPS)%nat).
Proof.
  exact (control_loop_fixed_iterations (H0 := toy_shapes) (H2 := toy_diffusion_shapes)
           (H3 := toy_measured)).
Defined.

Lemma main_saves_trajectory_and_total_cost_witness :
  ∃ s, main
       = Some (s, [ ((RESULTS_SAVED_PATH ++ "/cost_collecting_sample_16/x_trag.npy")%string,
                     NpyArray (x_pos_memory s));
                    ((RESULTS_SAVED_PATH ++ "/cost_collecting_sample_16/solving_time_diffusion_.npy")%string,
                     NpyScalar delta_t_problem_solving);
                    ((RESULTS_SAVED_PATH ++ "/cost_collecting_sample_16/single_time_diffusion_.npy")%string,
                     NpyArray (single_time_set s));
                    ((RESULTS_SAVED_PATH ++ "/cost_collecting_sample_16/cost_.npy")%string,
                     NpyScalar (np_sum (cost_memory s))) ])
    ∧ length (x_pos_memory s) = SAMPLING_STEPS
    ∧ length (cost_memory s) = SAMPLING_STEPS
    ∧ ∀ j, (j < SAMPLING_STEPS)%nat →
        ∃ d x cost, closed_loop first_input (j * CONTROL_RATE) = Some d
          ∧ hand d = Some x ∧ length x = 3%nat
          ∧ x_pos_memory s !! j = Some x
          ∧ tick_cost j d = Some cost
          ∧ cost_memory s !! j = Some [cost]
          ∧ single_time_set s !! j = Some [single_t j].
Proof.
  exact (main_saves_trajectory_and_total_cost (H0 := toy_shapes)
           (H2 := toy_diffusion_shapes) (H3 := toy_measured)).
Defined.

(** C3 as stated fails: in the toy world no file that [main] writes holds the
    per-tick cost series; [cost_.npy] holds their sum. *)
Lemma cost_series_not_saved :
  ∃ s files, main = Some (s, files)
    ∧ length (cost_memory s) = SAMPLING_STEPS
    ∧ Forall (λ file, file.2 ≠ NpyArray (cost_memory s)) files
    ∧ files !! 3%nat
      = Some ((RESULTS_SAVED_PATH ++ "/cost_collecting_sample_16/cost_.npy")%string,
              NpyScalar (np_sum (cost_memory s))).
Proof.
  destruct (main_saved (H0 := toy_shapes) (H2 := toy_diffusion_shapes) (H3 := toy_measured))
    as (s & Em & Lx & Lc & Hlog).
  destruct (Hlog 0%nat) as (d & x & cost & Ed & Hh & Hx3 & Ex & Ec & Em0 & Et);
    [unfold SAMPLING_STEPS; lia|].
  eexists s, _. split; [exact Em|]. split; [exact Lc|]. split; [|done].
  apply Forall_cons_2; [|apply Forall_cons_2; [|apply Forall_cons_2;
    [|apply Forall_cons_2; [|apply Forall_nil_2]]]]; cbn [snd].
  - intros Heq. injection Heq as Heq.
    rewrite Heq, Em0 in Ex. injection Ex as <-. discriminate Hx3.
  - intros Heq. discriminate Heq.
  - intros Heq. injection Heq as Heq.
    rewrite Heq, Em0 in Et. injection Et as ->.
    vm_compute in Ed. injection Ed as <-. vm_compute in Ec. discriminate Ec.
  - intros Heq. discriminate Heq.
Qed.

End ToyRun.

(** ** The network *)
Module NetworkProofs.
Import Train.

Lemma product_app l1 l2 : product (l1 ++ l2) = (product l1 * product l2)%nat.
Proof.
  unfold product. induction l1 as [|n l1 IH]; simpl; [lia|]. rewrite IH. lia.
Qed.

Lemma product_reverse l : product (reverse l) = product l.
Proof.
  induction l as [|n l IH]; [done|].
  rewrite reverse_cons, product_app, IH. unfold product. simpl. lia.
Qed.

(** [linear] on parameters of the shapes of [nn.Linear(i, o)]. *)
Lemma linear_shaped (weight bias x : tensor) (o i : nat) :
  shape weight = [o; i] → shape bias = [o] →
  linear weight bias x
  = match reverse (shape x) with
    | k :: lead =>
        if k =? i
        then Some (Tensor (reverse lead ++ [o])
               (flat_map (λ r, map (λ j, (dot (row k r (flat x)) (row i j (flat weight))
                                          + nth j (flat bias) 0)%Qc)
                                 (seq 0 o))
                         (seq 0 (product lead))))
        else None
    | [] => None
    end.
Proof.
  intros Hw Hb. unfold linear. rewrite Hw, Hb.
  destruct (reverse (shape x)) as [|k lead]; [done|].
  rewrite Nat.eqb_refl, andb_true_r. done.
Qed.

(** The shape after a layer, as a function of the reversed shape before it. *)
Lemma linear_shape_Some (weight bias x y : tensor) (o i : nat) :
  shape weight = [o; i] → shape bias = [o] →
  linear weight bias x = Some y →
  ∃ lead, reverse (shape x) = i :: lead ∧ reverse (shape y) = o :: lead.
Proof.
  intros Hw Hb. rewrite (linear_shaped weight bias x o i Hw Hb).
  destruct (reverse (shape x)) as [|k lead]; [done|].
  destruct (k =? i) eqn:Ek; [|done]. apply Nat.eqb_eq in Ek as ->.
  intros [= <-]. exists lead. split; [done|]. cbn [shape].
  by rewrite reverse_app, reverse_involutive.
Qed.

Lemma linear_shape_ok (weight bias x : tensor) (o i : nat) lead :
  shape weight = [o; i] → shape bias = [o] → reverse (shape x) = i :: lead →
  ∃ y, linear weight bias x = Some y ∧ reverse (shape y) = o :: lead.
Proof.
  intros Hw Hb Hx. rewrite (linear_shaped weight bias x o i Hw Hb), Hx, Nat.eqb_refl.
  eexists. split; [done|]. cbn [shape]. by rewrite reverse_app, reverse_involutive.
Qed.

Lemma view_Some new_shape x y :
  view new_shape x = Some y → product new_shape = numel x ∧ shape y = new_shape.
Proof.
  unfold view. destruct (product new_shape =? numel x) eqn:E; [|done].
  apply Nat.eqb_eq in E. by intros [= <-].
Qed.

Lemma is_AMPCNet_inv i o (self : module) :
  is_AMPCNet i o self →
  ∃ w1 b1 w2 b2 w3 b3 w4 b4,
    self = [w1; b1; w2; b2; w3; b3; w4; b4]
    ∧ shape w1 = [2; i]%nat ∧ shape b1 = [2]%nat
    ∧ shape w2 = [50; 2]%nat ∧ shape b2 = [50]%nat
    ∧ shape w3 = [50; 50]%nat ∧ shape b3 = [50]%nat
    ∧ shape w4 = [o; 50]%nat ∧ shape b4 = [o].
Proof.
  unfold is_AMPCNet, AMPCNet_shapes. intros Hnet.
  apply Forall2_cons_inv_r in Hnet as (w1 & r1 & [? _] & Hnet & ->).
  apply Forall2_cons_inv_r in Hnet as (b1 & r2 & [? _] & Hnet & ->).
  apply Forall2_cons_inv_r in Hnet as (w2 & r3 & [? _] & Hnet & ->).
  apply Forall2_cons_inv_r in Hnet as (b2 & r4 & [? _] & Hnet & ->).
  apply Forall2_cons_inv_r in Hnet as (w3 & r5 & [? _] & Hnet & ->).
  apply Forall2_cons_inv_r in Hnet as (b3 & r6 & [? _] & Hnet & ->).
  apply Forall2_cons_inv_r in Hnet as (w4 & r7 & [? _] & Hnet & ->).
  apply Forall2_cons_inv_r in Hnet as (b4 & r8 & [? _] & Hnet & ->).
  apply Forall2_nil_inv_r in Hnet as ->.
  by exists w1, b1, w2, b2, w3, b3, w4, b4.
Qed.

Section network.
Context `{Torch}.

Lemma forward_shapes (self : module) (x : tensor) :
  is_AMPCNet input_size output_size self →
  (∀ y, forward self x = Some y →
     shape y = [512; 8; 1]%nat
     ∧ ∃ lead, shape x = lead ++ [input_size] ∧ product lead = 512%nat)
  ∧ (∀ lead, shape x = lead ++ [input_size] → product lead = 512%nat →
     ∃ y, forward self x = Some y ∧ shape y = [512; 8; 1]%nat).
Proof.
  intros Hnet.
  destruct (is_AMPCNet_inv _ _ _ Hnet)
    as (w1 & b1 & w2 & b2 & w3 & b3 & w4 & b4 & -> & Sw1 & Sb1 & Sw2 & Sb2 & Sw3 & Sb3 & Sw4 & Sb4).
  split.
  - intros y Hy. unfold forward in Hy.
    destruct (linear _ _ x) as [x1|] eqn:E1; [|done]. cbn [fmap option_fmap option_map mbind option_bind] in Hy.
    destruct (linear _ _ (torch_tanh x1)) as [x2|] eqn:E2; [|done]. cbn [fmap option_fmap option_map mbind option_bind] in Hy.
    destruct (linear _ _ (torch_tanh x2)) as [x3|] eqn:E3; [|done]. cbn [fmap option_fmap option_map mbind option_bind] in Hy.
    destruct (linear _ _ (torch_tanh x3)) as [x4|] eqn:E4; [|done]. cbn [mbind option_bind] in Hy.
    eapply linear_shape_Some in E1 as (l1 & Hx & Hx1); [|done..].
    eapply linear_shape_Some in E2 as (l2 & Hx1' & Hx2); [|done..].
    eapply linear_shape_Some in E3 as (l3 & Hx2' & Hx3); [|done..].
    eapply linear_shape_Some in E4 as (l4 & Hx3' & Hx4); [|done..].
    cbn [torch_tanh shape] in *.
    rewrite Hx1 in Hx1'. injection Hx1' as <-.
    rewrite Hx2 in Hx2'. injection Hx2' as <-.
    rewrite Hx3 in Hx3'. injection Hx3' as <-.
    apply view_Some in Hy as [Hnum Hshape]. split; [done|].
    exists (reverse l1). split.
    + rewrite <-(reverse_involutive (shape x)), Hx, reverse_cons. done.
    + unfold numel in Hnum. rewrite <-(product_reverse (shape x4)), Hx4 in Hnum.
      rewrite product_reverse. unfold output_size, product in *. simpl in Hnum. lia.
  - intros lead Hx Hlead.
    assert (reverse (shape x) = input_size :: reverse lead) as Hx'
      by (by rewrite Hx, reverse_app).
    edestruct (linear_shape_ok w1 b1 x) as (y1 & E1 & S1); [done..|].
    edestruct (linear_shape_ok w2 b2 (torch_tanh y1)) as (y2 & E2 & S2); [done..|].
    edestruct (linear_shape_ok w3 b3 (torch_tanh y2)) as (y3 & E3 & S3); [done..|].
    edestruct (linear_shape_ok w4 b4 (torch_tanh y3)) as (y4 & E4 & S4); [done..|].
    exists (Tensor [512; 8; 1]%nat (flat y4)). split; [|done].
    unfold forward. rewrite E1. cbn [fmap option_fmap option_map mbind option_bind].
    rewrite E2. cbn [fmap option_fmap option_map mbind option_bind].
    rewrite E3. cbn [fmap option_fmap option_map mbind option_bind].
    rewrite E4. cbn [mbind option_bind].
    unfold view, numel. rewrite <-(product_reverse (shape y4)), S4.
    replace (product [512; 8; 1]%nat =? product (output_size :: reverse lead)) with true; [done|].
    symmetry. apply Nat.eqb_eq. change (product (output_size :: reverse lead))
      with (output_size * product (reverse lead))%nat.
    rewrite product_reverse, Hlead. reflexivity.
Qed.


(** C8. For a network built by [AMPCNet(4, 8)], [forward] returns only when the result
    of the output layer has 512*8 elements, that is when the input has 512 rows of
    [input_size] entries; a batch of any other number of rows raises, and a batch of 512
    rows gives a tensor of shape (512, 8, 1). *)
Theorem forward_only_512_rows (self : module) (x : tensor) :
  is_AMPCNet input_size output_size self →
  (∀ y, forward self x = Some y →
     shape y = [512; 8; 1]%nat
     ∧ ∃ lead, shape x = lead ++ [input_size] ∧ (product lead * output_size = 512 * 8)%nat)
  ∧ (∀ rows, shape x = [rows; input_size] → rows ≠ 512%nat → forward self x = None)
  ∧ (shape x = [512; input_size]%nat →
     ∃ y, forward self x = Some y ∧ shape y = [512; 8; 1]%nat).
Proof.
  intros Hnet. destruct (forward_shapes self x Hnet) as [Hinv Hok].
  split; [|split].
  - intros y Hy. destruct (Hinv y Hy) as (Hshape & lead & Hx & Hlead).
    split; [done|]. exists lead. split; [done|]. rewrite Hlead. reflexivity.
  - intros rows Hx Hne. destruct (forward self x) as [y|] eqn:Ey; [|done].
    destruct (Hinv y eq_refl) as (_ & lead & Hx' & Hlead).
    rewrite Hx in Hx'. change [rows; input_size] with ([rows] ++ [input_size]) in Hx'.
    apply app_inj_tail in Hx' as [<- _].
    unfold product in Hlead. simpl in Hlead. lia.
  - intros Hx. apply (Hok [512%nat]); [done|reflexivity].
Qed.

End network.

Lemma toy_net_is_AMPCNet w : is_AMPCNet input_size output_size (Toy.toy_net w).
Proof.
  unfold is_AMPCNet, Toy.toy_net, AMPCNet_shapes. cbn [map].
  repeat apply Forall2_cons_2; [..|apply Forall2_nil_2];
    (split; [reflexivity|cbn [flat]; apply length_replicate]).
Qed.

Lemma forward_only_512_rows_witness :
  let self := Toy.toy_net 0%Qc in
  let x := condition_normalized (Toy.toy_batch 1%Qc) in
  (∀ y, forward (H := Toy.toy_torch) self x = Some y →
     shape y = [512; 8; 1]%nat
     ∧ ∃ lead, shape x = lead ++ [input_size] ∧ (product lead * output_size = 512 * 8)%nat)
  ∧ (∀ rows, shape x = [rows; input_size] → rows ≠ 512%nat →
     forward (H := Toy.toy_torch) self x = None)
  ∧ (shape x = [512; input_size]%nat →
     ∃ y, forward (H := Toy.toy_torch) self x = Some y ∧ shape y = [512; 8; 1]%nat).
Proof.
  exact (forward_only_512_rows (H := Toy.toy_torch) (Toy.toy_net 0%Qc)
           (condition_normalized (Toy.toy_batch 1%Qc)) (toy_net_is_AMPCNet 0%Qc)).
Defined.

End NetworkProofs.

(** ** The training loop *)
Module TrainingProofs.
Import Train NetworkProofs.

Lemma update_average_Some (self : EMA) (old new : tensor) :
  update_average self (Some old) new
  = Tensor (shape old)
      (zip_with (λ o n, o * beta self + (1 - beta self) * n)%Qc (flat old) (flat new)).
Proof.
  unfold update_average. f_equal.
  rewrite zip_with_fmap_l, zip_with_fmap_r. done.
Qed.

Lemma update_model_average_lookup (self : EMA) (ema_model current_model : module) i e m :
  ema_model !! i = Some e → current_model !! i = Some m →
  update_model_average self ema_model current_model !! i
  = Some (update_average self (Some e) m).
Proof.
  intros He Hm. unfold update_model_average.
  rewrite lookup_app_l.
  - rewrite lookup_zip_with, He, Hm. done.
  - rewrite length_zip_with. apply lookup_lt_Some in He, Hm. lia.
Qed.

Lemma update_model_average_length (self : EMA) (ema_model current_model : module) :
  length (update_model_average self ema_model current_model) = length ema_model.
Proof.
  unfold update_model_average. rewrite length_app, length_zip_with, length_drop. lia.
Qed.

Section training.
Context `{Torch, Loaders}.

Lemma train_step_ema s b s' :
  train_step s b = Some s' →
  train_steps_current s' = S (train_steps_current s)
  ∧ ema_model s'
    = (λ e, if train_steps_current s mod update_ema_every =? 0
            then update_model_average ema
                   (if train_steps_current s <? step_start_ema then model s' else e)
                   (model s')
            else e) <$> ema_model s.
Proof.
  unfold train_step. cbv zeta.
  destruct (forward _ _) as [outputs|]; [|done]. cbn [mbind option_bind].
  destruct (criterion _ _) as [loss|]; [|done]. cbn [mbind option_bind].
  match goal with |- context [mbind _ ?m] => destruct m as [[tl vl]|]; [|done] end.
  cbn [mbind option_bind].
  destruct (optimizer_step _ _ _ _) as [opt' model'].
  intros [= <-]. cbn [train_steps_current ema_model model].
  split; [lia|].
  destruct (ema_model s) as [e|]; [|done]. cbn [fmap option_fmap option_map].
  destruct (_ =? 0); done.
Qed.

Lemma for_each_train_steps s l s' :
  for_each train_step s l = Some s' →
  train_steps_current s' = (train_steps_current s + length l)%nat.
Proof.
  revert s. induction l as [|b l IH]; intros s; simpl.
  - intros [= <-]. lia.
  - destruct (train_step s b) as [s1|] eqn:E; [|done]. simpl.
    intros Hs'. apply IH in Hs'. apply train_step_ema in E as [E _]. lia.
Qed.

Lemma batches_loop_take step items s :
  (step + length items = len_train_dataloader)%nat →
  batches_loop None step items s
  = for_each train_step s (take (length items - 1) items).
Proof.
  revert step s. induction items as [|b items IH]; intros step s Hlen; [done|].
  cbn [batches_loop]. cbn [length] in *.
  destruct (Z.of_nat step =? Z.of_nat len_train_dataloader - 1)%Z eqn:E.
  - apply Z.eqb_eq in E. assert (length items = 0%nat) as Hnil by lia.
    rewrite Hnil. done.
  - apply Z.eqb_neq in E.
    destruct items as [|b' items']; [cbn [length] in *; lia|].
    replace (S (length (b' :: items')) - 1)%nat with (S (length (b' :: items') - 1))
      by (cbn [length]; lia).
    cbn [take for_each].
    destruct (train_step s b) as [s1|]; [|done]. cbn [mbind option_bind].
    cbn [stop_training orb is_step]. apply IH. cbn [length] in *. lia.
Qed.


Lemma train_step_keeps_ema s b s' :
  train_step s b = Some s' → is_Some (ema_model s) → is_Some (ema_model s').
Proof.
  intros Hs [e He]. apply train_step_ema in Hs as [_ ->]. rewrite He. by eexists.
Qed.

Lemma batches_loop_keeps_ema max_steps step items s s' :
  batches_loop max_steps step items s = Some s' →
  is_Some (ema_model s) → is_Some (ema_model s').
Proof.
  revert step s. induction items as [|b items IH]; intros step s; cbn [batches_loop].
  - by intros [= <-].
  - destruct (_ =? _)%Z; [by intros [= <-]|].
    destruct (train_step s b) as [s1|] eqn:E; [|done]. cbn [mbind option_bind].
    intros Hs' He. apply (train_step_keeps_ema _ _ _ E) in He.
    destruct (_ || _); [by injection Hs' as <-|]. by eapply IH.
Qed.

Lemma epochs_loop_keeps_ema max_steps todo s s' :
  epochs_loop max_steps todo s = Some s' →
  is_Some (ema_model s) → is_Some (ema_model s').
Proof.
  revert s. induction todo as [|epoch todo IH]; intros s; cbn [epochs_loop].
  - by intros [= <-].
  - destruct (batches_loop _ _ _ s) as [s1|] eqn:E; [|done]. cbn [mbind option_bind].
    intros Hs' He. apply (batches_loop_keeps_ema _ _ _ _ _ E) in He.
    destruct (is_step _ _); [by injection Hs' as <-|]. by eapply IH.
Qed.

Lemma training_final max_steps model0 optimizers0 r :
  training max_steps model0 optimizers0 = Some r →
  ∃ s e,
    epochs_loop max_steps (range epochs)
      (mkTrainState model0 (Some model0) optimizers0 0 [] []) = Some s
    ∧ ema_model s = Some e
    ∧ model r = model s
    ∧ train_steps_current r = train_steps_current s
    ∧ ema_model r
      = Some (update_model_average ema
                (if train_steps_current s <? step_start_ema then model s else e)
                (model s)).
Proof.
  unfold training. cbn [use_ema]. cbv zeta.
  destruct (epochs_loop _ _ _) as [s|] eqn:Es; [|done]. cbn [mbind option_bind].
  destruct (epochs_loop_keeps_ema _ _ _ _ Es) as [e He]; [by eexists|].
  rewrite He. intros [= <-]. exists s, e. done.
Qed.

(** C7. [update_average] is [old*beta + (1-beta)*new] on every element, and [new] when
    [old] is [None]; [update_model_average] applies it to every pair of parameters; a
    training step changes the EMA model only when the step count is a multiple of
    [update_ema_every], then by this rule, after resetting it to the model while the
    count is below [step_start_ema]; and one more such update follows the epoch loop. *)
Theorem ema_schedule (max_steps : option nat) :
  (∀ self old new,
     update_average self None new = new
     ∧ update_average self (Some old) new
       = Tensor (shape old)
           (zip_with (λ o n, o * beta self + (1 - beta self) * n)%Qc (flat old) (flat new)))
  ∧ (∀ self (ema_model current_model : module) i e m,
       ema_model !! i = Some e → current_model !! i = Some m →
       update_model_average self ema_model current_model !! i
       = Some (update_average self (Some e) m))
  ∧ (∀ s b s',
       train_step s b = Some s' →
       train_steps_current s' = S (train_steps_current s)
       ∧ ema_model s'
         = (λ e, if train_steps_current s mod update_ema_every =? 0
                 then update_model_average ema
                        (if train_steps_current s <? step_start_ema then model s' else e)
                        (model s')
                 else e) <$> ema_model s)
  ∧ (∀ model0 optimizers0 r,
       training max_steps model0 optimizers0 = Some r →
       ∃ s e,
         epochs_loop max_steps (range epochs)
           (mkTrainState model0 (Some model0) optimizers0 0 [] []) = Some s
         ∧ ema_model s = Some e
         ∧ model r = model s
         ∧ train_steps_current r = train_steps_current s
         ∧ ema_model r
           = Some (update_model_average ema
                     (if train_steps_current s <? step_start_ema then model s else e)
                     (model s))).
Proof.
  split; [|split; [|split]].
  - intros self old new. split; [done|apply update_average_Some].
  - apply update_model_average_lookup.
  - apply train_step_ema.
  - apply training_final.
Qed.

(** C9. With [max_steps = None], an epoch over a loader of [len >= 1] batches runs the
    training step on exactly its first [len - 1] batches, in order, and stops: the last
    batch is not used, and a completed epoch adds [len - 1] to [train_steps_current]. *)
Theorem epoch_drops_last_batch (epoch : nat) (s : TrainState) :
  (1 ≤ len_train_dataloader)%nat →
  length (train_dataloader epoch) = len_train_dataloader →
  batches_loop None 0 (train_dataloader epoch) s
  = for_each train_step s (take (len_train_dataloader - 1) (train_dataloader epoch))
  ∧ length (take (len_train_dataloader - 1) (train_dataloader epoch))
    = (len_train_dataloader - 1)%nat
  ∧ ∀ s', batches_loop None 0 (train_dataloader epoch) s = Some s' →
      Z.of_nat (train_steps_current s')
      = (Z.of_nat (train_steps_current s) + (Z.of_nat len_train_dataloader - 1))%Z.
Proof.
  intros Hlen Hpass.
  assert (batches_loop None 0 (train_dataloader epoch) s
          = for_each train_step s (take (len_train_dataloader - 1) (train_dataloader epoch)))
    as Hloop by (rewrite batches_loop_take by lia; by rewrite Hpass).
  split; [exact Hloop|]. split; [rewrite length_take; lia|].
  intros s' Hs'. rewrite Hloop in Hs'. apply for_each_train_steps in Hs'.
  rewrite length_take in Hs'. lia.
Qed.

End training.

Lemma epoch_drops_last_batch_witness :
  (1 ≤ len_train_dataloader (Loaders := Toy.toy_loaders))%nat
  ∧ length (train_dataloader (Loaders := Toy.toy_loaders) 0) = 3%nat
  ∧ batches_loop (H := Toy.toy_torch) (H0 := Toy.toy_loaders) None 0
      (train_dataloader (Loaders := Toy.toy_loaders) 0) Toy.toy_train_state
    = for_each (train_step (H := Toy.toy_torch) (H0 := Toy.toy_loaders)) Toy.toy_train_state
        [Toy.toy_batch 0; Toy.toy_batch 1].
Proof.
  assert (1 ≤ len_train_dataloader (Loaders := Toy.toy_loaders))%nat as H1 by (cbn; lia).
  split; [exact H1|]. split; [reflexivity|].
  exact (proj1 (epoch_drops_last_batch (H := Toy.toy_torch) (H0 := Toy.toy_loaders)
                  0 Toy.toy_train_state H1 eq_refl)).
Defined.

(** One training step in the toy world. *)
Lemma toy_train_step_runs :
  ∃ s', train_step (H := Toy.toy_torch) (H0 := Toy.toy_loaders)
          Toy.toy_train_state (Toy.toy_batch 1%Qc) = Some s'.
Proof.
  destruct (forward_shapes (H := Toy.toy_torch) (Toy.toy_net 0%Qc)
              (condition_normalized (Toy.toy_batch 1%Qc)) (toy_net_is_AMPCNet 0%Qc))
    as [_ Hok].
  destruct (Hok [512%nat]) as (y & Ey & Hy); [done|reflexivity|].
  unfold train_step. cbv zeta.
  change (model Toy.toy_train_state) with (Toy.toy_net 0%Qc).
  rewrite Ey. cbn [mbind option_bind].
  assert (criterion (Torch := Toy.toy_torch) y (inputs_normalized (Toy.toy_batch 1%Qc))
          = Some (sumsqr (vsub (flat y) (flat (inputs_normalized (Toy.toy_batch 1%Qc))))))
    as ->.
  { cbn [criterion Toy.toy_torch]. unfold Toy.toy_criterion.
    rewrite decide_True; [done|]. by rewrite Hy. }
  cbn [mbind option_bind].
  change (train_steps_current Toy.toy_train_state) with 0%nat.
  change (0 `mod` steps_til_summary =? 0) with true. cbv iota.
  change (val_dataloader (Loaders := Toy.toy_loaders)) with (@None (list batch)).
  cbv iota. cbn [mbind option_bind].
  destruct (optimizer_step _ _ _ _) as [opt' model'].
  eexists. reflexivity.
Qed.

Lemma ema_schedule_witness :
  ∃ s', train_step (H := Toy.toy_torch) (H0 := Toy.toy_loaders)
          Toy.toy_train_state (Toy.toy_batch 1%Qc) = Some s'
    ∧ train_steps_current s' = 1%nat
    ∧ ema_model s' = Some (update_model_average ema (model s') (model s')).
Proof.
  destruct toy_train_step_runs as [s' Es']. exists s'. split; [exact Es'|].
  exact (proj1 (proj2 (proj2 (ema_schedule (H := Toy.toy_torch) (H0 := Toy.toy_loaders) None)))
           Toy.toy_train_state (Toy.toy_batch 1%Qc) s' Es').
Defined.

End TrainingProofs.

(** * Further properties of the two scripts *)

(** ** More on loops *)

(** Loops with bodies that agree on the items of the list agree. *)
Lemma for_each_ext {A St : Type} (body1 body2 : St → A → option St) s l :
  (∀ s x, x ∈ l → body1 s x = body2 s x) →
  for_each body1 s l = for_each body2 s l.
Proof.
  revert s. induction l as [|x l IH]; intros s Hext; [done|]. cbn [for_each].
  rewrite Hext by left. destruct (body2 s x) as [s'|]; [|done]. cbn [mbind option_bind].
  apply IH. intros s0 y Hy. apply Hext. by right.
Qed.

(** A loop one of whose items makes the body raise in every state raises. *)
Lemma for_each_raises {A St : Type} (body : St → A → option St) s l k :
  k ∈ l → (∀ s, body s k = None) → for_each body s l = None.
Proof.
  intros Hk Hnone. revert s. induction l as [|x l IH]; intros s.
  - by apply elem_of_nil in Hk.
  - cbn [for_each]. apply elem_of_cons in Hk as [<-|Hk].
    + by rewrite Hnone.
    + destruct (body s x) as [s'|]; [|done]. cbn [mbind option_bind]. by apply IH.
Qed.

Lemma for_each_range_last {St : Type} (body : St → nat → option St) s n s' :
  for_each body s (range (S n)) = Some s' →
  ∃ s1, for_each body s (range n) = Some s1 ∧ body s1 n = Some s'.
Proof.
  rewrite range_S, for_each_snoc.
  destruct (for_each body s (range n)) as [s1|]; [|done]. cbn [mbind option_bind].
  intros Hs'. by exists s1.
Qed.

(** ** More on the cost *)
Module CostMore.
Import Panda Spec ArrayFacts CostProofs.
Local Open Scope Qc_scope.

Lemma vsub_columns (f g : nat → Qc) (l : list nat) :
  vsub (map f l) (map g l) = map (λ a, f a - g a) l.
Proof.
  unfold vsub. induction l as [|a l IH]; [done|]. cbn [map zip_with]. by rewrite IH.
Qed.

(** The differences of successive controls do not see a constant offset. *)
Lemma delta_u_shift (U U' : ndarray3) (c : nat → Qc) i k :
  dim0 U' = dim0 U → dim1 U' = dim1 U → dim2 U' = dim2 U →
  (∀ i j, at3 U' 0 i j = at3 U 0 i j + c j) →
  (column (transpose210 U') i ≫= λ u_i_1,
     column (transpose210 U') k ≫= λ u_i, Some (sumsqr (vsub u_i u_i_1)))
  = (column (transpose210 U) i ≫= λ u_i_1,
     column (transpose210 U) k ≫= λ u_i, Some (sumsqr (vsub u_i u_i_1))).
Proof.
  intros H0 H1 H2 Hshift. unfold column, transpose210. cbn [dim0 dim1 dim2 at3].
  rewrite H0, H1, H2.
  destruct ((i <? dim1 U) && (0 <? dim0 U)); [|done]. cbn [mbind option_bind].
  destruct ((k <? dim1 U) && (0 <? dim0 U)); [|done]. cbn [mbind option_bind].
  f_equal. f_equal. rewrite !vsub_columns. apply map_ext. intros a.
  rewrite !Hshift. ring.
Qed.

(** X1. [mpc_cost] sees the controls only through the differences of successive
    inputs: adding to every control input of the horizon one and the same vector of
    offsets (one offset per joint) changes neither the value nor whether it raises. *)
Theorem mpc_cost_offset_invariant (X U U' : ndarray3) (c : nat → Qc) (Qm P : matrix) (R : Qc) :
  dim0 U' = dim0 U → dim1 U' = dim1 U → dim2 U' = dim2 U →
  (∀ i j, at3 U' 0%nat i j = at3 U 0%nat i j + c j) →
  mpc_cost X U' Qm R P = mpc_cost X U Qm R P.
Proof.
  intros H0 H1 H2 Hshift. unfold mpc_cost. cbv zeta.
  destruct (column X 0) as [x_0|]; [|done]. cbn [mbind option_bind].
  destruct (weighted_dev Qm x_0) as [c0|]; [|done]. cbn [mbind option_bind].
  cbn [transpose210 dim1]. rewrite H1.
  erewrite for_each_ext; [reflexivity|].
  intros cost i _. cbv beta.
  destruct (column X (i + 1)) as [x_i|]; [|done]. cbn [mbind option_bind].
  pose proof (delta_u_shift U U' c i (i + 1) H0 H1 H2 Hshift) as Hd.
  destruct (column (transpose210 U') i) as [a'|], (column (transpose210 U) i) as [a|];
    cbn [mbind option_bind] in *; try done.
  - destruct (column (transpose210 U') (i + 1)) as [b'|],
             (column (transpose210 U) (i + 1)) as [b|];
      cbn [mbind option_bind] in *; try done.
    injection Hd as ->. done.
  - destruct (column (transpose210 U') (i + 1)); done.
  - destruct (column (transpose210 U) (i + 1)); done.
Qed.

Lemma mpc_cost_offset_invariant_witness :
  mpc_cost Toy.small_states
    (Nd3 1 2 7 (λ _ k j, Qc_of_Z (Z.of_nat (k * j)) + Qc_of_Z (Z.of_nat j))) Qw Rw Pw
  = mpc_cost Toy.small_states Toy.small_controls Qw Rw Pw.
Proof.
  apply (mpc_cost_offset_invariant Toy.small_states Toy.small_controls
           (Nd3 1 2 7 (λ _ k j, Qc_of_Z (Z.of_nat (k * j)) + Qc_of_Z (Z.of_nat j)))
           (λ j, Qc_of_Z (Z.of_nat j)) Qw Pw Rw); reflexivity.
Defined.

Lemma sum_upto_zero n f : (∀ i, (i < n)%nat → f i = 0) → sum_upto n f = 0.
Proof.
  induction n as [|n IH]; intros Hf; [done|].
  rewrite sum_upto_S, IH by (intros; apply Hf; lia). rewrite Hf by lia. ring.
Qed.

(** X2. The cost vanishes on a prediction that stays at [TARGET_POS] over the whole
    horizon under controls that do not change in time, whatever the diagonal weights. *)
Theorem mpc_cost_zero_at_target (X U : ndarray3) (q0 q1 q2 r p0 p1 p2 : Qc) :
  dim0 X = 3%nat → dim1 X = (HORIZON + 1)%nat → dim2 X = 1%nat →
  dim0 U = 1%nat → dim1 U = HORIZON → dim2 U = 7%nat →
  (∀ i, (i ≤ HORIZON)%nat → state X i = TARGET_POS) →
  (∀ i j, (i < HORIZON)%nat → at3 U 0%nat i j = at3 U 0%nat 0%nat j) →
  mpc_cost X U (diag [q0; q1; q2]) r (diag [p0; p1; p2]) = Some 0.
Proof.
  intros X0 X1 X2 U0 U1 U2 HX HU.
  rewrite (mpc_cost_diag HORIZON) by (first [done|unfold HORIZON; lia]).
  f_equal. unfold quadratic_cost.
  assert (∀ w, weighted_sq_dev w TARGET_POS = 0) as Hdev.
  { intros w. unfold weighted_sq_dev, sum_upto. cbn [seq map foldr nth TARGET_POS].
    rewrite !Qc_sq. ring. }
  rewrite (sum_upto_zero HORIZON), HX, Hdev by (first [lia|intros; rewrite HX by lia; apply Hdev]).
  rewrite sum_upto_zero; [ring|].
  intros i Hi. assert (control U (i + 1) = control U i) as ->.
  { unfold control. apply map_ext. intros j. rewrite (HU (i + 1)%nat), (HU i) by lia. done. }
  unfold vsub. rewrite zip_with_diag, <-sumsqr_sq_norm.
  assert (∀ l : list Qc, sumsqr (map (λ x, x - x) l) = 0) as Hz.
  { induction l as [|x l IH]; [done|]. cbn [map sumsqr foldr]. fold (sumsqr (map (λ x, x - x) l)).
    rewrite IH. ring. }
  unfold fmap, list_fmap. rewrite Hz. ring.
Qed.

Lemma mpc_cost_zero_at_target_witness :
  mpc_cost (Nd3 3 (HORIZON + 1) 1 (λ i _ _, nth i TARGET_POS 0))
           (Nd3 1 HORIZON 7 (λ _ _ j, Qc_of_Z (Z.of_nat j))) Qw Rw Pw
  = Some 0.
Proof.
  apply (mpc_cost_zero_at_target (Nd3 3 (HORIZON + 1) 1 (λ i _ _, nth i TARGET_POS 0))
           (Nd3 1 HORIZON 7 (λ _ _ j, Qc_of_Z (Z.of_nat j)))
           (Qc_of_Z 10) (Qc_of_Z 10) (Qc_of_Z 10) Rw (Qc_of_Z 10) (Qc_of_Z 10) (Qc_of_Z 10));
    reflexivity.
Defined.

(** When [mpc_cost] raises. *)

Lemma column_Some A k v :
  column A k = Some v ↔ ((k < dim1 A)%nat ∧ (0 < dim2 A)%nat)
                        ∧ v = map (λ i, at3 A i k 0%nat) (seq 0 (dim0 A)).
Proof.
  unfold column.
  destruct (Nat.ltb_spec k (dim1 A)), (Nat.ltb_spec 0 (dim2 A)); cbn [andb].
  - split; [by intros [= <-]|by intros [_ ->]].
  - split; [done|intros [[??] _]; lia].
  - split; [done|intros [[??] _]; lia].
  - split; [done|intros [[??] _]; lia].
Qed.

Lemma column_length A k v : column A k = Some v → length v = dim0 A.
Proof. intros Hv. apply column_Some in Hv as [_ ->]. by rewrite length_map, length_seq. Qed.

Lemma column_defined A k :
  (k < dim1 A)%nat → (0 < dim2 A)%nat → ∃ v, column A k = Some v ∧ length v = dim0 A.
Proof.
  intros H1 H2. eexists. split; [by apply column_Some|]. by rewrite length_map, length_seq.
Qed.

Lemma weighted_dev_Qw_Some x : is_Some (weighted_dev Qw x) ↔ (3 ≤ length x)%nat.
Proof.
  unfold weighted_dev.
  change (item2 Qw 0 0) with (Some (Qc_of_Z 10)).
  change (item2 Qw 1 1) with (Some (Qc_of_Z 10)).
  change (item2 Qw 2 2) with (Some (Qc_of_Z 10)).
  cbn [mbind option_bind TARGET_POS lookup list_lookup].
  destruct x as [|x0 [|x1 [|x2 x]]]; cbn [mbind option_bind lookup list_lookup length].
  - split; [by intros [? [=]]|lia].
  - split; [by intros [? [=]]|lia].
  - split; [by intros [? [=]]|lia].
  - split; [lia|by eexists].
Qed.

(** X3. With the weights of the script, [mpc_cost] returns a value exactly when the
    state array has at least three rows, a non-empty middle axis and a non-empty last
    axis and, if there are two or more control inputs, their number does not exceed
    the number of predicted states and the control tensor has a non-empty first axis;
    in every other case an index is out of bounds. *)
Theorem mpc_cost_defined_iff (X U : ndarray3) :
  is_Some (mpc_cost X U Qw Rw Pw)
  ↔ (3 ≤ dim0 X)%nat ∧ (0 < dim1 X)%nat ∧ (0 < dim2 X)%nat
    ∧ ((2 ≤ dim1 U)%nat → (dim1 U ≤ dim1 X)%nat ∧ (0 < dim0 U)%nat).
Proof.
  unfold mpc_cost. cbv zeta. cbn [transpose210 dim1]. split.
  - intros [c Hc].
    destruct (column X 0) as [x_0|] eqn:E0; [|done]. cbn [mbind option_bind] in Hc.
    destruct (weighted_dev Qw x_0) as [c0|] eqn:Ew; [|done]. cbn [mbind option_bind] in Hc.
    apply column_length in E0 as Hlen. apply column_Some in E0 as [[H1 H2] _].
    assert (3 ≤ length x_0)%nat as H3 by (apply weighted_dev_Qw_Some; by eexists).
    split; [lia|]. split; [done|]. split; [done|]. intros HU.
    match type of Hc with context [for_each ?b ?s ?l] =>
      destruct (for_each b s l) as [c1|] eqn:El; [|done] end.
    destruct (dim1 U) as [|[|n]] eqn:EU; [lia|lia|].
    replace (S (S n) - 1)%nat with (S n) in El by lia.
    apply for_each_range_last in El as (c' & _ & Hlast). cbv beta in Hlast.
    destruct (column X (n + 1)) as [x_i|] eqn:Ei; [|done]. cbn [mbind option_bind] in Hlast.
    destruct (column (transpose210 U) n) as [u|] eqn:Eu; [|done].
    apply column_Some in Ei as [[Hi _] _]. apply column_Some in Eu as [[_ Hu] _].
    cbn [transpose210 dim2] in Hu. lia.
  - intros (H0 & H1 & H2 & HU).
    destruct (column_defined X 0) as (x_0 & -> & Hlen); [done..|].
    cbn [mbind option_bind].
    destruct (proj2 (weighted_dev_Qw_Some x_0)) as [c0 Ew]; [lia|].
    rewrite Ew. cbn [mbind option_bind].
    match goal with |- context [for_each ?b ?s ?l] => set (body := b) end.
    destruct (for_range_invariant (λ _ _, True) body c0 (dim1 U - 1)) as (c1 & El & _); [done| |].
    { intros i c Hi _. assert (2 ≤ dim1 U)%nat as H2U by lia. destruct (HU H2U) as [HX HU0].
      unfold body.
      destruct (column_defined X (i + 1)) as (x_i & -> & Hleni); [lia|done|].
      destruct (column_defined (transpose210 U) i) as (u1 & -> & _); [cbn; lia|done|].
      destruct (column_defined (transpose210 U) (i + 1)) as (u2 & -> & _); [cbn; lia|done|].
      cbn [mbind option_bind].
      destruct (proj2 (weighted_dev_Qw_Some x_i)) as [ci Ewi]; [lia|].
      rewrite Ewi. cbn [mbind option_bind]. by eexists. }
    rewrite El. cbn [mbind option_bind]. unfold last_column.
    destruct (column_defined X (dim1 X - 1)) as (x_end & -> & Hlene); [lia|done|].
    cbn [mbind option_bind]. change Pw with Qw.
    destruct (proj2 (weighted_dev_Qw_Some x_end)) as [ce Ewe]; [lia|].
    rewrite Ewe. by eexists.
Qed.

End CostMore.

(** ** More on the forward-simulated rollout *)
Module RolloutMore.
Import Panda Spec ArrayFacts RolloutProofs.

(** [dst[:7] = src] on a vector of at least seven entries takes seven values or one. *)
Lemma set_slice_head_Some (dst src : vector) :
  (7 ≤ length dst)%nat →
  is_Some (set_slice dst 0 7 src) ↔ length src = 7%nat ∨ length src = 1%nat.
Proof.
  intros Hdst. unfold set_slice. cbv zeta.
  replace (7 `min` length dst - 0)%nat with 7%nat by lia.
  destruct (Nat.eqb_spec (length src) 7) as [E7|N7].
  - split; [by left|by eexists].
  - destruct (Nat.eqb_spec (length src) 1) as [E1|N1].
    + split; [by right|by eexists].
    + split; [by intros [? [=]]|lia].
Qed.

Lemma set_slice_head_length (dst src r : vector) :
  (7 ≤ length dst)%nat → set_slice dst 0 7 src = Some r → length r = length dst.
Proof.
  intros Hdst. unfold set_slice. cbv zeta.
  replace (7 `min` length dst - 0)%nat with 7%nat by lia.
  destruct (Nat.eqb_spec (length src) 7) as [E7|N7].
  - intros [= <-]. rewrite ?length_app, ?length_take, ?length_drop. cbn [length].
    rewrite ?length_drop. lia.
  - destruct (length src =? 1); [|done].
    intros [= <-].
    rewrite ?length_app, ?length_take, ?length_replicate, ?length_drop. cbn [length].
    rewrite ?length_drop. lia.
Qed.

Lemma reshape_other n (v : vector) : length v ≠ n → reshape n v = None.
Proof. intros Hn. unfold reshape. by apply Nat.eqb_neq in Hn as ->. Qed.

Lemma set_ctrl_Some d u :
  panda_shaped d →
  is_Some (set_ctrl d u) ↔ length u = 7%nat ∨ length u = 1%nat.
Proof.
  intros (Hq & Hv & Hu & Hx). rewrite <-(set_slice_head_Some (ctrl d) u Hu).
  unfold set_ctrl. destruct (set_slice (ctrl d) 0 7 u) as [u'|]; cbn [mbind option_bind].
  - split; by eexists.
  - split; by intros [? [=]].
Qed.

Lemma set_ctrl_keeps_shape d u d' :
  panda_shaped d → set_ctrl d u = Some d' → panda_shaped d'.
Proof.
  intros (Hq & Hv & Hu & Hx). unfold set_ctrl.
  destruct (set_slice (ctrl d) 0 7 u) as [u'|] eqn:E; [|done]. cbn [mbind option_bind].
  intros [= <-]. apply set_slice_head_length in E; [|done].
  repeat split; cbn [qpos qvel ctrl xpos]; [done|done|lia|done].
Qed.

Lemma row0_Some U k u :
  row0 U k = Some u ↔ ((0 < dim0 U)%nat ∧ (k < dim1 U)%nat)
                       ∧ u = map (λ j, at3 U 0%nat k j) (seq 0 (dim2 U)).
Proof.
  unfold row0.
  destruct (Nat.ltb_spec 0 (dim0 U)), (Nat.ltb_spec k (dim1 U)); cbn [andb].
  - split; [by intros [= <-]|by intros [_ ->]].
  - split; [done|intros [[??] _]; lia].
  - split; [done|intros [[??] _]; lia].
  - split; [done|intros [[??] _]; lia].
Qed.

Lemma row0_defined U k :
  (0 < dim0 U)%nat → (k < dim1 U)%nat →
  ∃ u, row0 U k = Some u ∧ length u = dim2 U.
Proof.
  intros H0 Hk. eexists. split; [by apply row0_Some|]. by rewrite length_map, length_seq.
Qed.

Lemma row0_length U k u : row0 U k = Some u → length u = dim2 U.
Proof. intros Hu. apply row0_Some in Hu as [_ ->]. by rewrite length_map, length_seq. Qed.

(** The first item of a loop that returns has run. *)
Lemma for_each_head {A St : Type} (body : St → A → option St) s x l s' :
  for_each body s (x :: l) = Some s' → is_Some (body s x).
Proof. cbn [for_each]. destruct (body s x); [by eexists|done]. Qed.

Section rollout.
Context `{MuJoCoShapes}.

Lemma horizon_step_Some U (s : MjData * ndarray3) k :
  panda_shaped s.1 → is_Some (horizon_step U s k) →
  (0 < dim0 U)%nat ∧ (k < dim1 U)%nat ∧ (dim2 U = 7%nat ∨ dim2 U = 1%nat).
Proof.
  destruct s as [d A]. cbn [fst]. intros Sd [r Hr]. unfold horizon_step in Hr.
  destruct (row0 U k) as [u|] eqn:Eu; [|done]. cbn [mbind option_bind] in Hr.
  destruct (set_ctrl d u) as [d'|] eqn:Ed; [|done].
  apply row0_length in Eu as Hlen. apply row0_Some in Eu as [[Hd0 Hk] _].
  assert (is_Some (set_ctrl d u)) as Hs by (by eexists).
  apply set_ctrl_Some in Hs; [|done]. rewrite Hlen in Hs. done.
Qed.

Lemma horizon_step_shaped U (s : MjData * ndarray3) k :
  panda_shaped s.1 → dim0 s.2 = 3%nat → (k + 1 < dim1 s.2)%nat → dim2 s.2 = 1%nat →
  (0 < dim0 U)%nat → (k < dim1 U)%nat → dim2 U = 7%nat ∨ dim2 U = 1%nat →
  ∃ s', horizon_step U s k = Some s' ∧ panda_shaped s'.1
        ∧ dim0 s'.2 = 3%nat ∧ dim1 s'.2 = dim1 s.2 ∧ dim2 s'.2 = 1%nat.
Proof.
  destruct s as [d A]. cbn [fst snd]. intros Sd A0 A1 A2 U0 Uk U2.
  destruct (row0_defined U k U0 Uk) as (u & Eu & Lu).
  destruct (proj2 (set_ctrl_Some d u Sd)) as [d' Ed']; [by rewrite Lu|].
  pose proof (set_ctrl_keeps_shape d u d' Sd Ed') as Sd'.
  pose proof (step_shaped d' Sd') as Sn.
  pose proof Sn as (_ & _ & _ & (a & b & c & Ex)).
  destruct (set_column_3 A (k + 1) a b c) as (A' & EA' & A0' & A1' & A2' & _); [done..|].
  exists (mj_step d', A'). split; [|done].
  unfold horizon_step. rewrite Eu. cbn [mbind option_bind].
  rewrite Ed'. cbn [mbind option_bind]. rewrite Ex. cbn [mbind option_bind].
  rewrite reshape_same by done. cbn [mbind option_bind]. by rewrite EA'.
Qed.

(** X4. For a simulation of the shapes of the Panda model, [diffusion_horizon_states]
    returns exactly when it is given seven joint positions and a control tensor with a
    non-empty first axis, at least [HORIZON] time steps and seven controls (or one,
    which numpy broadcasts) per step; a shorter horizon or another number of joints
    raises. *)
Theorem diffusion_horizon_states_defined_iff (x q : vector) (U : ndarray3) :
  is_Some (diffusion_horizon_states x U q)
  ↔ length q = 7%nat ∧ (0 < dim0 U)%nat ∧ (HORIZON ≤ dim1 U)%nat
    ∧ (dim2 U = 7%nat ∨ dim2 U = 1%nat).
Proof.
  unfold diffusion_horizon_states. cbv zeta.
  destruct (decide (length q = 7%nat)) as [Hq|Hq].
  2:{ rewrite (reshape_other 7 q) by done. cbn [mbind option_bind].
      split; [by intros [? [=]]|by intros [? _]]. }
  rewrite (reshape_same 7 q) by done. cbn [mbind option_bind].
  destruct (set_qpos_shaped MjData_new q new_shaped Hq) as (d0 & E0 & S0 & _).
  rewrite E0. cbn [mbind option_bind].
  pose proof (step_shaped d0 S0) as S1.
  pose proof S1 as (_ & _ & _ & (a & b & c & Ex)).
  rewrite Ex. cbn [mbind option_bind]. rewrite reshape_same by done.
  cbn [mbind option_bind].
  destruct (set_column_3 (zeros3 3 (HORIZON + 1) 1) 0 a b c) as (A0 & EA0 & A00 & A01 & A02 & _);
    [done|cbn; lia|done|].
  rewrite EA0. cbn [mbind option_bind]. cbn [zeros3 dim1] in A01.
  split.
  - intros [A HA].
    destruct (for_each (horizon_step U) (mj_step d0, A0) (range HORIZON)) as [r|] eqn:Er; [|done].
    assert (is_Some (horizon_step U (mj_step d0, A0) 0)) as Hfirst
      by (by apply (for_each_head _ _ _ (seq 1 127) r)).
    apply horizon_step_Some in Hfirst as (U0 & _ & U2); [|done].
    change HORIZON with (S 127) in Er.
    apply for_each_range_last in Er as (s1 & _ & Hlast).
    assert (is_Some (horizon_step U s1 127)) as Hl by (by eexists).
    unfold horizon_step in Hl. destruct s1 as [d1 A1].
    destruct (row0 U 127) as [u|] eqn:Eu; [|by destruct Hl].
    apply row0_Some in Eu as [[_ Hk] _].
    split; [done|]. split; [done|]. split; [unfold HORIZON; lia|done].
  - intros (_ & U0 & U1 & U2).
    destruct (for_range_invariant
      (λ (k : nat) (r : MjData * ndarray3),
         panda_shaped r.1 ∧ dim0 r.2 = 3%nat ∧ dim1 r.2 = (HORIZON + 1)%nat ∧ dim2 r.2 = 1%nat)
      (horizon_step U) (mj_step d0, A0) HORIZON) as (r & Er & _).
    + done.
    + intros k s Hk (Sd & D0 & D1 & D2).
      destruct (horizon_step_shaped U s k) as (s' & Es' & ? & ? & ? & ?); [done|done|lia|done|done|lia|done|].
      exists s'. split; [done|]. split; [done|]. split; [done|]. split; [congruence|done].
    + rewrite Er. by eexists.
Qed.

End rollout.

Lemma diffusion_horizon_states_defined_iff_witness :
  is_Some (diffusion_horizon_states (H := Toy.toy_mujoco) []
             (Nd3 1 100 7 (λ _ _ _, 0%Qc)) (replicate 7 0%Qc))
  ↔ length (replicate 7 0%Qc) = 7%nat ∧ (0 < 1)%nat ∧ (HORIZON ≤ 100)%nat
    ∧ (7 = 7 ∨ 7 = 1)%nat.
Proof.
  exact (diffusion_horizon_states_defined_iff (H := Toy.toy_mujoco) (H0 := toy_shapes)
           [] (replicate 7 0%Qc) (Nd3 1 100 7 (λ _ _ _, 0%Qc))).
Defined.

End RolloutMore.

(** ** More on the control loop: what the memories hold *)
Module LoopMore.
Import Panda Spec SpecMore ArrayFacts CostProofs ContextProofs RolloutProofs LoopProofs.

Lemma set_row_Some_shaped w m i v m' :
  mem_shaped w m → (i < SAMPLING_STEPS)%nat → length v = w →
  set_row m i v = Some m' → m' = <[i:=v]> m.
Proof. intros Hm Hi Hv. rewrite (set_row_shaped w m i v) by done. by intros [= <-]. Qed.

Lemma zeros2_lookup w j :
  (j < SAMPLING_STEPS)%nat → zeros2 SAMPLING_STEPS w !! j = Some (replicate w 0%Qc).
Proof. intros Hj. unfold zeros2. by apply lookup_replicate_2. Qed.

Lemma sum_upto_nonneg n (f : nat → Qc) :
  (∀ i, (i < n)%nat → (0 ≤ f i)%Qc) → (0 ≤ sum_upto n f)%Qc.
Proof.
  induction n as [|n IH]; intros Hf; [done|].
  rewrite sum_upto_S. apply Qcplus_nonneg_nonneg; [apply IH; intros; apply Hf; lia|apply Hf; lia].
Qed.

(** [np.sum] of an (n, 1) array is the sum of its entries. *)
Lemma np_sum_singletons (m : matrix) :
  Forall (λ row, length row = 1%nat) m →
  np_sum m = sum_upto (length m) (λ j, default 0%Qc (m !! j ≫= (.!! 0%nat))).
Proof.
  induction 1 as [|row m Hrow Hm IH]; [done|].
  cbn [length]. rewrite sum_upto_shift. cbn [lookup list_lookup mbind option_bind].
  destruct row as [|c [|??]]; [done| |done].
  cbn [np_sum foldr lookup list_lookup mbind option_bind default].
  fold (np_sum m). rewrite IH, Qcplus_0_r. done.
Qed.

Section logs.
Context `{MuJoCoShapes, DiffusionShapes, Measured}.

Lemma tick_cost_nonneg call d c : tick_cost call d = Some c → (0 ≤ c)%Qc.
Proof.
  unfold tick_cost.
  destruct (state_loading d) as [[[q x] ctx]|]; [|done]. cbn [mbind option_bind].
  destruct (final_trajectory call d) as [U|]; [|done]. cbn [mbind option_bind].
  destruct (diffusion_horizon_states x U q) as [X|]; [|done]. cbn [mbind option_bind].
  apply mpc_cost_nonneg_general.
Qed.

(** The joint positions and the hand position that [state_loading] returns. *)
Lemma state_loading_fields d q x ctx :
  state_loading d = Some (q, x, ctx) → q = take 7 (qpos d) ∧ hand d = Some x.
Proof.
  unfold state_loading, hand. cbv zeta.
  destruct (xpos d !! 9%nat) as [x'|]; [|done]. cbn [mbind option_bind].
  destruct (compute_jacobian d TARGET_POS) as [jacp jacr].
  destruct (mtimes _ _) as [xdot|]; [|done]. cbn [mbind option_bind].
  destruct (set_slice _ 0 7 _) as [c1|]; [|done]. cbn [mbind option_bind].
  destruct (set_slice c1 7 14 _) as [c2|]; [|done]. cbn [mbind option_bind].
  destruct (set_slice c2 14 17 _) as [c3|]; [|done]. cbn [mbind option_bind].
  destruct (set_slice c3 17 20 _) as [c4|]; [|done]. cbn [mbind option_bind].
  by intros [= <- <- <-].
Qed.

(** What the sampling branch writes to [q_pos_memory] and [abs_dis_memory]. *)
Lemma sampling_branch_logs s s' :
  sampling_branch s = Some s' →
  ∃ x, hand (data s) = Some x
    ∧ set_row (q_pos_memory s) (sampling_step s) (take 7 (qpos (data s)))
      = Some (q_pos_memory s')
    ∧ set_row (abs_dis_memory s) (sampling_step s) [np_linalg_norm (vsub x TARGET_POS)]
      = Some (abs_dis_memory s').
Proof.
  unfold sampling_branch. cbv zeta.
  destruct (state_loading (data s)) as [[[q x] ctx]|] eqn:E; [|done].
  cbn [mbind option_bind]. apply state_loading_fields in E as [-> Hx].
  destruct (reshape 7 _) as [q7|] eqn:Eq; [|done]. cbn [mbind option_bind].
  assert (q7 = take 7 (qpos (data s))) as ->.
  { unfold reshape in Eq. destruct (_ =? 7); [by injection Eq|done]. }
  destruct (set_row (q_pos_memory s) _ _) as [qm|] eqn:Eqm; [|done]. cbn [mbind option_bind].
  destruct (reshape 3 x) as [x3|]; [|done]. cbn [mbind option_bind].
  destruct (set_row (x_pos_memory s) _ _) as [xm|]; [|done]. cbn [mbind option_bind].
  destruct (set_row (abs_dis_memory s) _ _) as [am|] eqn:Eam; [|done]. cbn [mbind option_bind].
  destruct (set_item0 (single_time_set s) _ _) as [tm|]; [|done]. cbn [mbind option_bind].
  destruct (last _) as [U|]; [|done]. cbn [mbind option_bind].
  destruct (diffusion_horizon_states _ _ _) as [X|]; [|done]. cbn [mbind option_bind].
  destruct (mpc_cost _ _ _ _ _) as [cost|]; [|done]. cbn [mbind option_bind].
  destruct (set_item0 (cost_memory s) _ _) as [cm|]; [|done]. cbn [mbind option_bind].
  destruct (row0 U 0) as [u|]; [|done]. cbn [mbind option_bind].
  destruct (set_row (ctl_memory s) _ _) as [um|]; [|done]. cbn [mbind option_bind].
  destruct (set_ctrl _ _) as [d'|]; [|done]. cbn [mbind option_bind].
  intros [= <-]. cbn [q_pos_memory abs_dis_memory]. by exists x.
Qed.

Lemma loop_body_logs n s :
  (n < SAMPLING_STEPS * CONTROL_RATE)%nat → loop_inv n s → rows_logged s →
  ∃ s', loop_body s n = Some s' ∧ loop_inv (n + 1) s' ∧ rows_logged s'.
Proof.
  intros Hn Inv [Hlog Hzero].
  destruct (loop_body_inv n s Hn Inv) as (s' & Es' & Inv').
  exists s'. split; [done|]. split; [done|].
  pose proof Inv as [Hd Mx Mq Mu Ma Mc Mt Hstep Hcl _].
  unfold loop_body in Es'.
  destruct (n mod CONTROL_RATE =? 0) eqn:Em.
  - apply Nat.eqb_eq in Em.
    assert (sampling_step s = n / CONTROL_RATE)%nat as Hi
      by (rewrite Hstep; unfold CONTROL_RATE in *; nat_divmod).
    assert (sampling_step s < SAMPLING_STEPS)%nat as Hlt
      by (rewrite Hi; unfold CONTROL_RATE, SAMPLING_STEPS in *; nat_divmod).
    assert (sampling_step s * CONTROL_RATE = n)%nat as Hmul
      by (rewrite Hi; unfold CONTROL_RATE in *; nat_divmod).
    destruct (sampling_branch_shaped s Hd Mx Mq Mu Ma Mc Mt Hlt)
      as (q & x & cost & u & d' & Hfacts & Hq & Ed' & Sd' & Ebranch).
    destruct (sampling_branch_logs s _ Ebranch) as (x' & Hx' & Eqm & Eam).
    cbn [q_pos_memory abs_dis_memory] in Eqm, Eam.
    apply (set_row_Some_shaped 7) in Eqm; [|done|done|rewrite length_take; destruct Hd; lia].
    apply (set_row_Some_shaped 1) in Eam; [|done..].
    rewrite Ebranch in Es'. cbn [mbind option_bind] in Es'.
    cbn [data x_pos_memory q_pos_memory ctl_memory abs_dis_memory cost_memory
         single_time_set sampling_step] in Es'.
    assert (∃ dn, s' = mkLoopState dn
                (<[sampling_step s:=x]> (x_pos_memory s))
                (<[sampling_step s:=take 7 (qpos (data s))]> (q_pos_memory s))
                (<[sampling_step s:=u]> (ctl_memory s))
                (<[sampling_step s:=[np_linalg_norm (vsub x' TARGET_POS)]]> (abs_dis_memory s))
                (<[sampling_step s:=[cost]]> (cost_memory s))
                (<[sampling_step s:=[single_t (sampling_step s)]]> (single_time_set s))
                (sampling_step s + 1)) as [dn ->].
    { rewrite <-Eqm, <-Eam. eexists.
      destruct (n =? _); [|by injection Es' as <-].
      destruct (state_loading _); [|done]. by injection Es' as <-. }
    split; cbn [data x_pos_memory q_pos_memory ctl_memory abs_dis_memory cost_memory
                single_time_set sampling_step].
    + intros j Hj. destruct (decide (j = sampling_step s)) as [->|Hne].
      * exists (data s), x'. rewrite Hmul.
        destruct Mq as [Lq _], Ma as [La _].
        rewrite !list_lookup_insert_eq by lia. done.
      * destruct (Hlog j) as (d & y & ? & ? & ? & ?); [lia|].
        exists d, y. rewrite !list_lookup_insert_ne by done. done.
    + intros j Hj Hj'. rewrite !list_lookup_insert_ne by lia. apply Hzero; lia.
  - cbn [mbind option_bind] in Es'.
    assert (∃ dn, s' = mkLoopState dn (x_pos_memory s) (q_pos_memory s) (ctl_memory s)
                         (abs_dis_memory s) (cost_memory s) (single_time_set s)
                         (sampling_step s)) as [dn ->].
    { eexists. destruct (n =? _); [|by injection Es' as <-].
      destruct (state_loading _); [|done]. by injection Es' as <-. }
    split; cbn [data x_pos_memory q_pos_memory ctl_memory abs_dis_memory cost_memory
                single_time_set sampling_step]; done.
Qed.

Lemma loop_logs n :
  (n ≤ SAMPLING_STEPS * CONTROL_RATE)%nat →
  ∃ s0 s, initial_state = Some s0
    ∧ for_each loop_body s0 (range n) = Some s ∧ loop_inv n s ∧ rows_logged s.
Proof.
  intros Hn. destruct initial_state_inv as (s0 & E0 & I0).
  assert (rows_logged s0) as L0.
  { unfold initial_state in E0. cbv zeta in E0.
    destruct (set_qpos _ _) as [d0|]; [|done]. injection E0 as <-.
    split; cbn [data x_pos_memory q_pos_memory ctl_memory abs_dis_memory cost_memory
                single_time_set sampling_step]; [intros j Hj; lia|].
    intros j _ Hj. rewrite !zeros2_lookup by done. done. }
  destruct (for_range_invariant (λ n s, loop_inv n s ∧ rows_logged s) loop_body s0 n)
    as (s & Es & Is & Ls); [done| |by exists s0, s].
  intros i s Hi [Inv Log]. apply loop_body_logs; [lia|done..].
Qed.

(** X5. Before any iteration [n] of the control loop, rows [0 .. sampling_step-1] of
    [q_pos_memory] and [abs_dis_memory] hold, for each sampling tick taken, the first
    seven joint positions of the simulation at that tick and the norm of the difference
    between its hand position and [TARGET_POS]. *)
Theorem control_loop_logs_joints_and_distance (n : nat) :
  (n ≤ SAMPLING_STEPS * CONTROL_RATE)%nat →
  ∃ s0 s, initial_state = Some s0
    ∧ for_each loop_body s0 (range n) = Some s
    ∧ sampling_step s = ((n + (CONTROL_RATE - 1)) / CONTROL_RATE)%nat
    ∧ ∀ j, (j < sampling_step s)%nat →
        ∃ d x, closed_loop first_input (j * CONTROL_RATE) = Some d
          ∧ hand d = Some x
          ∧ q_pos_memory s !! j = Some (take 7 (qpos d))
          ∧ abs_dis_memory s !! j = Some [np_linalg_norm (vsub x TARGET_POS)].
Proof.
  intros Hn. destruct (loop_logs n Hn) as (s0 & s & E0 & Es & Inv & [Hlog _]).
  exists s0, s. split; [done|]. split; [done|]. split; [apply Inv|done].
Qed.

(** X6. A sampling tick writes only its own row of the six memories: before any
    iteration [n] the rows of the ticks still to come are the zeros they were
    allocated with. *)
Theorem control_loop_leaves_later_rows_zero (n : nat) :
  (n ≤ SAMPLING_STEPS * CONTROL_RATE)%nat →
  ∃ s0 s, initial_state = Some s0
    ∧ for_each loop_body s0 (range n) = Some s
    ∧ ∀ j, (sampling_step s ≤ j)%nat → (j < SAMPLING_STEPS)%nat →
        x_pos_memory s !! j = Some (replicate 3 0%Qc)
        ∧ q_pos_memory s !! j = Some (replicate 7 0%Qc)
        ∧ ctl_memory s !! j = Some (replicate 7 0%Qc)
        ∧ abs_dis_memory s !! j = Some [0%Qc]
        ∧ cost_memory s !! j = Some [0%Qc]
        ∧ single_time_set s !! j = Some [0%Qc].
Proof.
  intros Hn. destruct (loop_logs n Hn) as (s0 & s & E0 & Es & Inv & [_ Hzero]).
  by exists s0, s.
Qed.

(** X7. The "final abs distance" that [main] prints, [abs_dis_memory[-1, 0]], is the
    distance to the target at the last sampling tick, iteration
    [(SAMPLING_STEPS-1)*CONTROL_RATE] = 1990: the simulation has been stepped
    [CONTROL_RATE] more times when the loop ends. *)
Theorem final_distance_is_of_last_tick :
  ∃ s0 s d x,
    initial_state = Some s0 ∧ control_loop s0 = Some s
    ∧ closed_loop first_input ((SAMPLING_STEPS - 1) * CONTROL_RATE) = Some d
    ∧ hand d = Some x
    ∧ (last (abs_dis_memory s) ≫= (.!! 0%nat)) = Some (np_linalg_norm (vsub x TARGET_POS))
    ∧ closed_loop first_input ((SAMPLING_STEPS - 1) * CONTROL_RATE + CONTROL_RATE)
      = Some (data s).
Proof.
  destruct (loop_logs (SAMPLING_STEPS * CONTROL_RATE)) as (s0 & s & E0 & Es & Inv & [Hlog _]);
    [done|].
  assert (sampling_step s = SAMPLING_STEPS) as Hstep by (by rewrite (inv_step _ _ Inv)).
  destruct (Hlog (SAMPLING_STEPS - 1)%nat) as (d & x & Ed & Hx & _ & Ea);
    [rewrite Hstep; unfold SAMPLING_STEPS; lia|].
  exists s0, s, d, x. split; [done|]. split; [done|]. split; [done|]. split; [done|].
  split; [|exact (inv_closed _ _ Inv)].
  destruct (inv_abs _ _ Inv) as [Hlen _].
  rewrite last_lookup, Hlen. change (pred SAMPLING_STEPS) with (SAMPLING_STEPS - 1)%nat.
  rewrite Ea. done.
Qed.

(** X8. The one number [main] saves to [cost_.npy] is the sum over the
    [SAMPLING_STEPS] sampling ticks of the cost [mpc_cost] gave the rollout of the
    trajectory sampled at that tick; every such cost is non-negative, and so is the
    total. *)
Theorem saved_cost_is_sum_of_tick_costs :
  ∃ s files (c : nat → Qc),
    main = Some (s, files)
    ∧ files !! 3%nat
      = Some ((RESULTS_SAVED_PATH ++ "/cost_collecting_sample_16/cost_.npy")%string,
              NpyScalar (sum_upto SAMPLING_STEPS c))
    ∧ (∀ j, (j < SAMPLING_STEPS)%nat →
         ∃ d, closed_loop first_input (j * CONTROL_RATE) = Some d
           ∧ tick_cost j d = Some (c j) ∧ (0 ≤ c j)%Qc)
    ∧ (0 ≤ sum_upto SAMPLING_STEPS c)%Qc.
Proof.
  destruct main_saved as (s & Emain & _ & Hlen & Hticks).
  destruct (loop_logs (SAMPLING_STEPS * CONTROL_RATE)) as (s0 & s1 & E0 & Es & Inv & _);
    [done|].
  assert (s1 = s) as ->.
  { unfold main in Emain. cbv zeta in Emain. rewrite E0 in Emain.
    cbn [mbind option_bind] in Emain. unfold control_loop in Emain. rewrite Es in Emain.
    cbn [mbind option_bind] in Emain.
    destruct (last (abs_dis_memory s1)) as [row|]; [|discriminate Emain].
    cbn [mbind option_bind] in Emain.
    destruct (row !! 0%nat); [|discriminate Emain].
    cbn [mbind option_bind] in Emain. by injection Emain as ->. }
  pose (c := λ j, default 0%Qc (cost_memory s !! j ≫= (.!! 0%nat))).
  assert (∀ j, (j < SAMPLING_STEPS)%nat →
            ∃ d, closed_loop first_input (j * CONTROL_RATE) = Some d
              ∧ tick_cost j d = Some (c j) ∧ (0 ≤ c j)%Qc) as Hc.
  { intros j Hj. destruct (Hticks j Hj) as (d & x & cost & Ed & _ & _ & _ & Ec & Em & _).
    exists d. unfold c. rewrite Em. cbn [mbind option_bind lookup list_lookup default].
    split; [done|]. split; [done|]. by eapply tick_cost_nonneg. }
  eexists s, _, c. split; [exact Emain|]. split.
  - cbn [lookup list_lookup]. do 2 f_equal. f_equal.
    rewrite np_sum_singletons by apply (inv_cost _ _ Inv). by rewrite Hlen.
  - split; [exact Hc|]. apply sum_upto_nonneg. intros j Hj.
    by destruct (Hc j Hj) as (d & _ & _ & ?).
Qed.

End logs.

End LoopMore.

(** ** The memories in the toy world *)
Module ToyLogs.
Import Panda Spec Toy RolloutProofs LoopProofs LoopMore.

Lemma control_loop_logs_joints_and_distance_witness :
  (25 ≤ SAMPLING_STEPS * CONTROL_RATE)%nat
  ∧ ∃ s0 s, initial_state = Some s0
    ∧ for_each loop_body s0 (range 25) = Some s
    ∧ sampling_step s = ((25 + (CONTROL_RATE - 1)) / CONTROL_RATE)%nat
    ∧ ∀ j, (j < sampling_step s)%nat →
        ∃ d x, closed_loop first_input (j * CONTROL_RATE) = Some d
          ∧ hand d = Some x
          ∧ q_pos_memory s !! j = Some (take 7 (qpos d))
          ∧ abs_dis_memory s !! j = Some [np_linalg_norm (vsub x TARGET_POS)].
Proof.
  assert (25 ≤ SAMPLING_STEPS * CONTROL_RATE)%nat as Hn
    by (unfold SAMPLING_STEPS, CONTROL_RATE; lia).
  split; [exact Hn|].
  exact (control_loop_logs_joints_and_distance (H0 := toy_shapes) (H2 := toy_diffusion_shapes)
           (H3 := toy_measured) 25 Hn).
Defined.

Lemma control_loop_leaves_later_rows_zero_witness :
  (25 ≤ SAMPLING_STEPS * CONTROL_RATE)%nat
  ∧ ∃ s0 s, initial_state = Some s0
    ∧ for_each loop_body s0 (range 25) = Some s
    ∧ ∀ j, (sampling_step s ≤ j)%nat → (j < SAMPLING_STEPS)%nat →
        x_pos_memory s !! j = Some (replicate 3 0%Qc)
        ∧ q_pos_memory s !! j = Some (replicate 7 0%Qc)
        ∧ ctl_memory s !! j = Some (replicate 7 0%Qc)
        ∧ abs_dis_memory s !! j = Some [0%Qc]
        ∧ cost_memory s !! j = Some [0%Qc]
        ∧ single_time_set s !! j = Some [0%Qc].
Proof.
  assert (25 ≤ SAMPLING_STEPS * CONTROL_RATE)%nat as Hn
    by (unfold SAMPLING_STEPS, CONTROL_RATE; lia).
  split; [exact Hn|].
  exact (control_loop_leaves_later_rows_zero (H0 := toy_shapes) (H2 := toy_diffusion_shapes)
           (H3 := toy_measured) 25 Hn).
Defined.

Lemma final_distance_is_of_last_tick_witness :
  ∃ s0 s d x,
    initial_state = Some s0 ∧ control_loop s0 = Some s
    ∧ closed_loop first_input ((SAMPLING_STEPS - 1) * CONTROL_RATE) = Some d
    ∧ hand d = Some x
    ∧ (last (abs_dis_memory s) ≫= (.!! 0%nat)) = Some (np_linalg_norm (vsub x TARGET_POS))
    ∧ closed_loop first_input ((SAMPLING_STEPS - 1) * CONTROL_RATE + CONTROL_RATE)
      = Some (data s).
Proof.
  exact (final_distance_is_of_last_tick (H0 := toy_shapes) (H2 := toy_diffusion_shapes)
           (H3 := toy_measured)).
Defined.

Lemma saved_cost_is_sum_of_tick_costs_witness :
  ∃ s files (c : nat → Qc),
    main = Some (s, files)
    ∧ files !! 3%nat
      = Some ((RESULTS_SAVED_PATH ++ "/cost_collecting_sample_16/cost_.npy")%string,
              NpyScalar (sum_upto SAMPLING_STEPS c))
    ∧ (∀ j, (j < SAMPLING_STEPS)%nat →
         ∃ d, closed_loop first_input (j * CONTROL_RATE) = Some d
           ∧ tick_cost j d = Some (c j) ∧ (0 ≤ c j)%Qc)
    ∧ (0 ≤ sum_upto SAMPLING_STEPS c)%Qc.
Proof.
  exact (saved_cost_is_sum_of_tick_costs (H0 := toy_shapes) (H2 := toy_diffusion_shapes)
           (H3 := toy_measured)).
Defined.

End ToyLogs.

(** ** The three functions that build the 20-entry state *)
Module HelperProofs.
Import Panda Spec PandaMore ArrayFacts ContextProofs RolloutProofs LoopProofs.

Section helpers.
Context `{MuJoCo}.

(** X9. [state_updating] and [state_loading] compute the same three results on every
    simulation state, and [generating_ini_state] is [state_loading] on the state
    reached by writing the given joint positions and advancing the physics by one
    step: the positions it returns are those after the step, not the ones given. *)
Theorem state_functions_agree (d : MjData) (ini_joint_states : vector) :
  state_updating d = state_loading d
  ∧ generating_ini_state d ini_joint_states
    = (d' ← set_qpos d ini_joint_states;
       r ← state_loading (mj_step d');
       Some (mj_step d', r)).
Proof.
  split; [reflexivity|].
  unfold generating_ini_state, state_loading. cbv zeta.
  destruct (set_qpos d ini_joint_states) as [d'|]; [|done]. cbn [mbind option_bind].
  destruct (xpos (mj_step d') !! 9%nat) as [x|]; [|done]. cbn [mbind option_bind].
  destruct (compute_jacobian (mj_step d') TARGET_POS) as [jacp jacr].
  destruct (mtimes _ _) as [xdot|]; [|done]. cbn [mbind option_bind].
  destruct (set_slice _ 0 7 _) as [c1|]; [|done]. cbn [mbind option_bind].
  destruct (set_slice c1 7 14 _) as [c2|]; [|done]. cbn [mbind option_bind].
  destruct (set_slice c2 14 17 _) as [c3|]; [|done]. cbn [mbind option_bind].
  destruct (set_slice c3 17 20 _) as [c4|]; done.
Qed.

End helpers.

Section initial.
Context `{MuJoCoShapes, Diffusion, Measured}.

(** X10. The initialisation that [main] writes out is the one of
    [generating_ini_state] on a fresh simulation and the zero joint configuration: the
    call returns, and the simulation it leaves is the one the control loop starts
    from; the state it returns is the context that the first sampling tick reads, a
    row of twenty entries that starts with the seven joint positions it returns. *)
Theorem initial_state_is_generating_ini_state :
  ∃ s0 q0_pos x0_pos x0,
    initial_state = Some s0
    ∧ generating_ini_state MjData_new (replicate 7 0%Qc) = Some (data s0, (q0_pos, x0_pos, x0))
    ∧ state_loading (data s0) = Some (q0_pos, x0_pos, x0)
    ∧ length x0 = 20%nat ∧ take 7 x0 = q0_pos ∧ q0_pos = take 7 (qpos (data s0))
    ∧ sampling_step s0 = 0%nat.
Proof.
  destruct (set_qpos_shaped MjData_new (replicate 7 0%Qc) new_shaped) as (d0 & E0 & S0 & _);
    [done|].
  pose proof (step_shaped d0 S0) as S1.
  pose proof S1 as (Hq & Hv & _ & (x & y & z & Hx)).
  destruct (mj_jac (mj_step d0) TARGET_POS 9) as [jacp jacr] eqn:Ej.
  destruct (jac_shaped (mj_step d0) TARGET_POS 9) as [Hlen Hrows]. rewrite Ej in Hlen, Hrows.
  cbn [fst] in Hlen, Hrows.
  pose proof (state_loading_shaped (mj_step d0) x y z jacp jacr Hq Hv Hx Ej Hrows Hlen) as El.
  eexists (mkLoopState (mj_step d0) _ _ _ _ _ _ 0), _, _, _.
  split; [unfold initial_state; cbv zeta; rewrite E0; reflexivity|]. cbn [data sampling_step].
  split.
  { rewrite (proj2 (state_functions_agree MjData_new (replicate 7 0%Qc))), E0.
    cbn [mbind option_bind]. rewrite El. reflexivity. }
  split; [exact El|].
  split; [rewrite !length_app, !length_take, length_map, Hlen; cbn [length]; lia|].
  split; [|done]. rewrite take_app_length'; [done|]. rewrite length_take. lia.
Qed.

End initial.

Lemma initial_state_is_generating_ini_state_witness :
  ∃ s0 q0_pos x0_pos x0,
    initial_state (H := Toy.toy_mujoco) = Some s0
    ∧ generating_ini_state (H := Toy.toy_mujoco) (MjData_new (MuJoCo := Toy.toy_mujoco))
        (replicate 7 0%Qc)
      = Some (data s0, (q0_pos, x0_pos, x0))
    ∧ state_loading (H := Toy.toy_mujoco) (data s0) = Some (q0_pos, x0_pos, x0)
    ∧ length x0 = 20%nat ∧ take 7 x0 = q0_pos ∧ q0_pos = take 7 (qpos (data s0))
    ∧ sampling_step s0 = 0%nat.
Proof.
  exact (initial_state_is_generating_ini_state (H0 := toy_shapes)).
Defined.

End HelperProofs.

(** ** More on the training loop *)
Module TrainingMore.
Import Train TrainMore NetworkProofs TrainingProofs.

(** Averaging a model with itself gives it back (in exact arithmetic). *)
Lemma update_model_average_self (self : EMA) (m : module) :
  update_model_average self m m = m.
Proof.
  unfold update_model_average. rewrite drop_all, app_nil_r, zip_with_diag.
  rewrite <-(list_fmap_id m) at 2. apply list_fmap_ext. intros _ t _. cbv zeta.
  rewrite update_average_Some, zip_with_diag. destruct t as [sh fl]. cbn [shape flat id].
  f_equal. rewrite <-(list_fmap_id fl) at 2. apply list_fmap_ext. intros _ o _.
  unfold id. ring.
Qed.

Lemma pass_steps_0 max_steps k : pass_steps max_steps k 0 = k.
Proof.
  unfold pass_steps. destruct max_steps as [m|]; [|lia].
  destruct (Nat.ltb_spec k m), (Nat.leb_spec m (k + 0)); cbn [andb]; lia.
Qed.

Lemma pass_steps_hit k n : pass_steps (Some (S k)) k (S n) = S k.
Proof.
  unfold pass_steps.
  destruct (Nat.ltb_spec k (S k)), (Nat.leb_spec (S k) (k + S n)); cbn [andb]; lia.
Qed.

Lemma pass_steps_miss max_steps k n :
  is_step max_steps (S k) = false →
  pass_steps max_steps (S k) n = pass_steps max_steps k (S n).
Proof.
  unfold pass_steps, is_step. destruct max_steps as [m|]; [|lia].
  intros Hm. apply Nat.eqb_neq in Hm.
  destruct (Nat.ltb_spec (S k) m), (Nat.leb_spec m (S k + n)),
           (Nat.ltb_spec k m), (Nat.leb_spec m (k + S n)); cbn [andb]; lia.
Qed.

Section training.
Context `{TorchShapes, LoadersShapes}.

Lemma full_batch_runs (model : module) b :
  is_AMPCNet input_size output_size model → full_batch b →
  ∃ outputs loss,
    forward model (condition_normalized b) = Some outputs
    ∧ criterion outputs (inputs_normalized b) = Some loss.
Proof.
  intros Hnet [Hc Ht].
  destruct (forward_shapes model (condition_normalized b) Hnet) as [_ Hok].
  destruct (Hok [512%nat]) as (y & Ey & Hy); [done|reflexivity|].
  destruct (criterion_defined y (inputs_normalized b)) as [loss El]; [by rewrite Hy, Ht|].
  by exists y, loss.
Qed.

Lemma validation_runs (model : module) val :
  is_AMPCNet input_size output_size model →
  Forall full_batch (take (steps_per_validation + 1) val) →
  is_Some (validation model val).
Proof.
  intros Hnet Hval. unfold validation. apply mapM_is_Some.
  eapply Forall_impl; [exact Hval|]. intros b Hb. unfold compose. cbv beta zeta.
  destruct (full_batch_runs model b Hnet Hb) as (y & loss & -> & El).
  cbn [mbind option_bind]. by eexists.
Qed.

Lemma train_step_runs s b :
  is_AMPCNet input_size output_size (model s) → full_batch b →
  ∃ s', train_step s b = Some s'
    ∧ is_AMPCNet input_size output_size (model s')
    ∧ train_steps_current s' = S (train_steps_current s).
Proof.
  intros Hnet Hb. destruct (full_batch_runs (model s) b Hnet Hb) as (y & loss & Ey & El).
  assert (∃ tl vl,
    (if train_steps_current s mod steps_til_summary =? 0
     then
       let train_losses_l := train_losses_l s ++ [train_steps_current s] in
       match val_dataloader with
       | Some val =>
           val_losses ← validation (model s) val;
           Some (train_losses_l, validation_losses_l s ++ [(train_steps_current s, val_losses)])
       | None => Some (train_losses_l, validation_losses_l s)
       end
     else Some (train_losses_l s, validation_losses_l s)) = Some (tl, vl)) as (tl & vl & Esum).
  { destruct (_ =? 0); [|by eexists _, _]. cbv zeta.
    destruct val_dataloader as [val|] eqn:Ev; [|by eexists _, _].
    destruct (validation_runs (model s) val Hnet (val_full val Ev)) as [l ->].
    cbn [mbind option_bind]. by eexists _, _. }
  cbv zeta in Esum.
  unfold train_step. cbv zeta. rewrite Ey. cbn [mbind option_bind].
  rewrite El. cbn [mbind option_bind]. rewrite Esum. cbn [mbind option_bind].
  pose proof (optimizer_shaped (optimizers s) (model s) (condition_normalized b)
                (inputs_normalized b) Hnet) as Hopt.
  destruct (optimizer_step _ _ _ _) as [opt' model']. cbn [snd] in Hopt.
  eexists. split; [reflexivity|]. cbn [model train_steps_current]. split; [done|lia].
Qed.

(** A pass over the loader returns, with the step count [pass_steps] gives. *)
Lemma batches_loop_runs max_steps step items s :
  is_AMPCNet input_size output_size (model s) →
  (step + length items = len_train_dataloader)%nat →
  Forall full_batch (take (length items - 1) items) →
  ∃ s', batches_loop max_steps step items s = Some s'
    ∧ is_AMPCNet input_size output_size (model s')
    ∧ train_steps_current s'
      = pass_steps max_steps (train_steps_current s) (length items - 1).
Proof.
  revert step s. induction items as [|b items IH]; intros step s Hnet Hlen Hfull.
  { exists s. cbn [batches_loop length]. by rewrite pass_steps_0. }
  cbn [batches_loop]. cbn [length] in *.
  destruct (Z.of_nat step =? Z.of_nat len_train_dataloader - 1)%Z eqn:E.
  - apply Z.eqb_eq in E. assert (length items = 0%nat) as -> by lia.
    exists s. cbn [Nat.sub]. by rewrite pass_steps_0.
  - apply Z.eqb_neq in E.
    destruct items as [|b' items']; [cbn [length] in *; lia|].
    replace (S (length (b' :: items')) - 1)%nat with (S (length (b' :: items') - 1)) in *
      by (cbn [length]; lia).
    cbn [take] in Hfull. apply Forall_cons in Hfull as [Hb Hfull].
    destruct (train_step_runs s b Hnet Hb) as (s1 & -> & Hnet1 & Hsteps1).
    cbn [mbind option_bind stop_training orb].
    destruct (is_step max_steps (train_steps_current s1)) eqn:Estop.
    + exists s1. split; [done|]. split; [done|].
      unfold is_step in Estop. destruct max_steps as [m|]; [|done].
      apply Nat.eqb_eq in Estop. rewrite Hsteps1 in Estop. subst m.
      rewrite Hsteps1. symmetry. apply pass_steps_hit.
    + destruct (IH (step + 1)%nat s1 Hnet1) as (s' & Es' & Hnet' & Hsteps');
        [cbn [length] in *; lia|done|].
      exists s'. split; [done|]. split; [done|].
      rewrite Hsteps', Hsteps1. apply pass_steps_miss. by rewrite <-Hsteps1.
Qed.

(** The epochs from a state whose step count has not reached [m >= 1]. *)
Lemma epochs_loop_runs_below m todo s :
  is_AMPCNet input_size output_size (model s) →
  (train_steps_current s < m)%nat →
  ∃ s', epochs_loop (Some m) todo s = Some s'
    ∧ is_AMPCNet input_size output_size (model s')
    ∧ train_steps_current s'
      = (m `min` (train_steps_current s + length todo * (len_train_dataloader - 1)))%nat.
Proof.
  revert s. induction todo as [|epoch todo IH]; intros s Hnet Hlt.
  { exists s. cbn [epochs_loop length]. split; [done|]. split; [done|lia]. }
  cbn [epochs_loop length].
  destruct (batches_loop_runs (Some m) 0 (train_dataloader epoch) s Hnet)
    as (s1 & -> & Hnet1 & Hsteps1).
  { by rewrite train_length. }
  { rewrite train_length. apply train_full. }
  cbn [mbind option_bind]. rewrite train_length in Hsteps1.
  unfold pass_steps in Hsteps1. cbn [is_step].
  destruct (Nat.eqb_spec m (train_steps_current s1)) as [Em|Em].
  - exists s1. split; [done|]. split; [done|].
    destruct (Nat.ltb_spec (train_steps_current s) m),
             (Nat.leb_spec m (train_steps_current s + (len_train_dataloader - 1)));
      cbn [andb] in Hsteps1; nia.
  - destruct (IH s1 Hnet1) as (s' & Es' & Hnet' & Hsteps').
    { destruct (Nat.ltb_spec (train_steps_current s) m),
               (Nat.leb_spec m (train_steps_current s + (len_train_dataloader - 1)));
        cbn [andb] in Hsteps1; lia. }
    exists s'. split; [done|]. split; [done|]. rewrite Hsteps'.
    destruct (Nat.ltb_spec (train_steps_current s) m),
             (Nat.leb_spec m (train_steps_current s + (len_train_dataloader - 1)));
      cbn [andb] in Hsteps1; nia.
Qed.

(** The epochs when no limit can be hit: no [max_steps], or a step count that is
    already at or past it. *)
Lemma epochs_loop_runs_free max_steps todo s :
  is_AMPCNet input_size output_size (model s) →
  (∀ m, max_steps = Some m → (m ≤ train_steps_current s)%nat) →
  ∃ s', epochs_loop max_steps todo s = Some s'
    ∧ is_AMPCNet input_size output_size (model s')
    ∧ train_steps_current s'
      = (train_steps_current s + length todo * (len_train_dataloader - 1))%nat.
Proof.
  revert s. induction todo as [|epoch todo IH]; intros s Hnet Hfree.
  { exists s. cbn [epochs_loop length]. split; [done|]. split; [done|lia]. }
  cbn [epochs_loop length].
  destruct (batches_loop_runs max_steps 0 (train_dataloader epoch) s Hnet)
    as (s1 & -> & Hnet1 & Hsteps1).
  { by rewrite train_length. }
  { rewrite train_length. apply train_full. }
  cbn [mbind option_bind]. rewrite train_length in Hsteps1.
  assert (train_steps_current s1
          = train_steps_current s + (len_train_dataloader - 1))%nat as Hs1.
  { rewrite Hsteps1. unfold pass_steps. destruct max_steps as [m|]; [|done].
    specialize (Hfree m eq_refl).
    destruct (Nat.ltb_spec (train_steps_current s) m); cbn [andb]; [lia|done]. }
  destruct (is_step max_steps (train_steps_current s1)) eqn:Estop.
  - unfold is_step in Estop. destruct max_steps as [m|]; [|done].
    apply Nat.eqb_eq in Estop. specialize (Hfree m eq_refl).
    exists s1. split; [done|]. split; [done|].
    assert (len_train_dataloader - 1 = 0)%nat as -> by lia. lia.
  - destruct (IH s1 Hnet1) as (s' & Es' & Hnet' & Hsteps').
    { intros m ->. specialize (Hfree m eq_refl). lia. }
    exists s'. split; [done|]. split; [done|]. rewrite Hsteps', Hs1. lia.
Qed.

Lemma training_runs max_steps model0 optimizers0 :
  is_AMPCNet input_size output_size model0 →
  ∃ r, training max_steps model0 optimizers0 = Some r
    ∧ is_AMPCNet input_size output_size (model r)
    ∧ train_steps_current r
      = match max_steps with
        | Some (S m) => (S m `min` (epochs * (len_train_dataloader - 1)))%nat
        | _ => (epochs * (len_train_dataloader - 1))%nat
        end.
Proof.
  intros Hnet. set (s0 := mkTrainState model0 (Some model0) optimizers0 0 [] []).
  assert (∃ s, epochs_loop max_steps (range epochs) s0 = Some s
            ∧ is_AMPCNet input_size output_size (model s)
            ∧ train_steps_current s
              = match max_steps with
                | Some (S m) => (S m `min` (epochs * (len_train_dataloader - 1)))%nat
                | _ => (epochs * (len_train_dataloader - 1))%nat
                end) as (s & Es & Hs & Hsteps).
  { assert (length (range epochs) = epochs) as Hlen by (unfold range; apply length_seq).
    destruct max_steps as [[|m]|].
    - destruct (epochs_loop_runs_free (Some 0%nat) (range epochs) s0 Hnet) as (s & ? & ? & Hk).
      { intros m [= <-]. cbn. lia. }
      exists s. rewrite Hk, Hlen. done.
    - destruct (epochs_loop_runs_below (S m) (range epochs) s0 Hnet) as (s & ? & ? & Hk).
      { cbn. lia. }
      exists s. rewrite Hk, Hlen. done.
    - destruct (epochs_loop_runs_free None (range epochs) s0 Hnet) as (s & ? & ? & Hk); [done|].
      exists s. rewrite Hk, Hlen. done. }
  unfold training. cbn [use_ema]. cbv zeta. fold s0. rewrite Es. cbn [mbind option_bind].
  eexists. split; [reflexivity|]. cbn [model train_steps_current]. done.
Qed.



End training.

Section warmup.
Context `{Torch, Loaders}.

(** X13. While the step count is below [step_start_ema] the EMA model is only a copy:
    a training step at a count that is a multiple of [update_ema_every] leaves it
    equal to the model just optimised, and if training ends before [step_start_ema]
    steps the EMA model at the end is the final model (in exact arithmetic, where
    [m*beta + (1-beta)*m] is [m]). *)
Theorem ema_is_model_during_warmup (max_steps : option nat) :
  (∀ s b s',
     train_step s b = Some s' → is_Some (ema_model s) →
     (train_steps_current s mod update_ema_every = 0)%nat →
     (train_steps_current s < step_start_ema)%nat →
     ema_model s' = Some (model s'))
  ∧ (∀ model0 optimizers0 r,
       training max_steps model0 optimizers0 = Some r →
       (train_steps_current r < step_start_ema)%nat →
       ema_model r = Some (model r)).
Proof.
  split.
  - intros s b s' Hs' [e He] Hmod Hlt. apply train_step_ema in Hs' as [_ ->].
    rewrite He. cbn [fmap option_fmap option_map].
    apply Nat.eqb_eq in Hmod. rewrite Hmod. apply Nat.ltb_lt in Hlt. rewrite Hlt.
    by rewrite update_model_average_self.
  - intros model0 optimizers0 r Hr Hlt.
    apply training_final in Hr as (s & e & _ & _ & Hm & Hk & ->).
    rewrite Hk in Hlt. apply Nat.ltb_lt in Hlt. rewrite Hlt, update_model_average_self.
    by rewrite Hm.
Qed.

End warmup.

(** The toy world satisfies the conditions. *)
Lemma toy_torch_shapes : TorchShapes (H := Toy.toy_torch).
Proof.
  split.
  - intros outputs targets Hsh. cbn [criterion Toy.toy_torch]. unfold Toy.toy_criterion.
    rewrite decide_True by done. by eexists.
  - intros o m x y Hnet. cbn [optimizer_step Toy.toy_torch snd].
    unfold is_AMPCNet in *. apply Forall2_fmap_l.
    eapply Forall2_impl; [exact Hnet|]. intros p sh [Hsh Hlen].
    split; cbn [shape flat]; [done|]. by rewrite length_map.
Qed.

Lemma toy_loaders_shapes : LoadersShapes (H := Toy.toy_loaders).
Proof.
  split.
  - done.
  - intros epoch. cbn [train_dataloader len_train_dataloader Toy.toy_loaders Nat.sub take].
    repeat apply Forall_cons_2; [done..|apply Forall_nil_2].
  - intros val [=].
Qed.



Lemma ema_is_model_during_warmup_witness :
  ∃ r, training (H := Toy.toy_torch) (H0 := Toy.toy_loaders) None (Toy.toy_net 0%Qc) [0%Qc]
       = Some r
    ∧ (train_steps_current r < step_start_ema)%nat
    ∧ ema_model r = Some (model r).
Proof.
  destruct (training_runs (H0 := toy_torch_shapes) (H2 := toy_loaders_shapes)
              None (Toy.toy_net 0%Qc) [0%Qc] (toy_net_is_AMPCNet 0%Qc))
    as (r & Er & _ & Hsteps).
  assert (train_steps_current r < step_start_ema)%nat as Hlt
    by (rewrite Hsteps; vm_compute; lia).
  exists r. split; [exact Er|]. split; [exact Hlt|].
  exact (proj2 (ema_is_model_during_warmup (H := Toy.toy_torch) (H0 := Toy.toy_loaders) None)
           (Toy.toy_net 0%Qc) [0%Qc] r Er Hlt).
Defined.

End TrainingMore.

(** ** Summaries, validation and the moving average *)
Module SummaryMore.
Import Train TrainMore NetworkProofs TrainingProofs TrainingMore.

(** The multiples of [steps_til_summary] below one more step. *)
Lemma summary_steps_S k :
  filter (λ j, j mod steps_til_summary = 0)%nat (seq 0 (S k))
  = filter (λ j, j mod steps_til_summary = 0)%nat (seq 0 k)
    ++ (if k mod steps_til_summary =? 0 then [k] else []).
Proof.
  rewrite seq_S, filter_app. f_equal. cbn [Nat.add].
  destruct (Nat.eqb_spec (k mod steps_til_summary) 0) as [E|E].
  - by rewrite filter_cons_True.
  - by rewrite filter_cons_False.
Qed.

Section summary.
Context `{Torch, Loaders}.

(** What the summary block of one step appends. *)
Lemma train_step_summary s b s' :
  train_step s b = Some s' →
  train_losses_l s'
  = train_losses_l s
    ++ (if train_steps_current s mod steps_til_summary =? 0
        then [train_steps_current s] else [])
  ∧ match val_dataloader with
    | None => validation_losses_l s' = validation_losses_l s
    | Some val =>
        if train_steps_current s mod steps_til_summary =? 0
        then ∃ l, validation (model s) val = Some l
               ∧ validation_losses_l s'
                 = validation_losses_l s ++ [(train_steps_current s, l)]
        else validation_losses_l s' = validation_losses_l s
    end.
Proof.
  unfold train_step. cbv zeta.
  destruct (forward _ _) as [outputs|]; [|done]. cbn [mbind option_bind].
  destruct (criterion _ _) as [loss|]; [|done]. cbn [mbind option_bind].
  destruct (train_steps_current s mod steps_til_summary =? 0).
  - destruct val_dataloader as [val|].
    + destruct (validation (model s) val) as [l|]; [|done]. cbn [mbind option_bind].
      destruct (optimizer_step _ _ _ _) as [opt' model'].
      intros [= <-]. cbn [train_losses_l validation_losses_l]. split; [done|by exists l].
    + cbn [mbind option_bind]. destruct (optimizer_step _ _ _ _) as [opt' model'].
      by intros [= <-].
  - cbn [mbind option_bind]. destruct (optimizer_step _ _ _ _) as [opt' model'].
    intros [= <-]. cbn [train_losses_l validation_losses_l]. rewrite app_nil_r.
    by destruct val_dataloader.
Qed.

(** What is true of the state before the loops and kept by every step is true after. *)
Lemma batches_loop_preserves (P : TrainState → Prop) max_steps step items s s' :
  (∀ s b s', P s → train_step s b = Some s' → P s') →
  P s → batches_loop max_steps step items s = Some s' → P s'.
Proof.
  intros Hstep. revert step s. induction items as [|b items IH]; intros step s Hs;
    cbn [batches_loop].
  - by intros [= <-].
  - destruct (_ =? _)%Z; [by intros [= <-]|].
    destruct (train_step s b) as [s1|] eqn:E; [|done]. cbn [mbind option_bind].
    apply (Hstep _ _ _ Hs) in E.
    destruct (_ || _); [by intros [= <-]|]. by apply IH.
Qed.

Lemma epochs_loop_preserves (P : TrainState → Prop) max_steps todo s s' :
  (∀ s b s', P s → train_step s b = Some s' → P s') →
  P s → epochs_loop max_steps todo s = Some s' → P s'.
Proof.
  intros Hstep. revert s. induction todo as [|epoch todo IH]; intros s Hs;
    cbn [epochs_loop].
  - by intros [= <-].
  - destruct (batches_loop _ _ _ s) as [s1|] eqn:E; [|done]. cbn [mbind option_bind].
    apply (batches_loop_preserves P _ _ _ _ _ Hstep Hs) in E.
    destruct (is_step _ _); [by intros [= <-]|]. by apply IH.
Qed.

Lemma training_preserves (P : TrainState → Prop) max_steps model0 optimizers0 r :
  (∀ s b s', P s → train_step s b = Some s' → P s') →
  (∀ s e, P s → P (mkTrainState (model s) e (optimizers s) (train_steps_current s)
                     (train_losses_l s) (validation_losses_l s))) →
  P (mkTrainState model0 (Some model0) optimizers0 0 [] []) →
  training max_steps model0 optimizers0 = Some r → P r.
Proof.
  intros Hstep Hema Hinit. unfold training. cbn [use_ema]. cbv zeta.
  destruct (epochs_loop _ _ _) as [s|] eqn:Es; [|done]. cbn [mbind option_bind].
  apply (epochs_loop_preserves P _ _ _ _ Hstep Hinit) in Es.
  intros [= <-]. by apply Hema.
Qed.

(** X14. The summary runs at the steps whose count is a multiple of
    [steps_til_summary], the first of them step 0: when the script ends,
    [train_losses_l] holds exactly those counts below the final one, in order; without
    a validation loader [validation_losses_l] stays empty, and with a (non-empty) one
    it holds an entry for each of the same counts, each with the losses of
    [min(len(val_dataloader), steps_per_validation + 1)] batches. *)
Theorem summary_schedule max_steps model0 optimizers0 r :
  training max_steps model0 optimizers0 = Some r →
  train_losses_l r
  = filter (λ j, j mod steps_til_summary = 0)%nat (seq 0 (train_steps_current r))
  ∧ (val_dataloader = None → validation_losses_l r = [])
  ∧ (∀ val, val_dataloader = Some val → val ≠ [] →
       (validation_losses_l r).*1 = train_losses_l r
       ∧ Forall (λ p, length p.2 = (length val `min` (steps_per_validation + 1))%nat)
           (validation_losses_l r)).
Proof.
  apply (training_preserves (λ r,
    train_losses_l r
    = filter (λ j, j mod steps_til_summary = 0)%nat (seq 0 (train_steps_current r))
    ∧ (val_dataloader = None → validation_losses_l r = [])
    ∧ (∀ val, val_dataloader = Some val → val ≠ [] →
         (validation_losses_l r).*1 = train_losses_l r
         ∧ Forall (λ p, length p.2 = (length val `min` (steps_per_validation + 1))%nat)
             (validation_losses_l r)))).
  - intros s b s' (Ht & Hnone & Hsome) Hs'.
    pose proof (train_step_ema s b s' Hs') as [Hk _].
    apply train_step_summary in Hs' as [Ht' Hv'].
    split; [by rewrite Hk, summary_steps_S, Ht', Ht|]. split.
    + intros Ev. rewrite Ev in Hv'. rewrite Hv'. by apply Hnone.
    + intros val Ev Hne. rewrite Ev in Hv'. destruct (Hsome val Ev Hne) as [Hfst Hlen].
      rewrite Ht'. destruct (train_steps_current s mod steps_til_summary =? 0).
      * destruct Hv' as (l & El & ->). rewrite fmap_app, Hfst. split; [done|].
        apply Forall_app. split; [done|]. apply Forall_singleton. cbn [snd].
        unfold validation in El. apply length_mapM in El. rewrite <-El, length_take. lia.
      * rewrite Hv', app_nil_r. done.
  - intros s e Hs. exact Hs.
  - cbn [train_losses_l validation_losses_l train_steps_current seq filter].
    split; [done|]. split; [done|]. intros val _ _. split; [done|apply Forall_nil_2].
Qed.

(** X15. The validation loop with its [break] after the batch of index
    [steps_per_validation] computes the losses of the first
    [steps_per_validation + 1] = 11 batches of the loader, or of all of them if there
    are fewer, and raises if one of those raises. *)
Theorem validation_reads_at_most_eleven (model : module) (val : list batch) :
  validation_loop model 0 val [] = validation model val
  ∧ ∀ l, validation_loop model 0 val [] = Some l →
      length l = (length val `min` 11)%nat.
Proof.
  assert (∀ items k acc, (k ≤ steps_per_validation)%nat →
            validation_loop model k items acc
            = (l ← mapM (λ b, outputs ← forward model (condition_normalized b);
                              criterion outputs (inputs_normalized b))
                     (take (steps_per_validation + 1 - k) items);
               Some (acc ++ l))) as Hloop.
  { induction items as [|b items IH]; intros k acc Hk.
    { cbn [validation_loop]. rewrite take_nil. cbn. by rewrite app_nil_r. }
    cbn [validation_loop]. cbv zeta.
    replace (steps_per_validation + 1 - k)%nat with (S (steps_per_validation - k)) by lia.
    cbn [take mapM].
    destruct (forward model _) as [outputs|]; [|done]. cbn [mbind option_bind].
    destruct (criterion _ _) as [loss|]; [|done]. cbn [mbind option_bind].
    destruct (Nat.eqb_spec k steps_per_validation) as [->|Hne].
    - rewrite Nat.sub_diag. cbn [take mapM mbind option_bind mret option_ret]. done.
    - rewrite IH by lia.
      replace (steps_per_validation + 1 - (k + 1))%nat with (steps_per_validation - k)%nat by lia.
      destruct (mapM _ _) as [l|]; [|done].
      cbn [mbind option_bind mret option_ret]. by rewrite <-app_assoc. }
  assert (validation_loop model 0 val [] = validation model val) as Heq.
  { rewrite Hloop by lia. rewrite Nat.sub_0_r. unfold validation. cbv zeta.
    destruct (mapM _ _); done. }
  split; [exact Heq|]. intros l. rewrite Heq. unfold validation. intros Hl.
  apply length_mapM in Hl. rewrite <-Hl, length_take. unfold steps_per_validation. lia.
Qed.

End summary.

Lemma summary_schedule_witness :
  ∃ r, training (H := Toy.toy_torch) (H0 := Toy.toy_loaders) None (Toy.toy_net 0%Qc) [0%Qc]
       = Some r
    ∧ train_losses_l r
      = filter (λ j, j mod steps_til_summary = 0)%nat (seq 0 (train_steps_current r))
    ∧ validation_losses_l r = [].
Proof.
  destruct (training_runs (H0 := toy_torch_shapes) (H2 := toy_loaders_shapes)
              None (Toy.toy_net 0%Qc) [0%Qc] (toy_net_is_AMPCNet 0%Qc))
    as (r & Er & _ & _).
  exists r. split; [exact Er|].
  destruct (summary_schedule (H := Toy.toy_torch) (H0 := Toy.toy_loaders) None
              (Toy.toy_net 0%Qc) [0%Qc] r Er) as (Ht & Hnone & _).
  split; [exact Ht|]. apply Hnone. reflexivity.
Defined.

End SummaryMore.

(** ** The exponential moving average *)
Module EmaProofs.
Import Train TrainingProofs.
Local Open Scope Qc_scope.









End EmaProofs.

(** ** Checkpoints *)
Module CheckpointProofs.
Import Train TrainMore Panda PandaMore.

Lemma os_path_join_inj dir a b : os_path_join dir a = os_path_join dir b → a = b.
Proof.
  unfold os_path_join. intros Hab. apply (inj (String.append dir)) in Hab.
  by injection Hab.
Qed.

Lemma save_model_to_disk_files model epoch total_steps dir prefix :
  save_model_to_disk model None epoch total_steps dir prefix
  = [ (os_path_join dir (prefix +:+ "current_state_dict.pth"), StateDict model);
      (os_path_join dir
         (prefix +:+ "epoch_" +:+ format_0d 4 epoch +:+ "_iter_" +:+ format_0d 6 total_steps
          +:+ "_state_dict.pth"), StateDict model);
      (os_path_join dir (prefix +:+ "current.pth"), Pickled model);
      (os_path_join dir
         (prefix +:+ "epoch_" +:+ format_0d 4 epoch +:+ "_iter_" +:+ format_0d 6 total_steps
          +:+ ".pth"), Pickled model) ].
Proof. reflexivity. Qed.

(** The state dict in the file of the given name, among the files of one model. *)
Lemma current_state_dict_unique model epoch total_steps dir prefix name c :
  (∀ rest, name ≠ prefix +:+ "epoch_" +:+ rest) →
  name ≠ prefix +:+ "current.pth" →
  (os_path_join dir name, c) ∈ save_model_to_disk model None epoch total_steps dir prefix →
  name = prefix +:+ "current_state_dict.pth" ∧ c = StateDict model.
Proof.
  intros Hepoch Hcur. rewrite save_model_to_disk_files, !elem_of_cons, elem_of_nil.
  intros [Hc|[Hc|[Hc|[Hc|[]]]]]; injection Hc as Hp Hc; apply os_path_join_inj in Hp.
  - done.
  - by destruct (Hepoch _ Hp).
  - by destruct (Hcur Hp).
  - by destruct (Hepoch _ Hp).
Qed.

(** X18. Every save of the script writes four files for the model and, if there is an
    EMA model, four for it; the file that the inference script's [loading_model]
    reads, [checkpoints/ema_model_current_state_dict.pth] with [use_ema] and
    [checkpoints/model_current_state_dict.pth] without, is among them for the same
    [model_dir], and it holds the state dict of the EMA model, respectively of the
    model, and nothing else is written under that name. *)
Theorem checkpoint_read_by_loading_model
    (model : module) (ema_model : option module) (epoch train_steps_current : nat)
    (model_dir : string) (use_ema : bool) (m : module) :
  (if use_ema then ema_model else Some model) = Some m →
  let files := save_both model ema_model epoch train_steps_current
                 (os_path_join model_dir "checkpoints") in
  length files = match ema_model with Some _ => 8%nat | None => 4%nat end
  ∧ (loading_model_file use_ema model_dir, StateDict m) ∈ files
  ∧ ∀ c, (loading_model_file use_ema model_dir, c) ∈ files → c = StateDict m.
Proof.
  intros Hm files. unfold files, save_both, save_nn_models_to_disk, loading_model_file.
  cbn [flat_map]. rewrite app_nil_r.
  split; [by destruct ema_model|].
  destruct use_ema.
  - subst ema_model. cbn [fmap option_fmap option_map]. split.
    + apply elem_of_app. right. rewrite save_model_to_disk_files. apply elem_of_cons. by left.
    + intros c [Hc|Hc]%elem_of_app.
      * rewrite save_model_to_disk_files, !elem_of_cons, elem_of_nil in Hc.
        destruct Hc as [Hc|[Hc|[Hc|[Hc|[]]]]]; injection Hc as Hp _;
          apply os_path_join_inj in Hp; discriminate Hp.
      * apply current_state_dict_unique in Hc as [_ ->]; [done| |done].
        intros rest Hrest. discriminate Hrest.
  - injection Hm as ->. split.
    + apply elem_of_app. left. rewrite save_model_to_disk_files. apply elem_of_cons. by left.
    + intros c [Hc|Hc]%elem_of_app.
      * apply current_state_dict_unique in Hc as [_ ->]; [done| |done].
        intros rest Hrest. discriminate Hrest.
      * destruct ema_model as [e|]; cbn [fmap option_fmap option_map] in Hc;
          [|by apply elem_of_nil in Hc].
        rewrite save_model_to_disk_files, !elem_of_cons, elem_of_nil in Hc.
        destruct Hc as [Hc|[Hc|[Hc|[Hc|[]]]]]; injection Hc as Hp _;
          apply os_path_join_inj in Hp; discriminate Hp.
Qed.

Lemma checkpoint_read_by_loading_model_witness :
  length (save_both (Toy.toy_net 0%Qc) (Some (Toy.toy_net 1%Qc)) 299 600
            (os_path_join "logs/nn_180000" "checkpoints")) = 8%nat
  ∧ (loading_model_file true "logs/nn_180000", StateDict (Toy.toy_net 1%Qc))
    ∈ save_both (Toy.toy_net 0%Qc) (Some (Toy.toy_net 1%Qc)) 299 600
        (os_path_join "logs/nn_180000" "checkpoints")
  ∧ ∀ c, (loading_model_file true "logs/nn_180000", c)
         ∈ save_both (Toy.toy_net 0%Qc) (Some (Toy.toy_net 1%Qc)) 299 600
             (os_path_join "logs/nn_180000" "checkpoints")
         → c = StateDict (Toy.toy_net 1%Qc).
Proof.
  exact (checkpoint_read_by_loading_model (Toy.toy_net 0%Qc) (Some (Toy.toy_net 1%Qc))
           299 600 "logs/nn_180000" true (Toy.toy_net 1%Qc) eq_refl).
Defined.

End CheckpointProofs.
